(** * Event-sourced multi-currency ledger: account aggregate, stores, service

    A shallow embedding of the Go packages [shared], [events], [domain],
    [store] and [app], followed by the properties established about them.

    Conventions.
    - A Go [int] is a [Z] kept in the 64-bit two's-complement range; every
      addition the source performs on an [int] goes through [GoInt.add].
    - A [decimal.Decimal] (github.com/shopspring/decimal) is a coefficient
      and a power-of-ten exponent, with the library's rescaling arithmetic
      and its text form, character by character.
    - A call that can panic returns a [panicking] value: its results, or the
      panic.
    - A Go [error] is a value of [errors.error]; a function that returns
      [(T, error)] returns a pair, the error being [None] for [nil].
    - A pointer receiver that is mutated becomes explicit state passing:
      a method returns its Go result together with the receiver afterwards.
    - [uuid.New()] and [time.Now()] are inputs of the functions calling them.
    - A Go [string] is a sequence of bytes; [utf8] tells which of them are
      valid UTF-8.
    - JSON bytes are the document they spell ([json.Value]).
    - [Decimal.Div], which one branch of [getExchangeRate] calls and nothing
      else does, is a parameter of the functions that reach that branch.
    - Calls that run concurrently are threads of a step relation
      ([concurrent.step]) over the state the store's mutex guards. *)

From Stdlib Require Import ZArith QArith Qpower Lia List Ascii.
From stdpp Require Import base option list gmap strings.
Open Scope Z_scope.
Set Warnings "-register-all".

(** ** Go's [int] *)

Module GoInt.

Definition MaxInt : Z := 2 ^ 63 - 1.
Definition MinInt : Z := - 2 ^ 63.

Definition in_range (z : Z) : Prop := MinInt <= z <= MaxInt.

(** Two's-complement reduction of a mathematical integer. *)
Definition wrap (z : Z) : Z := (z + 2 ^ 63) mod 2 ^ 64 - 2 ^ 63.

(** [x + y] on [int]s. *)
Definition add (x y : Z) : Z := wrap (x + y).

(** [len(s)] of a slice. *)
Definition len {A} (l : list A) : Z := Z.of_nat (length l).

End GoInt.

(** ** Panics

    What a call that can panic comes to: its results, or the panic with
    its message. *)

Module runtime.

Inductive panicking (A : Type) :=
| Returns (a : A)
| Panics (reason : string).
Arguments Returns {A} a.
Arguments Panics {A} reason.

End runtime.

Import runtime.

(** ** [decimal.Decimal] *)

Module decimal.

(** [value * 10 ^ exp]. The library stores [exp] in an [int32]; it is a
    [Z] here. Of the operations below only [Mul] can leave the range of an
    [int32] with operands inside it, and it panics there as the library
    does. *)
Record Decimal := mkDecimal { value : Z; exp : Z }.

Definition New (v e : Z) : Decimal := mkDecimal v e.
Definition NewFromInt (v : Z) : Decimal := mkDecimal v 0.
Definition Zero : Decimal := New 0 1.

Definition rescale (d : Decimal) (e : Z) : Decimal :=
  if exp d =? e then d
  else
    let diff := Z.abs (e - exp d) in
    if exp d <? e
    then mkDecimal (Z.quot (value d) (10 ^ diff)) e
    else mkDecimal (value d * 10 ^ diff) e.

Definition RescalePair (d1 d2 : Decimal) : Decimal * Decimal :=
  if exp d1 <? exp d2 then (d1, rescale d2 (exp d1))
  else if exp d2 <? exp d1 then (rescale d1 (exp d2), d2)
  else (d1, d2).

Definition Add (d d2 : Decimal) : Decimal :=
  let '(rd, rd2) := RescalePair d d2 in
  mkDecimal (value rd + value rd2) (exp rd).

Definition Sub (d d2 : Decimal) : Decimal :=
  let '(rd, rd2) := RescalePair d d2 in
  mkDecimal (value rd - value rd2) (exp rd).

(** [d.Mul(d2)]: the exponents are added as [int64]s, and the library
    panics when the sum does not fit the [int32] it keeps. *)
Definition Mul (d d2 : Decimal) : panicking Decimal :=
  let expInt64 := exp d + exp d2 in
  if (2 ^ 31 - 1 <? expInt64) || (expInt64 <? - 2 ^ 31)
  then Panics "exponent %v overflows an int32!"
  else Returns (mkDecimal (value d * value d2) expInt64).

Definition Cmp (d d2 : Decimal) : comparison :=
  let '(rd, rd2) := RescalePair d d2 in
  value rd ?= value rd2.

Definition Equal (d d2 : Decimal) : bool :=
  match Cmp d d2 with Eq => true | _ => false end.

Definition GreaterThan (d d2 : Decimal) : bool :=
  match Cmp d d2 with Gt => true | _ => false end.

Definition GreaterThanOrEqual (d d2 : Decimal) : bool :=
  match Cmp d d2 with Lt => false | _ => true end.

Definition Sign (d : Decimal) : Z := Z.sgn (value d).

Definition IsPositive (d : Decimal) : bool := 0 <? Sign d.
Definition IsNegative (d : Decimal) : bool := Sign d <? 0.
Definition IsZero (d : Decimal) : bool := Sign d =? 0.

(** *** Text form

    [String] and [NewFromString] work on the characters of a Go string. *)

Definition digit_char (d : Z) : ascii := ascii_of_N (48 + Z.to_N d).

Definition char_digit (c : ascii) : option Z :=
  let n := Z.of_N (N_of_ascii c) in
  if (48 <=? n) && (n <=? 57) then Some (n - 48) else None.

Fixpoint digits_loop (fuel : nat) (n : Z) (acc : list ascii) : list ascii :=
  let acc := digit_char (n mod 10) :: acc in
  match fuel with
  | O => acc
  | S fuel => if n <? 10 then acc else digits_loop fuel (n / 10) acc
  end.

(** The decimal digits of a number that is not negative, most significant
    first. *)
Definition digits (n : Z) : list ascii :=
  digits_loop (Z.to_nat (Z.log2 n)) n [].

(** [String] of a [big.Int], also [strconv.Itoa]. *)
Definition big_String (n : Z) : list ascii :=
  if n <? 0 then "-"%char :: digits (Z.abs n) else digits n.

Fixpoint parse_digits (acc : Z) (s : list ascii) : option Z :=
  match s with
  | [] => Some acc
  | c :: s =>
      match char_digit c with
      | Some d => parse_digits (acc * 10 + d) s
      | None => None
      end
  end.

Definition parse_unsigned (s : list ascii) : option Z :=
  match s with
  | [] => None
  | _ => parse_digits 0 s
  end.

(** [SetString(s, 10)] of a [big.Int]: an optional sign, then digits. *)
Definition big_SetString (s : list ascii) : option Z :=
  match s with
  | c :: s' =>
      if Ascii.eqb c "-" then Z.opp <$> parse_unsigned s'
      else if Ascii.eqb c "+" then parse_unsigned s'
      else parse_unsigned s
  | [] => None
  end.

(** [strconv.ParseInt(s, 10, bits)] *)
Definition ParseInt (s : list ascii) (bits : Z) : option Z :=
  match big_SetString s with
  | Some n => if (- 2 ^ (bits - 1) <=? n) && (n <=? 2 ^ (bits - 1) - 1) then Some n else None
  | None => None
  end.

Fixpoint drop_zeros (s : list ascii) : list ascii :=
  match s with
  | c :: s' => if Ascii.eqb c "0" then drop_zeros s' else s
  | [] => []
  end.

(** The [trimTrailingZeros] loop of [Decimal.string]. *)
Definition trim_trailing_zeros (s : list ascii) : list ascii :=
  reverse (drop_zeros (reverse s)).

Definition String_chars (d : Decimal) : list ascii :=
  if 0 <=? exp d then big_String (value (rescale d 0))
  else
    let str := big_String (Z.abs (value d)) in
    let dExpInt := Z.to_nat (- exp d) in
    let '(intPart, fractionalPart) :=
      if (dExpInt <? length str)%nat
      then (take (length str - dExpInt) str, drop (length str - dExpInt) str)
      else (["0"%char], replicate (dExpInt - length str) "0"%char ++ str) in
    let fractionalPart := trim_trailing_zeros fractionalPart in
    let number :=
      match fractionalPart with
      | [] => intPart
      | _ => intPart ++ "."%char :: fractionalPart
      end in
    if Sign d <? 0 then "-"%char :: number else number.

Definition String (d : Decimal) : string := String.string_of_list_ascii (String_chars d).

(** [strings.IndexAny(s, "Ee")], [None] for -1. *)
Fixpoint index_Ee (s : list ascii) : option nat :=
  match s with
  | [] => None
  | c :: s =>
      if (Ascii.eqb c "E" || Ascii.eqb c "e")%char then Some O
      else S <$> index_Ee s
  end.

(** The loop of [NewFromString] looking for the decimal point: the index
    of the only ['.'], or an error when there are several. *)
Fixpoint point_index (s : list ascii) (i : nat) (pIndex : option nat) : option (option nat) :=
  match s with
  | [] => Some pIndex
  | c :: s =>
      if Ascii.eqb c "."%char
      then match pIndex with
           | Some _ => None
           | None => point_index s (S i) (Some i)
           end
      else point_index s (S i) pIndex
  end.

Definition NewFromString_chars (value : list ascii) : option Decimal :=
  '(value, exp) ←
    match index_Ee value with
    | Some eIndex =>
        expInt ← ParseInt (drop (S eIndex) value) 32;
        Some (take eIndex value, expInt)
    | None => Some (value, 0)
    end;
  pIndex ← point_index value O None;
  let '(intString, exp) :=
    match pIndex with
    | None => (value, exp)
    | Some pIndex =>
        (take pIndex value ++ drop (S pIndex) value,
         exp + - Z.of_nat (length (drop (S pIndex) value)))
    end in
  dValue ← big_SetString intString;
  if (exp <? - 2 ^ 31) || (2 ^ 31 - 1 <? exp) then None
  else Some (mkDecimal dValue exp).

Definition NewFromString (value : string) : option Decimal :=
  NewFromString_chars (String.list_ascii_of_string value).

(** The characters ['0'] to ['9'], and the number a string of them
    spells after the digits read so far. *)
Definition is_digit (c : ascii) : bool :=
  match char_digit c with Some _ => true | None => false end.

Definition digits_value (acc : Z) (s : list ascii) : Z :=
  foldl (fun acc c => acc * 10 + default 0 (char_digit c)) acc s.

(** The exponent fits the [int32] the library keeps it in. *)
Definition exp_int32 (d : Decimal) : Prop := - 2 ^ 31 <= exp d <= 2 ^ 31 - 1.

(** A decimal written out and read back. *)
Definition reparse (d : Decimal) : Decimal :=
  match NewFromString (String d) with
  | Some d' => d'
  | None => d
  end.

(** The sign a number text starts with, and a number text: sign, integer
    digits, and a point with the fraction digits when there are any. *)
Definition sign_chars (negative : bool) : list ascii :=
  if negative then ["-"%char] else [].

Definition number_chars (negative : bool) (intPart fractionalPart : list ascii) : list ascii :=
  sign_chars negative ++
  match fractionalPart with
  | [] => intPart
  | _ => intPart ++ "."%char :: fractionalPart
  end.

(** The rational number a decimal denotes. *)
Definition toQ (d : Decimal) : Q := (inject_Z (value d) * Qpower (10 # 1) (exp d))%Q.

End decimal.

Import decimal.

(** ** Errors

    Go's [error] values as they occur in the source: the three sentinels of
    [domain/errors.go], the two of [store/eventstore.go], fresh
    [*DomainError]s, and [fmt.Errorf] results ([Errorf_w] when the format
    has a [%w] verb, carrying the wrapped error). Message arguments are not
    kept. *)

Module errors.

Inductive error :=
| ErrInsufficientFunds
| ErrAccountExists
| ErrAccountNotFound
| ErrOptimisticLock
| ErrNotFound
| NewDomainError (format : string)
| Errorf (format : string)
| Errorf_w (format : string) (wrapped : error).

Definition sentinel_eqb (e target : error) : bool :=
  match e, target with
  | ErrInsufficientFunds, ErrInsufficientFunds
  | ErrAccountExists, ErrAccountExists
  | ErrAccountNotFound, ErrAccountNotFound
  | ErrOptimisticLock, ErrOptimisticLock
  | ErrNotFound, ErrNotFound => true
  | _, _ => false
  end.

(** [errors.Is] against a sentinel: walk the [%w] chain. *)
Fixpoint Is (e target : error) : bool :=
  sentinel_eqb e target ||
  match e with
  | Errorf_w _ w => Is w target
  | _ => false
  end.

(** [errors.As(err, &domainErr)] with [domainErr : *DomainError]. *)
Fixpoint AsDomainError (e : error) : bool :=
  match e with
  | ErrInsufficientFunds | ErrAccountExists | ErrAccountNotFound => true
  | NewDomainError _ => true
  | Errorf_w _ w => AsDomainError w
  | _ => false
  end.

End errors.

Import errors.

(** ** Package [shared] *)

Module shared.

Abbreviation Currency := string (only parsing).

Definition USD : Currency := "USD".
Definition EUR : Currency := "EUR".
Definition GBP : Currency := "GBP".

Record Balance := mkBalance { Currency_ : Currency; Amount_ : Decimal }.

End shared.

Import shared.

(** ** Package [events] *)

Module events.

Abbreviation EventType := string (only parsing).
Abbreviation UUID := N (only parsing).
Abbreviation Time := Z (only parsing).

Record BaseEvent := mkBaseEvent {
  EventID : UUID;
  AggregateID : string;
  Version : Z;
  Timestamp : Time;
  Type_ : EventType
}.

Definition AccountCreatedType : EventType := "AccountCreated".
Definition DepositMadeType : EventType := "DepositMade".
Definition WithdrawalMadeType : EventType := "WithdrawalMade".
Definition MoneyTransferredType : EventType := "MoneyTransferred".
Definition CurrencyConvertedType : EventType := "CurrencyConverted".

Definition NewBaseEvent (uuid_New : UUID) (time_Now : Time)
    (aggregateID : string) (version : Z) (eventType : EventType) : BaseEvent :=
  {| EventID := uuid_New;
     AggregateID := aggregateID;
     Version := version;
     Timestamp := time_Now;
     Type_ := eventType |}.

(** The dynamic types the [Event] interface takes in the source. The
    embedded [BaseEvent] is the first argument of each struct;
    [BaseEvent] itself also has the [GetBase] method. *)
Inductive Event :=
| AccountCreatedEvent (base : BaseEvent) (InitialBalances : list Balance)
| DepositMadeEvent (base : BaseEvent) (Amount : Decimal) (Currency : Currency)
| WithdrawalMadeEvent (base : BaseEvent) (Amount : Decimal) (Currency : Currency)
| MoneyTransferredEvent (base : BaseEvent)
    (TransferID SourceAccountID TargetAccountID : string)
    (DebitedAmount : Decimal) (DebitedCurrency : Currency)
    (CreditedAmount : Decimal) (CreditedCurrency : Currency)
    (ExchangeRate : Decimal)
| CurrencyConvertedEvent (base : BaseEvent)
    (FromAmount : Decimal) (FromCurrency : Currency)
    (ToAmount : Decimal) (ToCurrency : Currency)
    (ExchangeRate : Decimal)
| ExchangeRateUpdatedEvent (base : BaseEvent) (CurrencyPair : string)
    (ExchangeRate PreviousExchangeRate : Decimal)
| BareBaseEvent (base : BaseEvent).

Definition GetBase (e : Event) : BaseEvent :=
  match e with
  | AccountCreatedEvent b _
  | DepositMadeEvent b _ _
  | WithdrawalMadeEvent b _ _
  | MoneyTransferredEvent b _ _ _ _ _ _ _ _
  | CurrencyConvertedEvent b _ _ _ _ _
  | ExchangeRateUpdatedEvent b _ _ _
  | BareBaseEvent b => b
  end.

End events.

Import events.

(** ** [unicode/utf8]

    The bytes of a string as characters: what [DecodeRuneInString] takes
    the first bytes of a string for, as far as the size of the character and
    the validity of its encoding go. *)

Module utf8.

Definition byte (c : ascii) : Z := Z.of_N (N_of_ascii c).

(** The bounds of a continuation byte. *)
Definition locb : Z := 0x80.
Definition hicb : Z := 0xBF.

(** The tables [first] and [acceptRanges] for a first byte that is not
    ASCII: the size of the encoding it starts and the range its second byte
    must lie in, [None] for a byte that starts no encoding. *)
Definition first (s0 : Z) : option (nat * (Z * Z)) :=
  if s0 <? 0xC2 then None
  else if s0 <? 0xE0 then Some (2%nat, (locb, hicb))
  else if s0 =? 0xE0 then Some (3%nat, (0xA0, hicb))
  else if s0 <? 0xED then Some (3%nat, (locb, hicb))
  else if s0 =? 0xED then Some (3%nat, (locb, 0x9F))
  else if s0 <? 0xF0 then Some (3%nat, (locb, hicb))
  else if s0 =? 0xF0 then Some (4%nat, (0x90, hicb))
  else if s0 <? 0xF4 then Some (4%nat, (locb, hicb))
  else if s0 =? 0xF4 then Some (4%nat, (locb, 0x8F))
  else None.

Definition continuation (c : ascii) : bool := (locb <=? byte c) && (byte c <=? hicb).

(** The size [DecodeRuneInString] returns for the string of first byte
    [s0] and further bytes [rest]; [None] where it returns [RuneError] with
    size 1, the bytes being no valid encoding. *)
Definition rune_size (s0 : ascii) (rest : list ascii) : option nat :=
  if byte s0 <? 0x80 then Some 1%nat
  else
    match first (byte s0) with
    | None => None
    | Some (sz, (lo, hi)) =>
        if (length rest <? sz - 1)%nat then None
        else
          match rest with
          | s1 :: rest =>
              if (byte s1 <? lo) || (hi <? byte s1) then None
              else if (sz <=? 2)%nat then Some 2%nat
              else
                match rest with
                | s2 :: rest =>
                    if negb (continuation s2) then None
                    else if (sz <=? 3)%nat then Some 3%nat
                    else
                      match rest with
                      | s3 :: _ => if negb (continuation s3) then None else Some 4%nat
                      | [] => None
                      end
                | [] => None
                end
          | [] => None
          end
    end.

(** [pending] bytes of the character read last are still to come. *)
Fixpoint valid (pending : nat) (s : list ascii) : bool :=
  match s with
  | [] => true
  | c :: rest =>
      match pending with
      | S pending => valid pending rest
      | O =>
          match rune_size c rest with
          | Some size => valid (size - 1) rest
          | None => false
          end
      end
  end.

Definition ValidString (s : string) : bool := valid 0 (String.list_ascii_of_string s).

(** U+FFFD, the replacement character, in UTF-8. *)
Definition RuneError : list ascii := [ascii_of_N 0xEF; ascii_of_N 0xBF; ascii_of_N 0xBD].

End utf8.

(** ** [encoding/json]

    A [[]byte] holding JSON is represented by the document it spells
    ([None] when the bytes are not a JSON text): a string of the document is
    the characters its literal spells, escapes resolved; number literals keep
    their characters. *)

Module json.

Inductive Value :=
| Null
| Bool (b : bool)
| Number (literal : string)
| Str (s : string)
| Array (elements : list Value)
| Object (members : list (string * Value)).

Abbreviation Bytes := (option Value) (only parsing).

(** The characters the encoder writes for a Go string ([appendString] of
    encode.go): a byte that starts no valid encoding is written as the escape
    of U+FFFD, every other character as itself or as an escape that spells
    it. [pending] bytes of the character written last are still to copy. *)
Fixpoint written (pending : nat) (s : list ascii) : list ascii :=
  match s with
  | [] => []
  | c :: rest =>
      match pending with
      | S pending => c :: written pending rest
      | O =>
          match utf8.rune_size c rest with
          | Some size => c :: written (size - 1) rest
          | None => utf8.RuneError ++ written 0 rest
          end
      end
  end.

Definition string_Marshal (s : string) : string :=
  String.string_of_list_ascii (written 0 (String.list_ascii_of_string s)).

(** The entries of a map in the order the encoder writes them: sorted by
    key, byte by byte. The keys of a map are distinct. *)
Fixpoint insert_sorted {A} (kv : string * A) (l : list (string * A)) : list (string * A) :=
  match l with
  | [] => [kv]
  | kv' :: l' =>
      if String.leb (fst kv) (fst kv') then kv :: l else kv' :: insert_sorted kv l'
  end.

Definition sorted_entries {A} (l : list (string * A)) : list (string * A) :=
  foldr insert_sorted [] l.

(** Matching the key of an object with the name of a struct field, which
    here is in lower-case ASCII: the key is the name, or becomes it when
    letters are folded by case. Besides the ASCII letters of the other case,
    two characters fold to an ASCII letter: U+017F to [s] and U+212A to
    [k]. *)
Fixpoint folded (s : list ascii) : list ascii :=
  match s with
  | [] => []
  | c :: rest =>
      let b := utf8.byte c in
      if (0x41 <=? b) && (b <=? 0x5A) then ascii_of_N (Z.to_N (b + 0x20)) :: folded rest
      else
        match rest with
        | c1 :: rest1 =>
            if (b =? 0xC5) && (utf8.byte c1 =? 0xBF) then "s"%char :: folded rest1
            else
              match rest1 with
              | c2 :: rest2 =>
                  if (b =? 0xE2) && (utf8.byte c1 =? 0x84) && (utf8.byte c2 =? 0xAA)
                  then "k"%char :: folded rest2
                  else c :: folded rest
              | [] => c :: folded rest
              end
        | [] => c :: folded rest
        end
  end.

Definition field_matches (key name : string) : bool :=
  String.eqb key name ||
  String.eqb (String.string_of_list_ascii (folded (String.list_ascii_of_string key))) name.

(** [MarshalJSON] of [decimal.Decimal]: the text form in quotes. *)
Definition Decimal_MarshalJSON (d : Decimal) : Value := Str (String d).

(** [UnmarshalJSON] of [decimal.Decimal]: [null] leaves the receiver as
    it is, a string or a number literal goes through [NewFromString]. *)
Definition Decimal_UnmarshalJSON (d : Decimal) (v : Value) : option Decimal :=
  match v with
  | Null => Some d
  | Str s | Number s => NewFromString s
  | _ => None
  end.

(** Decoding a number literal into an [int]. *)
Definition int_Unmarshal (v : Value) : option Z :=
  match v with
  | Number s => ParseInt (String.list_ascii_of_string s) 64
  | _ => None
  end.

Definition int_Marshal (n : Z) : Value :=
  Number (String.string_of_list_ascii (big_String n)).

End json.

(** ** Package [domain] *)

Module domain.

(** *** money.go *)

Record Money := mkMoney { MoneyAmount : Decimal; MoneyCurrency : Currency }.

Definition NewMoney (amount : Decimal) (currency : Currency) : Money :=
  mkMoney amount currency.

Definition Money_GreaterThanOrEqual (m other : Money) : bool * option error :=
  if negb (String.eqb (MoneyCurrency m) (MoneyCurrency other))
  then (false, Some (Errorf "currency mismatch: cannot compare %s and %s"))
  else (GreaterThanOrEqual (MoneyAmount m) (MoneyAmount other), None).

(** [Money{}]: the zero [Decimal] and the empty currency. *)
Definition Money_zero : Money := mkMoney (mkDecimal 0 0) "".

Definition Money_Add (m other : Money) : Money * option error :=
  if negb (String.eqb (MoneyCurrency m) (MoneyCurrency other))
  then (Money_zero, Some (Errorf "currency mismatch: cannot add %s and %s"))
  else (NewMoney (Add (MoneyAmount m) (MoneyAmount other)) (MoneyCurrency m), None).

Definition Money_Subtract (m other : Money) : Money * option error :=
  if negb (String.eqb (MoneyCurrency m) (MoneyCurrency other))
  then (Money_zero, Some (Errorf "currency mismatch: cannot subtract %s from %s"))
  else (NewMoney (Sub (MoneyAmount m) (MoneyAmount other)) (MoneyCurrency m), None).

Definition Money_IsZero (m : Money) : bool := IsZero (MoneyAmount m).
Definition Money_IsNegative (m : Money) : bool := IsNegative (MoneyAmount m).
Definition Money_IsPositive (m : Money) : bool := IsPositive (MoneyAmount m).

Definition Money_GreaterThan (m other : Money) : bool * option error :=
  if negb (String.eqb (MoneyCurrency m) (MoneyCurrency other))
  then (false, Some (Errorf "currency mismatch: cannot compare %s and %s"))
  else (GreaterThan (MoneyAmount m) (MoneyAmount other), None).

(** *** account.go *)

Record Account := mkAccount {
  ID : string;
  Balances : gmap Currency Decimal;
  Version : Z;
  changes : list Event
}.

Definition NewAccount (id : string) : Account :=
  {| ID := id; Balances := ∅; Version := 0; changes := [] |}.

Definition set_ID (a : Account) (id : string) : Account :=
  {| ID := id; Balances := Balances a; Version := Version a; changes := changes a |}.
Definition set_Balances (a : Account) (b : gmap Currency Decimal) : Account :=
  {| ID := ID a; Balances := b; Version := Version a; changes := changes a |}.
Definition set_Version (a : Account) (v : Z) : Account :=
  {| ID := ID a; Balances := Balances a; Version := v; changes := changes a |}.
Definition set_changes (a : Account) (c : list Event) : Account :=
  {| ID := ID a; Balances := Balances a; Version := Version a; changes := c |}.

(** [a.Balances[currency] = amount] *)
Definition store_balance (a : Account) (currency : Currency) (amount : Decimal) : Account :=
  set_Balances a (<[currency := amount]> (Balances a)).

Definition GetUncommitedChanges (a : Account) : list Event * Account :=
  (changes a, set_changes a []).

Definition getBalance (a : Account) (currency : Currency) : Decimal :=
  match Balances a !! currency with
  | Some balance => balance
  | None => Zero
  end.

(** The [for _, balance := range e.InitialBalances] loop of [ApplyEvent]. *)
Definition install_balances (l : list Balance) : gmap Currency Decimal :=
  foldl (fun m balance => <[Currency_ balance := Amount_ balance]> m) ∅ l.

(** [ApplyEvent] returns the error (if any) and the receiver afterwards. *)
Definition ApplyEvent (a : Account) (event : Event) : option error * Account :=
  let base := GetBase event in
  if negb (events.Version base =? GoInt.add (Version a) 1)
  then (Some (Errorf "apply failed: event version mismatch for account %s: expected %d, got %d for event %T (%s)"), a)
  else
    let finish (a : Account) := (None, set_Version a (events.Version base)) in
    match event with
    | AccountCreatedEvent b InitialBalances =>
        let a := set_ID a (AggregateID b) in
        let a := set_Balances a (install_balances InitialBalances) in
        finish a
    | DepositMadeEvent _ Amount Currency =>
        let currentBalance := getBalance a Currency in
        finish (store_balance a Currency (Add currentBalance Amount))
    | WithdrawalMadeEvent _ Amount Currency =>
        let currentBalance := getBalance a Currency in
        let newBalance := Sub currentBalance Amount in
        if IsNegative newBalance
        then (Some (Errorf "invariant violation: negative balance applying %T (v%d)"), a)
        else finish (store_balance a Currency newBalance)
    | CurrencyConvertedEvent _ FromAmount FromCurrency ToAmount ToCurrency _ =>
        let currentFrom := getBalance a FromCurrency in
        let newFrom := Sub currentFrom FromAmount in
        if IsNegative newFrom
        then (Some (Errorf "invariant violation: negative balance applying debit of %T (v%d)"), a)
        else
          let a := store_balance a FromCurrency newFrom in
          let currentTo := getBalance a ToCurrency in
          finish (store_balance a ToCurrency (Add currentTo ToAmount))
    | MoneyTransferredEvent _ _ _ _ DebitedAmount DebitedCurrency _ _ _ =>
        let currentBalance := getBalance a DebitedCurrency in
        let newBalance := Sub currentBalance DebitedAmount in
        if IsNegative newBalance
        then (Some (Errorf "invariant violation: negative balance applying debit of %T (v%d)"), a)
        else finish (store_balance a DebitedCurrency newBalance)
    | _ => (Some (Errorf "apply failed: unknown event type %T for account %s"), a)
    end.

Fixpoint ApplyEvents (a : Account) (history : list Event) : option error * Account :=
  match history with
  | [] => (None, a)
  | event :: rest =>
      match ApplyEvent a event with
      | (Some err, a) =>
          (Some (Errorf_w "failed to apply event %s (%T) at version %d during reconstruction: %w" err), a)
      | (None, a) => ApplyEvents a rest
      end
  end.

Definition handleChange (a : Account) (event : Event) : option error * Account :=
  match ApplyEvent a event with
  | (Some err, a) => (Some (Errorf_w "internal error applying event %T: %w" err), a)
  | (None, a) => (None, set_changes a (changes a ++ [event]))
  end.

(** *** Command handlers

    [uuid_New] and [time_Now] are what [events.NewBaseEvent] draws. *)

Section Handlers.
Variable uuid_New : UUID.
Variable time_Now : Time.

Definition balanceEntries (initialBalances : gmap Currency Decimal) : list Balance :=
  (fun kv => mkBalance (fst kv) (snd kv)) <$> map_to_list initialBalances.

(** Go ranges over the map in an unspecified order; [map_to_list] fixes
    one. The order decides which negative amount is reported and the
    order of the entries in the event, nothing else. *)
Definition HandleCreateAccount (a : Account) (id : string)
    (initialBalances : gmap Currency Decimal) : option error * Account :=
  if 0 <? Version a
  then (Some (Errorf_w "%w: account %s (current version %d)" ErrAccountExists), a)
  else if String.eqb id ""
  then (Some (NewDomainError "account ID cannot be empty"), a)
  else if existsb (fun kv => IsNegative (snd kv)) (map_to_list initialBalances)
  then (Some (NewDomainError "initial balance for %s cannot be negative: %s"), a)
  else
    let event := AccountCreatedEvent
      (NewBaseEvent uuid_New time_Now id (GoInt.add (Version a) 1) AccountCreatedType)
      (balanceEntries initialBalances) in
    handleChange a event.

Definition HandleDeposit (a : Account) (amount : Decimal) (currency : Currency)
    : option error * Account :=
  if String.eqb (ID a) "" || (Version a =? 0)
  then (Some (NewDomainError "cannot deposit to uninitialized account"), a)
  else if negb (IsPositive amount)
  then (Some (NewDomainError "deposit amount must be positive: %s"), a)
  else
    let event := DepositMadeEvent
      (NewBaseEvent uuid_New time_Now (ID a) (GoInt.add (Version a) 1) DepositMadeType)
      amount currency in
    handleChange a event.

Definition HandleWithdraw (a : Account) (amount : Decimal) (currency : Currency)
    : option error * Account :=
  if String.eqb (ID a) "" || (Version a =? 0)
  then (Some (NewDomainError "cannot withdraw from uninitialized account"), a)
  else if negb (IsPositive amount)
  then (Some (NewDomainError "withdrawal amount must be positive: %s"), a)
  else
    let currentBalance := getBalance a currency in
    let required := NewMoney amount currency in
    let available := NewMoney currentBalance currency in
    let '(sufficient, _) := Money_GreaterThanOrEqual available required in
    if negb sufficient
    then (Some (Errorf_w "%w: requested %s %s, available %s %s" ErrInsufficientFunds), a)
    else
      let event := WithdrawalMadeEvent
        (NewBaseEvent uuid_New time_Now (ID a) (GoInt.add (Version a) 1) WithdrawalMadeType)
        amount currency in
      handleChange a event.

(** [fromAmount.Mul(exchangeRate)] can panic; nothing recovers from it
    and the receiver has not been touched by then. *)
Definition HandleConvertCurrency (a : Account) (fromAmount : Decimal)
    (fromCurrency toCurrency : Currency) (exchangeRate : Decimal)
    : panicking (option error * Account) :=
  if String.eqb (ID a) "" || (Version a =? 0)
  then Returns (Some (NewDomainError "cannot convert currency for uninitialized account"), a)
  else if negb (IsPositive fromAmount)
  then Returns (Some (NewDomainError "conversion amount must be positive: %s"), a)
  else if String.eqb fromCurrency toCurrency
  then Returns (Some (NewDomainError "cannot convert currency %s to itself"), a)
  else if negb (IsPositive exchangeRate)
  then Returns (Some (NewDomainError "exchange rate must be positive: %s"), a)
  else
    let currentFromBalance := getBalance a fromCurrency in
    let required := NewMoney fromAmount fromCurrency in
    let available := NewMoney currentFromBalance fromCurrency in
    let '(sufficient, _) := Money_GreaterThanOrEqual available required in
    if negb sufficient
    then Returns (Some (Errorf_w "%w: requested %s %s, available %s %s for conversion" ErrInsufficientFunds), a)
    else
      match Mul fromAmount exchangeRate with
      | Panics reason => Panics reason
      | Returns toAmount =>
          let event := CurrencyConvertedEvent
            (NewBaseEvent uuid_New time_Now (ID a) (GoInt.add (Version a) 1) CurrencyConvertedType)
            fromAmount fromCurrency toAmount toCurrency exchangeRate in
          Returns (handleChange a event)
      end.

(** The struct literal of [HandleTransferMoney] names neither
    [TransferID] nor [SourceAccountID]: both are the empty string. In the
    cross-currency branch [debitAmount.Mul(rate)] is computed, and can panic;
    a product that differs from [creditAmount] is only logged. *)
Definition HandleTransferMoney (a : Account) (targetAccountID : string)
    (debitAmount : Decimal) (debitCurrency : Currency)
    (creditAmount : Decimal) (creditCurrency : Currency) (rate : Decimal)
    : panicking (option error * Account) :=
  if String.eqb (ID a) "" || (Version a =? 0)
  then Returns (Some (NewDomainError "cannot transfer from uninitialized account"), a)
  else if negb (IsPositive debitAmount)
  then Returns (Some (NewDomainError "transfer amount must be positive: %s"), a)
  else if String.eqb targetAccountID ""
  then Returns (Some (NewDomainError "target account ID cannot be empty"), a)
  else if String.eqb targetAccountID (ID a)
  then Returns (Some (NewDomainError "cannot transfer funds to the same account"), a)
  else
    let currentBalance := getBalance a debitCurrency in
    let required := NewMoney debitAmount debitCurrency in
    let available := NewMoney currentBalance debitCurrency in
    let '(sufficient, _) := Money_GreaterThanOrEqual available required in
    if negb sufficient
    then Returns (Some (Errorf_w "%w: requested %s %s, available %s %s for transfer" ErrInsufficientFunds), a)
    else
      let emit (rate : Decimal) :=
        let event := MoneyTransferredEvent
          (NewBaseEvent uuid_New time_Now (ID a) (GoInt.add (Version a) 1) MoneyTransferredType)
          "" "" targetAccountID
          debitAmount debitCurrency creditAmount creditCurrency rate in
        handleChange a event in
      if negb (String.eqb debitCurrency creditCurrency)
      then
        if negb (IsPositive rate)
        then Returns (Some (NewDomainError "exchange rate must be positive for cross-currency transfer: %s"), a)
        else
          match Mul debitAmount rate with
          | Panics reason => Panics reason
          | Returns calculatedCredit => Returns (emit rate)
          end
      else
        if negb (Equal creditAmount debitAmount)
        then Returns (Some (NewDomainError "debit (%s) and credit (%s) amounts must match for same-currency transfer (%s)"), a)
        else if negb (Equal rate (NewFromInt 1))
        then Returns (emit (NewFromInt 1))
        else Returns (emit rate).

End Handlers.

(** *** snapshot.go *)

Record Snapshot := mkSnapshot {
  SnapshotAggregateID : string;
  SnapshotVersion : Z;
  State : json.Bytes;
  SnapshotTimestamp : Time
}.

(** [json.Marshal(account)]: the exported fields under their tags; the
    unexported [changes] is not written. The id and the keys of the map are
    written as the encoder writes strings, the entries of the map in the
    order of their keys. It cannot fail on this struct. *)
Definition json_Marshal (account : Account) : json.Bytes * option error :=
  (Some (json.Object
     [ ("id", json.Str (json.string_Marshal (ID account)));
       ("balances",
        json.Object ((fun kv => (json.string_Marshal (fst kv), json.Decimal_MarshalJSON (snd kv)))
                       <$> json.sorted_entries (map_to_list (Balances account))));
       ("version", json.int_Marshal (Version account)) ]),
   None).

(** What [json.Unmarshal] has filled in of a [var account Account]:
    [decBalances] is [None] while the map is still [nil]. *)
Record decoded := mkDecoded {
  decID : string;
  decBalances : option (gmap Currency Decimal);
  decVersion : Z
}.

Definition decoded_zero : decoded := mkDecoded "" None 0.

(** Decoding an object into the map: entries are added to the map
    already there, a repeated key overwrites. *)
Fixpoint Balances_Unmarshal (m : gmap Currency Decimal) (members : list (string * json.Value))
    : option (gmap Currency Decimal) :=
  match members with
  | [] => Some m
  | (k, v) :: members =>
      match json.Decimal_UnmarshalJSON (mkDecimal 0 0) v with
      | Some d => Balances_Unmarshal (<[k := d]> m) members
      | None => None
      end
  end.

(** One member of the object: [null] leaves a string or an [int] as it
    is and sets the map to [nil]; a key that matches no field is skipped. *)
Definition field_Unmarshal (acc : decoded) (key : string) (v : json.Value) : option decoded :=
  if json.field_matches key "id" then
    match v with
    | json.Null => Some acc
    | json.Str s => Some (mkDecoded s (decBalances acc) (decVersion acc))
    | _ => None
    end
  else if json.field_matches key "balances" then
    match v with
    | json.Null => Some (mkDecoded (decID acc) None (decVersion acc))
    | json.Object members =>
        m ← Balances_Unmarshal (default ∅ (decBalances acc)) members;
        Some (mkDecoded (decID acc) (Some m) (decVersion acc))
    | _ => None
    end
  else if json.field_matches key "version" then
    match v with
    | json.Null => Some acc
    | _ => n ← json.int_Unmarshal v; Some (mkDecoded (decID acc) (decBalances acc) n)
    end
  else Some acc.

Fixpoint fields_Unmarshal (acc : decoded) (members : list (string * json.Value)) : option decoded :=
  match members with
  | [] => Some acc
  | (k, v) :: members =>
      match field_Unmarshal acc k v with
      | Some acc => fields_Unmarshal acc members
      | None => None
      end
  end.

(** [json.Unmarshal(data, &account)] on a zero [Account]. *)
Definition json_Unmarshal (data : json.Bytes) : option decoded :=
  match data with
  | Some json.Null => Some decoded_zero
  | Some (json.Object members) => fields_Unmarshal decoded_zero members
  | _ => None
  end.

Definition CreateSnapshot (time_Now : Time) (account : Account) : option Snapshot * option error :=
  match json_Marshal account with
  | (_, Some err) =>
      (None, Some (Errorf_w "failed to marshal account state for snapshot (ID: %s, Version: %d): %w" err))
  | (stateJSON, None) =>
      (Some {| SnapshotAggregateID := ID account;
               SnapshotVersion := Version account;
               State := stateJSON;
               SnapshotTimestamp := time_Now |}, None)
  end.

Definition ApplySnapshot (snap : Snapshot) : option Account * option error :=
  match json_Unmarshal (State snap) with
  | None =>
      (None, Some (Errorf_w "failed to unmarshal snapshot state into account (ID: %s, Version: %d): %w"
                     (Errorf "json: cannot unmarshal")))
  | Some account =>
      let account :=
        if negb (String.eqb (decID account) (SnapshotAggregateID snap))
           || negb (decVersion account =? SnapshotVersion snap)
        then mkDecoded (SnapshotAggregateID snap) (decBalances account) (SnapshotVersion snap)
        else account in
      let changes := [] in
      let balances :=
        match decBalances account with
        | None => ∅
        | Some m => m
        end in
      (Some {| ID := decID account; Balances := balances;
               Version := decVersion account; changes := changes |}, None)
  end.

End domain.

Import domain.

(** ** Package [store] *)

Module store.

(** *** eventstore.go

    The state guarded by the [sync.RWMutex] of [InMemoryEventStore]. A
    method below is the body run while the lock is held. *)

Record InMemoryEventStore := mkEventStore {
  streams : gmap string (list Event)
}.

Definition NewInMemoryEventStore : InMemoryEventStore := mkEventStore ∅.

(** [currentVersion] as [SaveEvents] computes it: the version of the last
    event of the stream, [0] without a stream or with an empty one. *)
Definition currentVersion (s : InMemoryEventStore) (aggregateID : string) : Z :=
  match streams s !! aggregateID with
  | Some stream =>
      match last stream with
      | Some e => events.Version (GetBase e)
      | None => 0
      end
  | None => 0
  end.

(** The validation loop of [SaveEvents]; [nextVersion] is its value
    before the iteration. *)
Fixpoint check_batch (aggregateID : string) (nextVersion : Z) (newEvents : list Event)
    : option error :=
  match newEvents with
  | [] => None
  | event :: rest =>
      let base := GetBase event in
      let nextVersion := GoInt.add nextVersion 1 in
      if negb (events.Version base =? nextVersion)
      then Some (Errorf "event sequence error for aggregate %s: expected version %d for event %T (%s), but got %d")
      else if negb (String.eqb (AggregateID base) aggregateID)
      then Some (Errorf "event aggregate ID mismatch: stream is for %s, but event %T (%s) has ID %s")
      else check_batch aggregateID nextVersion rest
  end.

Definition SaveEvents (s : InMemoryEventStore) (aggregateID : string)
    (expectedVersion : Z) (newEvents : list Event) : option error * InMemoryEventStore :=
  if GoInt.len newEvents =? 0 then (None, s)
  else
    if negb (currentVersion s aggregateID =? expectedVersion)
    then (Some (Errorf_w "%w: expected version %d, but current version is %d for aggregate %s"
                  ErrOptimisticLock), s)
    else
      match check_batch aggregateID expectedVersion newEvents with
      | Some err => (Some err, s)
      | None =>
          let stream := default [] (streams s !! aggregateID) in
          (None, mkEventStore (<[aggregateID := stream ++ newEvents]> (streams s)))
      end.

Definition GetEvents (s : InMemoryEventStore) (aggregateID : string)
    : list Event * option error :=
  match streams s !! aggregateID with
  | None => ([], None)
  | Some streamData => (streamData, None)
  end.

(** The search loop of [GetEventsAfterVersion]: the index of the first
    event whose version is greater, [None] for -1. *)
Fixpoint first_after (streamData : list Event) (version : Z) (i : nat) : option nat :=
  match streamData with
  | [] => None
  | event :: rest =>
      if version <? events.Version (GetBase event) then Some i
      else first_after rest version (S i)
  end.

Definition GetEventsAfterVersion (s : InMemoryEventStore) (aggregateID : string)
    (version : Z) : list Event * option error :=
  match streams s !! aggregateID with
  | None => ([], None)
  | Some streamData =>
      match first_after streamData version O with
      | None => ([], None)
      | Some startIndex => (drop startIndex streamData, None)
      end
  end.

(** The stored version in the words of the specification: the highest
    version among the stored events of the aggregate, [0] when there is
    none. *)
Definition highest_version (stream : list Event) : Z :=
  foldr (fun e m => Z.max (events.Version (GetBase e)) m) 0 stream.

Definition stored_version (s : InMemoryEventStore) (aggregateID : string) : Z :=
  highest_version (default [] (streams s !! aggregateID)).

(** A stream as [SaveEvents] builds it from nothing: the event at index
    [i] has version [i + 1] and the id of the stream. *)
Definition stream_wf (aggregateID : string) (stream : list Event) : Prop :=
  forall i e, stream !! i = Some e ->
    events.Version (GetBase e) = Z.of_nat i + 1 /\ AggregateID (GetBase e) = aggregateID.

Definition store_wf (s : InMemoryEventStore) : Prop :=
  forall aggregateID stream,
    streams s !! aggregateID = Some stream ->
    stream_wf aggregateID stream /\ GoInt.len stream <= GoInt.MaxInt.

(** A batch in the words of the specification: versions
    [expectedVersion + 1], [expectedVersion + 2], ... without a gap, and
    every event carrying the id of the stream. *)
Definition batch_in_sequence (expectedVersion : Z) (batch : list Event) : Prop :=
  forall i e, batch !! i = Some e ->
    events.Version (GetBase e) = expectedVersion + 1 + Z.of_nat i.

Definition batch_ids_match (aggregateID : string) (batch : list Event) : Prop :=
  forall e, e ∈ batch -> AggregateID (GetBase e) = aggregateID.

(** *** Test helpers of eventstore.go

    A [nil] slice is [None]. *)

Definition GetStreamCopy (s : InMemoryEventStore) (aggregateID : string)
    : option (list Event) :=
  match streams s !! aggregateID with
  | None => None
  | Some streamData => Some streamData
  end.

Definition SetStream (s : InMemoryEventStore) (aggregateID : string)
    (stream : option (list Event)) : InMemoryEventStore :=
  match stream with
  | None => mkEventStore (delete aggregateID (streams s))
  | Some stream => mkEventStore (<[aggregateID := stream]> (streams s))
  end.

(** *** snapshotstore.go *)

Record InMemorySnapshotStore := mkSnapshotStore {
  snapshots : gmap string Snapshot
}.

Definition NewInMemorySnapshotStore : InMemorySnapshotStore := mkSnapshotStore ∅.

(** [snapshot] is [None] for a nil pointer. *)
Definition SaveSnapshot (time_Now : Time) (s : InMemorySnapshotStore)
    (snapshot : option Snapshot) : option error * InMemorySnapshotStore :=
  match snapshot with
  | None => (Some (Errorf "cannot save nil snapshot"), s)
  | Some snapshot =>
      let stored := {| SnapshotAggregateID := SnapshotAggregateID snapshot;
                       SnapshotVersion := SnapshotVersion snapshot;
                       State := State snapshot;
                       SnapshotTimestamp := time_Now |} in
      (None, mkSnapshotStore (<[SnapshotAggregateID snapshot := stored]> (snapshots s)))
  end.

Definition GetLatestSnapshot (s : InMemorySnapshotStore) (aggregateID : string)
    : option Snapshot * bool * option error :=
  match snapshots s !! aggregateID with
  | None => (None, false, None)
  | Some snapshot => (Some snapshot, true, None)
  end.

End store.

Import store.

(** ** Package [app] *)

Module app.

Definition SnapshotFrequency : Z := 100.

Record AccountService := mkAccountService {
  eventStore : InMemoryEventStore;
  snapshotStore : InMemorySnapshotStore
}.

Record GetHistoryQuery := mkGetHistoryQuery {
  AccountID : string;
  Skip : Z;
  Limit : Z
}.

(** What a call comes to: a returned value, a returned error, or a
    run-time panic. *)
Inductive outcome (A : Type) :=
| Returned (a : A)
| Failed (err : error)
| Panicked (reason : string).
Arguments Returned {A} a.
Arguments Failed {A} err.
Arguments Panicked {A} reason.

(** The slice expression [s[low:high]] on a slice whose capacity is its
    length. *)
Definition slice {A} (s : list A) (low high : Z) : outcome (list A) :=
  if (0 <=? low) && (low <=? high) && (high <=? GoInt.len s)
  then Returned (take (Z.to_nat (high - low)) (drop (Z.to_nat low) s))
  else Panicked "slice bounds out of range".

Definition loadAccount (s : AccountService) (accountID : string) : outcome Account :=
  let '(snapshot, found, err) := GetLatestSnapshot (snapshotStore s) accountID in
  let found := match err with Some _ => false | None => found end in
  let '(account, snapshotVersion) :=
    match found, snapshot with
    | true, Some snapshot =>
        match ApplySnapshot snapshot with
        | (Some account, None) => (account, domain.Version account)
        | _ => (NewAccount accountID, 0)
        end
    | _, _ => (NewAccount accountID, 0)
    end in
  let '(eventsToApply, err) := GetEventsAfterVersion (eventStore s) accountID snapshotVersion in
  let replay :=
    let applied :=
      if 0 <? GoInt.len eventsToApply
      then ApplyEvents account eventsToApply
      else (None, account) in
    match applied with
    | (Some err, _) =>
        Failed (Errorf_w "critical error applying events to account %s after snapshot/initial load: %w" err)
    | (None, account) =>
        if domain.Version account =? 0
        then Failed (Errorf_w "%w: %s" ErrAccountNotFound)
        else Returned account
    end in
  match err with
  | Some err =>
      if snapshotVersion =? 0
      then Failed (Errorf_w "failed to load initial events for account %s: %w" err)
      else replay
  | None => replay
  end.

Definition GetTransactionHistory (s : AccountService) (query : GetHistoryQuery)
    : outcome (list Event) :=
  let '(history, err) := GetEvents (eventStore s) (AccountID query) in
  match err with
  | Some err => Failed (Errorf_w "failed to get event history for account %s: %w" err)
  | None =>
      if GoInt.len history =? 0 then
        match loadAccount s (AccountID query) with
        | Panicked reason => Panicked reason
        | Failed errLoad =>
            if Is errLoad ErrAccountNotFound
            then Failed (Errorf_w "%w: cannot get history: account %s not found" ErrAccountNotFound)
            else Returned []
        | Returned _ => Returned []
        end
      else
        let totalEvents := GoInt.len history in
        let start := Skip query in
        let start := if start <? 0 then 0 else start in
        if totalEvents <=? start then Returned []
        else
          let end_ := GoInt.add start (Limit query) in
          let end_ := if (Limit query <=? 0) || (totalEvents <? end_) then totalEvents else end_ in
          slice history start end_
  end.

(** The page of a history in the words of the specification: the
    events from index [skip] on, at most [limit] of them when [limit] is
    positive, all of them otherwise. *)
Definition page {A} (skip limit : Z) (history : list A) : list A :=
  let rest := drop (Z.to_nat skip) history in
  if limit <=? 0 then rest else take (Z.to_nat limit) rest.

(** *** Commands and queries of the service

    The service holds its two stores behind interfaces; they are the
    in-memory ones here. A command returns what the Go method returns
    together with the service afterwards. Besides what [NewBaseEvent] draws,
    [created_Now] is the clock read by [CreateSnapshot] and [saved_Now] the
    one read by [SaveSnapshot]. *)

Record CreateAccountCommand := mkCreateAccountCommand {
  CreateAccountID : string;
  CreateInitialBalances : gmap Currency Decimal
}.

Record DepositMoneyCommand := mkDepositMoneyCommand {
  DepositAccountID : string;
  DepositAmount : Decimal;
  DepositCurrency : Currency
}.

Record WithdrawMoneyCommand := mkWithdrawMoneyCommand {
  WithdrawAccountID : string;
  WithdrawAmount : Decimal;
  WithdrawCurrency : Currency
}.

Record ConvertCurrencyCommand := mkConvertCurrencyCommand {
  ConvertAccountID : string;
  ConvertFromAmount : Decimal;
  ConvertFromCurrency : Currency;
  ConvertToCurrency : Currency
}.

(** [BalanceCurrency] is [None] for a nil pointer. *)
Record GetBalanceQuery := mkGetBalanceQuery {
  BalanceAccountID : string;
  BalanceCurrency : option Currency
}.

(** [account.Version%SnapshotFrequency] is Go's remainder, which takes
    the sign of the dividend. *)
Definition saveSnapshotIfNeeded (created_Now saved_Now : Time)
    (s : AccountService) (account : Account) : AccountService :=
  if (Z.rem (domain.Version account) SnapshotFrequency =? 0) && (0 <? domain.Version account)
  then
    match CreateSnapshot created_Now account with
    | (_, Some err) => s
    | (snapshot, None) =>
        let '(_, snapshots) := SaveSnapshot saved_Now (snapshotStore s) snapshot in
        mkAccountService (eventStore s) snapshots
    end
  else s.

(** [uuid_NewString] is the id [uuid.NewString()] draws when the command
    carries none. *)
Definition CreateAccount (uuid_NewString : string) (uuid_New : UUID)
    (time_Now created_Now saved_Now : Time)
    (s : AccountService) (cmd : CreateAccountCommand) : outcome string * AccountService :=
  let accountID := CreateAccountID cmd in
  let accountID := if String.eqb accountID "" then uuid_NewString else accountID in
  let create :=
    let account := NewAccount accountID in
    match HandleCreateAccount uuid_New time_Now account accountID (CreateInitialBalances cmd) with
    | (Some err, _) => (Failed (Errorf_w "account creation failed validation: %w" err), s)
    | (None, account) =>
        let '(changes, account) := GetUncommitedChanges account in
        if GoInt.len changes =? 0
        then (Failed (Errorf "internal error: create account produced no events"), s)
        else
          let '(err, es) := SaveEvents (eventStore s) accountID 0 changes in
          let s := mkAccountService es (snapshotStore s) in
          match err with
          | Some err =>
              (Failed (Errorf_w "failed to save creation events for account %s: %w" err), s)
          | None => (Returned accountID, saveSnapshotIfNeeded created_Now saved_Now s account)
          end
    end in
  match loadAccount s accountID with
  | Panicked reason => (Panicked reason, s)
  | Failed err =>
      if negb (Is err ErrAccountNotFound)
      then (Failed (Errorf_w "failed to check for existing account %s: %w" err), s)
      else create
  | Returned existingAccount => (Failed (Errorf_w "%w: %s" ErrAccountExists), s)
  end.

Definition Deposit (uuid_New : UUID) (time_Now created_Now saved_Now : Time)
    (s : AccountService) (cmd : DepositMoneyCommand) : outcome unit * AccountService :=
  match loadAccount s (DepositAccountID cmd) with
  | Panicked reason => (Panicked reason, s)
  | Failed err => (Failed (Errorf_w "failed to load account %s for deposit: %w" err), s)
  | Returned account =>
      let initialVersion := domain.Version account in
      match HandleDeposit uuid_New time_Now account (DepositAmount cmd) (DepositCurrency cmd) with
      | (Some err, _) => (Failed (Errorf_w "deposit command failed for account %s: %w" err), s)
      | (None, account) =>
          let '(changes, account) := GetUncommitedChanges account in
          if GoInt.len changes =? 0 then (Returned tt, s)
          else
            let '(err, es) := SaveEvents (eventStore s) (DepositAccountID cmd) initialVersion changes in
            let s := mkAccountService es (snapshotStore s) in
            match err with
            | Some err =>
                (Failed (Errorf_w "failed to save deposit events for account %s: %w" err), s)
            | None => (Returned tt, saveSnapshotIfNeeded created_Now saved_Now s account)
            end
      end
  end.

Definition Withdraw (uuid_New : UUID) (time_Now created_Now saved_Now : Time)
    (s : AccountService) (cmd : WithdrawMoneyCommand) : outcome unit * AccountService :=
  match loadAccount s (WithdrawAccountID cmd) with
  | Panicked reason => (Panicked reason, s)
  | Failed err => (Failed (Errorf_w "failed to load account %s for withdrawal: %w" err), s)
  | Returned account =>
      let initialVersion := domain.Version account in
      match HandleWithdraw uuid_New time_Now account (WithdrawAmount cmd) (WithdrawCurrency cmd) with
      | (Some err, _) =>
          if Is err ErrInsufficientFunds then (Failed err, s)
          else (Failed (Errorf_w "withdrawal command failed for account %s: %w" err), s)
      | (None, account) =>
          let '(changes, account) := GetUncommitedChanges account in
          if GoInt.len changes =? 0 then (Returned tt, s)
          else
            let '(err, es) := SaveEvents (eventStore s) (WithdrawAccountID cmd) initialVersion changes in
            let s := mkAccountService es (snapshotStore s) in
            match err with
            | Some err =>
                (Failed (Errorf_w "failed to save withdrawal events for account %s: %w" err), s)
            | None => (Returned tt, saveSnapshotIfNeeded created_Now saved_Now s account)
            end
      end
  end.

(** The table of [getExchangeRate]. *)
Definition rates : gmap Currency (gmap Currency string) :=
  {[ USD := {[ EUR := "0.92"; GBP := "0.80" ]};
     EUR := {[ USD := "1.08"; GBP := "0.87" ]};
     GBP := {[ USD := "1.25"; EUR := "1.15" ]} ]}.

Section ExchangeRate.

(** [Decimal.Div] of the library, the division the inverse-rate branch of
    [getExchangeRate] calls. *)
Variable Div : Decimal -> Decimal -> Decimal.

Definition getExchangeRate (from to : Currency) : Decimal * option error :=
  if String.eqb from to then (NewFromInt 1, None)
  else
    match rates !! from ≫= (fun rateMap => rateMap !! to) with
    | Some rateStr =>
        match NewFromString rateStr with
        | None => (Zero, Some (Errorf "internal rate parse error for %s->%s"))
        | Some rate => (rate, None)
        end
    | None =>
        match rates !! to ≫= (fun rateMap => rateMap !! from) with
        | Some inverseRateStr =>
            match NewFromString inverseRateStr with
            | None => (Zero, Some (Errorf "internal inverse rate parse error for %s->%s"))
            | Some inverseRate =>
                if IsZero inverseRate
                then (Zero, Some (Errorf "cannot invert zero rate for %s -> %s"))
                else (Div (NewFromInt 1) inverseRate, None)
            end
        | None => (Zero, Some (Errorf "exchange rate not found for %s -> %s"))
        end
    end.

Definition ConvertCurrency (uuid_New : UUID) (time_Now created_Now saved_Now : Time)
    (s : AccountService) (cmd : ConvertCurrencyCommand) : outcome unit * AccountService :=
  match loadAccount s (ConvertAccountID cmd) with
  | Panicked reason => (Panicked reason, s)
  | Failed err =>
      (Failed (Errorf_w "failed to load account %s for currency conversion: %w" err), s)
  | Returned account =>
      let initialVersion := domain.Version account in
      match getExchangeRate (ConvertFromCurrency cmd) (ConvertToCurrency cmd) with
      | (_, Some err) =>
          (Failed (Errorf_w "could not get exchange rate for %s -> %s: %w" err), s)
      | (rate, None) =>
          match HandleConvertCurrency uuid_New time_Now account
                  (ConvertFromAmount cmd) (ConvertFromCurrency cmd) (ConvertToCurrency cmd) rate with
          | Panics reason => (Panicked reason, s)
          | Returns (Some err, _) =>
              if Is err ErrInsufficientFunds then (Failed err, s)
              else (Failed (Errorf_w "currency conversion command failed for account %s: %w" err), s)
          | Returns (None, account) =>
              let '(changes, account) := GetUncommitedChanges account in
              if GoInt.len changes =? 0 then (Returned tt, s)
              else
                let '(err, es) :=
                  SaveEvents (eventStore s) (ConvertAccountID cmd) initialVersion changes in
                let s := mkAccountService es (snapshotStore s) in
                match err with
                | Some err =>
                    (Failed (Errorf_w "failed to save conversion events for account %s: %w" err), s)
                | None => (Returned tt, saveSnapshotIfNeeded created_Now saved_Now s account)
                end
          end
      end
  end.

End ExchangeRate.

(** The copy loop of [GetCurrentBalance]; the order in which Go ranges
    over the map does not show in the copy. *)
Definition copy_balances (balances : gmap Currency Decimal) : gmap Currency Decimal :=
  foldl (fun balancesCopy kv => <[fst kv := snd kv]> balancesCopy) ∅ (map_to_list balances).

(** [account.Balances[*query.Currency]] is the zero [Decimal] for a
    currency the account does not hold. *)
Definition GetCurrentBalance (s : AccountService) (query : GetBalanceQuery)
    : outcome (gmap Currency Decimal) :=
  match loadAccount s (BalanceAccountID query) with
  | Panicked reason => Panicked reason
  | Failed err =>
      if Is err ErrAccountNotFound
      then Failed (Errorf_w "cannot get balance: %w" err)
      else Failed (Errorf_w "failed to load account %s for balance query: %w" err)
  | Returned account =>
      match BalanceCurrency query with
      | Some currency =>
          let balance := default (mkDecimal 0 0) (Balances account !! currency) in
          Returned (<[currency := balance]> ∅)
      | None => Returned (copy_balances (Balances account))
      end
  end.

End app.

Import app.

(** ** Command sequences on one aggregate

    A command of the aggregate together with what [NewBaseEvent] draws
    while it runs. *)

Module commands.

Inductive Command :=
| CreateAccount (id : string) (initialBalances : gmap Currency Decimal)
| Deposit (amount : Decimal) (currency : Currency)
| Withdraw (amount : Decimal) (currency : Currency)
| ConvertCurrency (fromAmount : Decimal) (fromCurrency toCurrency : Currency)
    (exchangeRate : Decimal)
| TransferMoney (targetAccountID : string)
    (debitAmount : Decimal) (debitCurrency : Currency)
    (creditAmount : Decimal) (creditCurrency : Currency) (rate : Decimal).

Definition Handle (uuid_New : UUID) (time_Now : Time) (a : Account) (c : Command)
    : panicking (option error * Account) :=
  match c with
  | CreateAccount id initialBalances =>
      Returns (HandleCreateAccount uuid_New time_Now a id initialBalances)
  | Deposit amount currency =>
      Returns (HandleDeposit uuid_New time_Now a amount currency)
  | Withdraw amount currency =>
      Returns (HandleWithdraw uuid_New time_Now a amount currency)
  | ConvertCurrency fromAmount fromCurrency toCurrency exchangeRate =>
      HandleConvertCurrency uuid_New time_Now a fromAmount fromCurrency toCurrency exchangeRate
  | TransferMoney targetAccountID debitAmount debitCurrency creditAmount creditCurrency rate =>
      HandleTransferMoney uuid_New time_Now a targetAccountID
        debitAmount debitCurrency creditAmount creditCurrency rate
  end.

(** Run the commands in order on the same aggregate; [None] as soon as
    one of them returns an error or panics. *)
Fixpoint run (a : Account) (cs : list (UUID * Time * Command)) : option Account :=
  match cs with
  | [] => Some a
  | (uuid_New, time_Now, c) :: cs =>
      match Handle uuid_New time_Now a c with
      | Returns (None, a) => run a cs
      | Returns (Some _, _) => None
      | Panics _ => None
      end
  end.

(** Every balance present is not negative. *)
Definition balances_nonneg (a : Account) : Prop :=
  forall currency amount,
    Balances a !! currency = Some amount -> IsNegative amount = false.



(** Every currency the aggregate holds a balance in is valid UTF-8. *)
Definition currencies_valid (a : Account) : Prop :=
  forall currency amount,
    Balances a !! currency = Some amount -> utf8.ValidString currency = true.

(** Every currency under which [ApplyEvent] stores a balance for the
    event is valid UTF-8. *)
Definition event_currencies_valid (event : Event) : Prop :=
  match event with
  | AccountCreatedEvent _ InitialBalances =>
      forall bal, bal ∈ InitialBalances -> utf8.ValidString (Currency_ bal) = true
  | DepositMadeEvent _ _ Currency => utf8.ValidString Currency = true
  | WithdrawalMadeEvent _ _ Currency => utf8.ValidString Currency = true
  | MoneyTransferredEvent _ _ _ _ _ DebitedCurrency _ _ _ =>
      utf8.ValidString DebitedCurrency = true
  | CurrencyConvertedEvent _ _ FromCurrency _ ToCurrency _ =>
      utf8.ValidString FromCurrency = true /\ utf8.ValidString ToCurrency = true
  | _ => True
  end.

(** The currencies a command can bring into an aggregate are valid
    UTF-8: the initial balances of a creation, the currency of a deposit, the
    target of a conversion. A withdrawal, a conversion and a transfer debit a
    currency only when it is held. *)
Definition command_currencies_valid (c : Command) : Prop :=
  match c with
  | CreateAccount _ initialBalances =>
      forall currency amount,
        initialBalances !! currency = Some amount -> utf8.ValidString currency = true
  | Deposit _ currency => utf8.ValidString currency = true
  | ConvertCurrency _ _ toCurrency _ => utf8.ValidString toCurrency = true
  | _ => True
  end.

(** What an event may add to a balance is not negative. *)
Definition credit_nonneg (event : Event) : Prop :=
  match event with
  | AccountCreatedEvent _ InitialBalances =>
      forall bal, bal ∈ InitialBalances -> IsNegative (Amount_ bal) = false
  | DepositMadeEvent _ Amount _ => IsNegative Amount = false
  | CurrencyConvertedEvent _ _ _ ToAmount _ _ => IsNegative ToAmount = false
  | _ => True
  end.

End commands.

Import commands.

(** ** Concurrent calls of [SaveEvents]

    Each call is a thread running [s.Lock()], the body, and the deferred
    [s.Unlock()]. The body is cut in two steps, the checks and the append,
    so that an interleaving between them is possible wherever the lock
    does not forbid it. *)

Module concurrent.

Record call := mkCall {
  aggregateID : string;
  expectedVersion : Z;
  newEvents : list Event
}.

Inductive pc :=
| AtLock
| AtChecks
| AtAppend
| AtUnlock (result : option error)
| Finished (result : option error).

Record state := mkState {
  shared_store : InMemoryEventStore;
  locked : bool;
  threads : list (call * pc)
}.

Definition initial (s : InMemoryEventStore) (calls : list call) : state :=
  mkState s false ((fun c => (c, AtLock)) <$> calls).

(** The checks of [SaveEvents], up to the append: the result to return,
    or [None] to go on. *)
Definition checks (s : InMemoryEventStore) (c : call) : option (option error) :=
  if GoInt.len (newEvents c) =? 0 then Some None
  else if negb (currentVersion s (aggregateID c) =? expectedVersion c)
  then Some (Some (Errorf_w "%w: expected version %d, but current version is %d for aggregate %s"
                     ErrOptimisticLock))
  else
    match check_batch (aggregateID c) (expectedVersion c) (newEvents c) with
    | Some err => Some (Some err)
    | None => None
    end.

Definition append (s : InMemoryEventStore) (c : call) : InMemoryEventStore :=
  let stream := default [] (streams s !! aggregateID c) in
  mkEventStore (<[aggregateID c := stream ++ newEvents c]> (streams s)).

(** One step of one thread. Only [s.Lock()] looks at the mutex: it is
    enabled when the mutex is free. *)
Inductive step : state -> state -> Prop :=
| step_lock s ts i c :
    ts !! i = Some (c, AtLock) ->
    step (mkState s false ts) (mkState s true (<[i := (c, AtChecks)]> ts))
| step_checks_return s l ts i c r :
    ts !! i = Some (c, AtChecks) ->
    checks s c = Some r ->
    step (mkState s l ts) (mkState s l (<[i := (c, AtUnlock r)]> ts))
| step_checks_pass s l ts i c :
    ts !! i = Some (c, AtChecks) ->
    checks s c = None ->
    step (mkState s l ts) (mkState s l (<[i := (c, AtAppend)]> ts))
| step_append s l ts i c :
    ts !! i = Some (c, AtAppend) ->
    step (mkState s l ts) (mkState (append s c) l (<[i := (c, AtUnlock None)]> ts))
| step_unlock s l ts i c r :
    ts !! i = Some (c, AtUnlock r) ->
    step (mkState s l ts) (mkState s false (<[i := (c, Finished r)]> ts)).

Inductive steps : state -> state -> Prop :=
| steps_refl st : steps st st
| steps_cons st1 st2 st3 : step st1 st2 -> steps st2 st3 -> steps st1 st3.

(** The result of thread [i] once it has finished. *)
Definition result_of (st : state) (i : nat) : option (option error) :=
  match threads st !! i with
  | Some (_, Finished r) => Some r
  | _ => None
  end.

Definition succeeded (r : option error) : bool :=
  match r with None => true | Some _ => false end.

Definition failed_OptimisticLock (r : option error) : bool :=
  match r with Some err => Is err ErrOptimisticLock | None => false end.

End concurrent.

(** ** The service over its two stores

    What a state of the service stands for, and the commands of the
    service as steps from one state to the next. *)

Module ledger.

(** Two optional amounts that are both absent, or both present and equal
    as numbers. *)
Definition same_amount (x y : option Decimal) : Prop :=
  match x, y with
  | Some x, Some y => Equal x y = true
  | None, None => True
  | _, _ => False
  end.

(** Two aggregates with the same id and version that hold the same
    currencies with equal amounts. *)
Definition same_state (a b : Account) : Prop :=
  ID a = ID b /\ domain.Version a = domain.Version b /\
  forall currency, same_amount (Balances a !! currency) (Balances b !! currency).

(** The stored stream of an aggregate, empty when there is none. *)
Definition stream_of (s : AccountService) (accountID : string) : list Event :=
  default [] (streams (eventStore s) !! accountID).

(** What [loadAccount] returns once it has applied the events: the
    account, not found at version 0, or the error of the replay. *)
Definition loaded (applied : option error * Account) : outcome Account :=
  match applied with
  | (Some err, _) =>
      Failed (Errorf_w "critical error applying events to account %s after snapshot/initial load: %w" err)
  | (None, account) =>
      if domain.Version account =? 0
      then Failed (Errorf_w "%w: %s" ErrAccountNotFound)
      else Returned account
  end.

(** The same event store with no snapshot at all. *)
Definition without_snapshots (s : AccountService) : AccountService :=
  mkAccountService (eventStore s) NewInMemorySnapshotStore.

(** Every stored snapshot that can be applied stands for a prefix of the
    stream of its aggregate: the account it decodes to is, up to the
    representation of the amounts, the replay of the first [Version] events
    of the stream. *)
Definition snapshots_faithful (s : AccountService) : Prop :=
  forall accountID snapshot account,
    snapshots (snapshotStore s) !! accountID = Some snapshot ->
    ApplySnapshot snapshot = (Some account, None) ->
    0 <= domain.Version account <= GoInt.len (stream_of s accountID) /\
    exists replayed,
      ApplyEvents (NewAccount accountID)
        (take (Z.to_nat (domain.Version account)) (stream_of s accountID)) = (None, replayed) /\
      same_state account replayed.

(** No stored event credits a negative amount. *)
Definition credits_nonneg (s : AccountService) : Prop :=
  forall accountID stream,
    streams (eventStore s) !! accountID = Some stream -> Forall credit_nonneg stream.

(** No stream is longer than [n]. *)
Definition streams_within (n : Z) (s : AccountService) : Prop :=
  forall accountID stream,
    streams (eventStore s) !! accountID = Some stream -> GoInt.len stream <= n.

Definition service_wf (n : Z) (s : AccountService) : Prop :=
  store_wf (eventStore s) /\ snapshots_faithful s /\ credits_nonneg s /\ streams_within n s.

(** Every stored snapshot is filed under the id it carries, and the
    aggregate of that id has stored events. *)
Definition snapshots_filed (s : AccountService) : Prop :=
  forall accountID snapshot,
    snapshots (snapshotStore s) !! accountID = Some snapshot ->
    SnapshotAggregateID snapshot = accountID /\ stream_of s accountID <> [].

(** What holds of the two stores whatever the currencies are called. *)
Definition stores_consistent (n : Z) (s : AccountService) : Prop :=
  store_wf (eventStore s) /\ snapshots_filed s /\ streams_within n s.

(** No stored event has [ApplyEvent] store a balance under a currency
    that is not valid UTF-8. *)
Definition stored_currencies_valid (s : AccountService) : Prop :=
  forall accountID stream,
    streams (eventStore s) !! accountID = Some stream -> Forall event_currencies_valid stream.

(** A service over two new stores. *)
Definition new_service : AccountService :=
  mkAccountService NewInMemoryEventStore NewInMemorySnapshotStore.

(** A call of a command of the service, with what the call draws from
    [uuid] and the clock. *)
Inductive request :=
| CreateAccountRequest (uuid_NewString : string) (uuid_New : UUID)
    (time_Now created_Now saved_Now : Time) (cmd : CreateAccountCommand)
| DepositRequest (uuid_New : UUID)
    (time_Now created_Now saved_Now : Time) (cmd : DepositMoneyCommand)
| WithdrawRequest (uuid_New : UUID)
    (time_Now created_Now saved_Now : Time) (cmd : WithdrawMoneyCommand)
| ConvertCurrencyRequest (uuid_New : UUID)
    (time_Now created_Now saved_Now : Time) (cmd : ConvertCurrencyCommand).

(** The currencies a call can bring into an account are valid UTF-8: the
    initial balances of a creation and the currency of a deposit. (A
    withdrawal succeeds only from a currency held, a conversion only from a
    currency held to a currency of the rate table.) *)
Definition request_currencies_valid (r : request) : bool :=
  match r with
  | CreateAccountRequest _ _ _ _ _ cmd =>
      forallb (fun kv => utf8.ValidString (fst kv)) (map_to_list (CreateInitialBalances cmd))
  | DepositRequest _ _ _ _ cmd => utf8.ValidString (DepositCurrency cmd)
  | _ => true
  end.

Section Serve.
Variable Div : Decimal -> Decimal -> Decimal.

(** The service after a call, whatever the call returned. A call that
    panics does so in the handler of the aggregate, before anything is
    saved: both stores are as they were. *)
Definition serve (s : AccountService) (r : request) : AccountService :=
  match r with
  | CreateAccountRequest uuid_NewString uuid_New time_Now created_Now saved_Now cmd =>
      snd (app.CreateAccount uuid_NewString uuid_New time_Now created_Now saved_Now s cmd)
  | DepositRequest uuid_New time_Now created_Now saved_Now cmd =>
      snd (app.Deposit uuid_New time_Now created_Now saved_Now s cmd)
  | WithdrawRequest uuid_New time_Now created_Now saved_Now cmd =>
      snd (app.Withdraw uuid_New time_Now created_Now saved_Now s cmd)
  | ConvertCurrencyRequest uuid_New time_Now created_Now saved_Now cmd =>
      snd (app.ConvertCurrency Div uuid_New time_Now created_Now saved_Now s cmd)
  end.

(** The service after a sequence of calls on new stores. *)
Definition serve_all (rs : list request) : AccountService :=
  foldl serve new_service rs.

End Serve.

End ledger.

Import ledger.

(** ** Scenarios

    The concrete states and events the properties are evaluated on. *)

Module scenarios.

(** The target half of [TestAccount_ApplyEvents] in account_test.go: an
    account created with 50 EUR, then the [MoneyTransferredEvent] of a
    transfer of 30 USD credited as 25 EUR to it. *)
Definition test_targetHistory : list Event :=
  [ AccountCreatedEvent
      (NewBaseEvent 1 0 "acc-other-target" 1 AccountCreatedType)
      [ mkBalance EUR (New 50 0) ];
    MoneyTransferredEvent
      (NewBaseEvent 2 0 "acc-other-target" 2 MoneyTransferredType)
      "tf-apply-123" "acc-apply" "acc-other-target"
      (New 30 0) USD (New 25 0) EUR (New 83333333 (-8)) ].

Definition acc1_v1 : Account :=
  {| ID := "acc-1"; Balances := {[ USD := New 2 0 ]}; Version := 1; changes := [] |}.

(** A deposit event of version 2 that names another aggregate. *)
Definition foreign_deposit : Event :=
  DepositMadeEvent (NewBaseEvent 7 0 "acc-2" 2 DepositMadeType) (New 5 0) USD.

Definition negative_deposit : Event :=
  DepositMadeEvent (NewBaseEvent 7 0 "acc-1" 2 DepositMadeType) (New (-5) 0) USD.

Definition negative_created : Event :=
  AccountCreatedEvent (NewBaseEvent 8 0 "acc-1" 2 AccountCreatedType)
    [ mkBalance EUR (New (-7) 0) ].

(** Seed scenarios of the specification, as one command sequence: create
    with 1000.50 USD and 500 EUR, deposit 200 USD, convert 100 USD to EUR at
    0.92, transfer 75 USD to another account, withdraw all remaining USD. *)
Definition seed_commands : list (UUID * Time * Command) :=
  [ (1%N, 10, CreateAccount "A" {[ USD := New 100050 (-2); EUR := New 500 0 ]});
    (2%N, 20, Deposit (New 200 0) USD);
    (3%N, 30, ConvertCurrency (New 100 0) USD EUR (New 92 (-2)));
    (4%N, 40, TransferMoney "B" (New 75 0) USD (New 75 0) USD (New 1 0));
    (5%N, 50, Withdraw (New 102550 (-2)) USD) ].

(** The source account of [TestAccount_HandleTransferMoney], after its
    creation event. *)
Definition acc_source : Account :=
  {| ID := "acc-source";
     Balances := {[ USD := New 200 0; GBP := New 100 0 ]};
     Version := 1;
     changes := [] |}.


(** Account B of the second seed scenario: 800 GBP at version 1. *)
Definition acc_B : Account :=
  {| ID := "B"; Balances := {[ GBP := New 800 0 ]}; Version := 1; changes := [] |}.

(** Account A of the third seed scenario: 1200.50 USD and 500 EUR at
    version 2. *)
Definition acc_A_v2 : Account :=
  {| ID := "A";
     Balances := {[ USD := New 120050 (-2); EUR := New 500 0 ]};
     Version := 2;
     changes := [] |}.

(** The third seed scenario: converting 100 USD to EUR at 0.92 on
    [acc_A_v2] succeeds, the version becomes 3, the balances are 1100.50 USD
    and 592 EUR, and the single event queued records a converted amount of
    92. *)
Definition seed_convert_outcome : Prop :=
  exists a' event usd eur,
    HandleConvertCurrency 3 30 acc_A_v2 (New 100 0) USD EUR (New 92 (-2)) = Returns (None, a') /\
    Version a' = 3 /\
    Balances a' = {[ USD := usd; EUR := eur ]} /\
    Equal usd (New 110050 (-2)) = true /\ String usd = "1100.5" /\
    Equal eur (New 592 0) = true /\ String eur = "592" /\
    changes a' = [event] /\
    match event with
    | CurrencyConvertedEvent _ FromAmount FromCurrency ToAmount ToCurrency ExchangeRate =>
        Equal ToAmount (New 92 0) = true /\ String ToAmount = "92" /\
        FromAmount = New 100 0 /\ FromCurrency = USD /\ ToCurrency = EUR /\
        ExchangeRate = New 92 (-2)
    | _ => False
    end.

(** An account holding 1 USD, and the least amount greater than zero with
    coefficient 1: ten to the power of the least [int32]. *)
Definition acc_one_USD : Account :=
  {| ID := "A"; Balances := {[ USD := New 1 0 ]}; Version := 1; changes := [] |}.

Definition smallest_amount : Decimal := New 1 (- 2 ^ 31).



(** An event store holding one stream, the creation event of "acc-1". *)
Definition created_v1 : Event :=
  AccountCreatedEvent (NewBaseEvent 1 0 "acc-1" 1 AccountCreatedType)
    [ mkBalance USD (New 2 0) ].

Definition store_acc1 : InMemoryEventStore :=
  mkEventStore {[ "acc-1" := [ created_v1 ] ]}.

(** A deposit event for "acc-1" of the given version. *)
Definition deposit_at (uuid_New : UUID) (version : Z) : Event :=
  DepositMadeEvent (NewBaseEvent uuid_New 0 "acc-1" version DepositMadeType) (New 1 0) USD.

(** A service whose event store holds two events of "acc-1" and whose
    snapshot store is empty. *)
Definition service_two_events : AccountService :=
  {| eventStore := mkEventStore {[ "acc-1" := [ created_v1; deposit_at 2 2 ] ]};
     snapshotStore := NewInMemorySnapshotStore |}.


(** The snapshot [CreateSnapshot] makes of [acc1_v1], and a service whose
    event store holds the two events of "acc-1" and whose snapshot store
    holds that snapshot, taken after the first event. *)
Definition snapshot_acc1_v1 : Snapshot :=
  {| SnapshotAggregateID := "acc-1";
     SnapshotVersion := 1;
     State := fst (json_Marshal acc1_v1);
     SnapshotTimestamp := 5 |}.

Definition service_with_snapshot : AccountService :=
  {| eventStore := mkEventStore {[ "acc-1" := [ created_v1; deposit_at 2 2 ] ]};
     snapshotStore := mkSnapshotStore {[ "acc-1" := snapshot_acc1_v1 ]} |}.

(** A stand-in for [Decimal.Div] where a scenario is evaluated; no
    scenario reaches the call. *)
Definition Div_unused (d d2 : Decimal) : Decimal := Zero.

(** The first seed scenario as calls of the service: account "A" is
    created with 1000.50 USD and 500 EUR, then 200 USD are deposited. *)
Definition seed_requests : list request :=
  [ CreateAccountRequest "generated-id" 1 10 11 12
      (mkCreateAccountCommand "A" {[ USD := New 100050 (-2); EUR := New 500 0 ]});
    DepositRequest 2 20 21 22 (mkDepositMoneyCommand "A" (New 200 0) USD) ].

(** An account at version 100, where a snapshot is due. *)
Definition acc1_v100 : Account :=
  {| ID := "acc-1"; Balances := {[ USD := New 250 (-2) ]}; Version := 100; changes := [] |}.

End scenarios.

Import scenarios.

Import concurrent.

(** * Properties *)

(** ** Go's [int] *)

Lemma wrap_in_range z : GoInt.in_range z -> GoInt.wrap z = z.
Proof.
  unfold GoInt.in_range, GoInt.MinInt, GoInt.MaxInt, GoInt.wrap. intros H.
  rewrite Z.mod_small; lia.
Qed.

Lemma wrap_range z : GoInt.in_range (GoInt.wrap z).
Proof.
  unfold GoInt.in_range, GoInt.MinInt, GoInt.MaxInt, GoInt.wrap.
  pose proof (Z.mod_pos_bound (z + 2 ^ 63) (2 ^ 64)). lia.
Qed.

Lemma add_1_neq x : GoInt.add x 1 <> x.
Proof.
  unfold GoInt.add, GoInt.wrap. intros H.
  assert (Hx : 0 <= x + 2 ^ 63 < 2 ^ 64).
  { pose proof (Z.mod_pos_bound (x + 1 + 2 ^ 63) (2 ^ 64)). lia. }
  assert (E : (x + 1 + 2 ^ 63) mod 2 ^ 64 = x + 2 ^ 63) by lia.
  destruct (Z.eq_dec (x + 2 ^ 63) (2 ^ 64 - 1)) as [e|n].
  - replace (x + 1 + 2 ^ 63) with (2 ^ 64) in E by lia.
    rewrite Z.mod_same in E; lia.
  - rewrite Z.mod_small in E; lia.
Qed.

(** ** Decimal arithmetic *)

Lemma pow10_pos k : 0 < 10 ^ k \/ 10 ^ k = 0.
Proof. destruct (Z.le_gt_cases 0 k); [left; apply Z.pow_pos_nonneg; lia | right; apply Z.pow_neg_r; lia]. Qed.

Lemma RescalePair_spec d1 d2 :
  let m := Z.min (exp d1) (exp d2) in
  RescalePair d1 d2 =
    (mkDecimal (value d1 * 10 ^ (exp d1 - m)) m,
     mkDecimal (value d2 * 10 ^ (exp d2 - m)) m).
Proof.
  destruct d1 as [v1 e1], d2 as [v2 e2]; cbn [exp value].
  unfold RescalePair, rescale; cbn [exp value].
  destruct (Z.ltb_spec e1 e2) as [H|H].
  - rewrite Z.min_l by lia. rewrite Z.sub_diag, Z.pow_0_r, Z.mul_1_r.
    destruct (Z.eqb_spec e2 e1); [lia|].
    destruct (Z.ltb_spec e2 e1); [lia|].
    rewrite Z.abs_neq by lia. rewrite Z.opp_sub_distr, Z.add_comm, Z.add_opp_r. reflexivity.
  - destruct (Z.ltb_spec e2 e1) as [H'|H'].
    + rewrite Z.min_r by lia. rewrite Z.sub_diag, Z.pow_0_r, Z.mul_1_r.
      destruct (Z.eqb_spec e1 e2); [lia|].
      destruct (Z.ltb_spec e1 e2); [lia|].
      rewrite Z.abs_neq by lia. rewrite Z.opp_sub_distr, Z.add_comm, Z.add_opp_r. reflexivity.
    + assert (e1 = e2) by lia. subst. rewrite Z.min_id, Z.sub_diag, Z.pow_0_r, !Z.mul_1_r.
      reflexivity.
Qed.

Lemma Add_spec d1 d2 :
  let m := Z.min (exp d1) (exp d2) in
  Add d1 d2 = mkDecimal (value d1 * 10 ^ (exp d1 - m) + value d2 * 10 ^ (exp d2 - m)) m.
Proof. unfold Add. rewrite RescalePair_spec. reflexivity. Qed.

Lemma Sub_spec d1 d2 :
  let m := Z.min (exp d1) (exp d2) in
  Sub d1 d2 = mkDecimal (value d1 * 10 ^ (exp d1 - m) - value d2 * 10 ^ (exp d2 - m)) m.
Proof. unfold Sub. rewrite RescalePair_spec. reflexivity. Qed.

Lemma Cmp_spec d1 d2 :
  let m := Z.min (exp d1) (exp d2) in
  Cmp d1 d2 = (value d1 * 10 ^ (exp d1 - m) ?= value d2 * 10 ^ (exp d2 - m)).
Proof. unfold Cmp. rewrite RescalePair_spec. reflexivity. Qed.

Lemma IsNegative_value d : IsNegative d = (value d <? 0).
Proof.
  unfold IsNegative, Sign. destruct (value d); reflexivity.
Qed.

Lemma IsPositive_value d : IsPositive d = (0 <? value d).
Proof.
  unfold IsPositive, Sign. destruct (value d); reflexivity.
Qed.

Lemma Sub_nonneg_of_GreaterThanOrEqual a b :
  GreaterThanOrEqual a b = true -> IsNegative (Sub a b) = false.
Proof.
  unfold GreaterThanOrEqual. rewrite Cmp_spec, Sub_spec, IsNegative_value. cbn [value].
  intros H. apply Z.ltb_ge.
  destruct (Z.compare_spec (value a * 10 ^ (exp a - Z.min (exp a) (exp b)))
                           (value b * 10 ^ (exp b - Z.min (exp a) (exp b)))); [lia|discriminate|lia].
Qed.

Lemma GreaterThanOrEqual_of_Sub_nonneg a b :
  IsNegative (Sub a b) = false -> GreaterThanOrEqual a b = true.
Proof.
  unfold GreaterThanOrEqual. rewrite Cmp_spec, Sub_spec, IsNegative_value. cbn [value].
  intros H. apply Z.ltb_ge in H.
  destruct (Z.compare_spec (value a * 10 ^ (exp a - Z.min (exp a) (exp b)))
                           (value b * 10 ^ (exp b - Z.min (exp a) (exp b)))); [reflexivity|lia|reflexivity].
Qed.

Lemma Add_nonneg a b :
  IsNegative a = false -> IsNegative b = false -> IsNegative (Add a b) = false.
Proof.
  rewrite Add_spec, !IsNegative_value. cbn [value]. intros Ha Hb.
  apply Z.ltb_ge in Ha, Hb. apply Z.ltb_ge.
  assert (0 <= 10 ^ (exp a - Z.min (exp a) (exp b))) by (apply Z.pow_nonneg; lia).
  assert (0 <= 10 ^ (exp b - Z.min (exp a) (exp b))) by (apply Z.pow_nonneg; lia).
  nia.
Qed.

Lemma IsPositive_not_negative a : IsPositive a = true -> IsNegative a = false.
Proof. rewrite IsPositive_value, IsNegative_value. lia. Qed.

Lemma Mul_Returns a b :
  - 2 ^ 31 <= exp a + exp b <= 2 ^ 31 - 1 ->
  Mul a b = Returns (mkDecimal (value a * value b) (exp a + exp b)).
Proof.
  intros H. unfold Mul.
  destruct (Z.ltb_spec (2 ^ 31 - 1) (exp a + exp b)); [lia|].
  destruct (Z.ltb_spec (exp a + exp b) (- 2 ^ 31)); [lia|]. reflexivity.
Qed.

Lemma Mul_Panics a b :
  exp a + exp b < - 2 ^ 31 \/ 2 ^ 31 - 1 < exp a + exp b ->
  exists reason, Mul a b = Panics reason.
Proof.
  intros H. unfold Mul.
  destruct (Z.ltb_spec (2 ^ 31 - 1) (exp a + exp b)); [eexists; reflexivity|].
  destruct (Z.ltb_spec (exp a + exp b) (- 2 ^ 31)); [eexists; reflexivity|lia].
Qed.

Lemma Mul_product a b product :
  Mul a b = Returns product ->
  product = mkDecimal (value a * value b) (exp a + exp b) /\
  - 2 ^ 31 <= exp a + exp b <= 2 ^ 31 - 1.
Proof.
  unfold Mul.
  destruct (Z.ltb_spec (2 ^ 31 - 1) (exp a + exp b)); [discriminate|].
  destruct (Z.ltb_spec (exp a + exp b) (- 2 ^ 31)); [discriminate|].
  intros [= <-]. split; [reflexivity|lia].
Qed.

Lemma Mul_positive a b product :
  Mul a b = Returns product ->
  IsPositive a = true -> IsPositive b = true -> IsPositive product = true.
Proof.
  intros H. apply Mul_product in H as [-> _].
  rewrite !IsPositive_value. cbn [value]. intros. apply Z.ltb_lt. nia.
Qed.

Lemma Zero_not_negative : IsNegative Zero = false.
Proof. reflexivity. Qed.

(** *** The number denoted *)

Lemma ten_neq_0 : ~ (10 # 1 == 0)%Q.
Proof. discriminate. Qed.

Lemma ten_pos : (0 < 10 # 1)%Q.
Proof. reflexivity. Qed.

Lemma toQ_scaled v e m :
  m <= e ->
  (inject_Z (v * 10 ^ (e - m)) * (10 # 1) ^ m == inject_Z v * (10 # 1) ^ e)%Q.
Proof.
  intros H. rewrite inject_Z_mult, Zpower_Qpower by lia.
  change (inject_Z 10) with (10 # 1).
  rewrite <- Qmult_assoc, <- Qpower_plus by apply ten_neq_0.
  replace (e - m + m) with e by lia. reflexivity.
Qed.

Lemma toQ_Add a b : (toQ (Add a b) == toQ a + toQ b)%Q.
Proof.
  rewrite Add_spec. unfold toQ; cbn [value exp].
  rewrite inject_Z_plus, Qmult_plus_distr_l, !toQ_scaled by lia. reflexivity.
Qed.

Lemma inject_Z_sub_mul x y (p : Q) :
  (inject_Z (x - y) * p == inject_Z x * p - inject_Z y * p)%Q.
Proof. unfold Z.sub. rewrite inject_Z_plus, inject_Z_opp. ring. Qed.

Lemma toQ_Sub a b : (toQ (Sub a b) == toQ a - toQ b)%Q.
Proof.
  rewrite Sub_spec. unfold toQ; cbn [value exp].
  rewrite inject_Z_sub_mul, !toQ_scaled by lia. reflexivity.
Qed.

Lemma toQ_Mul a b product :
  Mul a b = Returns product -> (toQ product == toQ a * toQ b)%Q.
Proof.
  intros H. apply Mul_product in H as [-> _].
  unfold toQ; cbn [value exp].
  rewrite inject_Z_mult, Qpower_plus by apply ten_neq_0. ring.
Qed.

Lemma Cmp_toQ a b : Cmp a b = (toQ a ?= toQ b)%Q.
Proof.
  rewrite Cmp_spec. unfold toQ.
  set (m := Z.min (exp a) (exp b)).
  rewrite <- (toQ_scaled (value a) (exp a) m), <- (toQ_scaled (value b) (exp b) m) by lia.
  set (A := value a * 10 ^ (exp a - m)). set (B := value b * 10 ^ (exp b - m)).
  assert (Hp : (0 < (10 # 1) ^ m)%Q) by (apply Qpower_0_lt, ten_pos).
  destruct (Z.compare_spec A B) as [E|L|G]; symmetry.
  - subst. apply Qeq_alt. rewrite E. reflexivity.
  - apply Qlt_alt, Qmult_lt_compat_r; [exact Hp|]. rewrite <- Zlt_Qlt. exact L.
  - apply Qgt_alt, Qmult_lt_compat_r; [exact Hp|]. rewrite <- Zlt_Qlt. exact G.
Qed.

Lemma Equal_toQ a b : Equal a b = true <-> (toQ a == toQ b)%Q.
Proof.
  unfold Equal. rewrite Cmp_toQ, Qeq_alt.
  destruct (toQ a ?= toQ b)%Q; split; congruence.
Qed.

Lemma GreaterThanOrEqual_toQ a b : GreaterThanOrEqual a b = true <-> (toQ b <= toQ a)%Q.
Proof.
  unfold GreaterThanOrEqual. rewrite Cmp_toQ, Qge_alt.
  destruct (toQ a ?= toQ b)%Q; split; congruence.
Qed.

Lemma IsNegative_toQ a : IsNegative a = true <-> (toQ a < 0)%Q.
Proof.
  rewrite IsNegative_value. unfold toQ.
  assert (Hp : (0 < (10 # 1) ^ exp a)%Q) by (apply Qpower_0_lt, ten_pos).
  rewrite Z.ltb_lt, Zlt_Qlt.
  rewrite <- (Qmult_lt_r _ _ _ Hp). rewrite Qmult_0_l. reflexivity.
Qed.

Lemma IsPositive_toQ a : IsPositive a = true <-> (0 < toQ a)%Q.
Proof.
  rewrite IsPositive_value. unfold toQ.
  assert (Hp : (0 < (10 # 1) ^ exp a)%Q) by (apply Qpower_0_lt, ten_pos).
  rewrite Z.ltb_lt, Zlt_Qlt.
  rewrite <- (Qmult_lt_r _ _ _ Hp). rewrite Qmult_0_l. reflexivity.
Qed.

Lemma not_IsNegative_toQ a : IsNegative a = false <-> (0 <= toQ a)%Q.
Proof.
  split; intros H.
  - apply Qnot_lt_le. intros L. apply IsNegative_toQ in L. congruence.
  - destruct (IsNegative a) eqn:E; [|reflexivity].
    apply IsNegative_toQ in E. exfalso. revert E. apply Qle_not_lt, H.
Qed.

(** ** The event applicator *)

Lemma Account_eta (a : Account) :
  {| ID := ID a; Balances := Balances a; Version := Version a; changes := changes a |} = a.
Proof. destruct a; reflexivity. Qed.

Lemma ApplyEvent_version_mismatch a event :
  events.Version (GetBase event) <> GoInt.add (Version a) 1 ->
  ApplyEvent a event =
    (Some (Errorf "apply failed: event version mismatch for account %s: expected %d, got %d for event %T (%s)"), a).
Proof.
  intros H. unfold ApplyEvent.
  destruct (Z.eqb_spec (events.Version (GetBase event)) (GoInt.add (Version a) 1)); [contradiction|].
  reflexivity.
Qed.

(** Whatever the error, a failed [ApplyEvent] leaves the receiver alone. *)
Lemma ApplyEvent_error_unchanged a event err a' :
  ApplyEvent a event = (Some err, a') -> a' = a.
Proof.
  unfold ApplyEvent.
  destruct (events.Version (GetBase event) =? GoInt.add (Version a) 1); cbn [negb].
  - destruct event; cbn; repeat case_match; intros [= <- <-] || intros [=]; reflexivity.
  - intros [= <- <-]; reflexivity.
Qed.

Lemma ApplyEvent_success a event a' :
  ApplyEvent a event = (None, a') ->
  events.Version (GetBase event) = GoInt.add (Version a) 1 /\
  Version a' = events.Version (GetBase event) /\
  changes a' = changes a /\
  ID a' = match event with AccountCreatedEvent b _ => AggregateID b | _ => ID a end.
Proof.
  unfold ApplyEvent.
  destruct (Z.eqb_spec (events.Version (GetBase event)) (GoInt.add (Version a) 1)) as [E|E];
    cbn [negb]; [|intros [=]].
  destruct event; cbn; repeat case_match; intros [= <-] || intros [=]; cbn; auto.
Qed.

(** X3. [ApplyEvent] on an in-sequence [MoneyTransferredEvent]: the
    debited currency is debited by the debited amount, or the event is
    refused as an invariant violation, without mutation, when that would go
    below zero; nothing else changes and neither account id of the event is
    read. *)
Lemma ApplyEvent_MoneyTransferred a b tid src tgt damt dcur camt ccur rate :
  events.Version b = GoInt.add (Version a) 1 ->
  ApplyEvent a (MoneyTransferredEvent b tid src tgt damt dcur camt ccur rate) =
    if IsNegative (Sub (getBalance a dcur) damt)
    then (Some (Errorf "invariant violation: negative balance applying debit of %T (v%d)"), a)
    else (None, {| ID := ID a;
                   Balances := <[dcur := Sub (getBalance a dcur) damt]> (Balances a);
                   Version := events.Version b;
                   changes := changes a |}).
Proof.
  intros H. unfold ApplyEvent; cbn [GetBase]. rewrite H, Z.eqb_refl; cbn [negb].
  reflexivity.
Qed.

(** C1 (evaluation at the failing input). Replaying the target history of
    the repository's own test does not credit 25 EUR: the second event is
    refused as an invariant violation, because [ApplyEvent] debits the 30 USD
    from the target, which holds none; the account stays at version 1 with its
    50 EUR. *)
Theorem ApplyEvents_target_history_not_credited :
  ApplyEvents (NewAccount "acc-other-target") test_targetHistory =
    (Some (Errorf_w "failed to apply event %s (%T) at version %d during reconstruction: %w"
             (Errorf "invariant violation: negative balance applying debit of %T (v%d)")),
     {| ID := "acc-other-target";
        Balances := {[ EUR := New 50 0 ]};
        Version := 1;
        changes := [] |}).
Proof. vm_compute. reflexivity. Qed.

(** When the target does hold the debited currency, the transfer it
    receives is taken from it instead of added: 50 USD and an incoming 20 USD
    leave 30 USD. *)
Lemma ApplyEvent_target_is_debited :
  let target := {| ID := "acc-target"; Balances := {[ USD := New 50 0 ]};
                   Version := 1; changes := [] |} in
  let event := MoneyTransferredEvent
      (NewBaseEvent 2 0 "acc-target" 2 MoneyTransferredType)
      "transfer-456" "acc-source" "acc-target"
      (New 20 0) USD (New 20 0) USD (New 1 0) in
  fst (ApplyEvent target event) = None /\
  Balances (snd (ApplyEvent target event)) !! USD = Some (New 30 0).
Proof. vm_compute. split; reflexivity. Qed.

(** C4 (counterexample). An account with id "acc-1" at version 1 accepts
    a deposit event that names the aggregate "acc-2": the event's
    aggregateId is inconsistent with the aggregate's id, yet [ApplyEvent]
    succeeds, and the id of the aggregate differs from the aggregateId of an
    event applied to it. *)
Lemma ApplyEvent_accepts_foreign_aggregateId :
  AggregateID (GetBase foreign_deposit) <> ID acc1_v1 /\
  fst (ApplyEvent acc1_v1 foreign_deposit) = None /\
  ID (snd (ApplyEvent acc1_v1 foreign_deposit)) <> AggregateID (GetBase foreign_deposit).
Proof. vm_compute. repeat split; discriminate. Qed.

(** C4 (as amended). [ApplyEvent] succeeds only when the event's version
    is the aggregate's version + 1 (Go's [int] addition); the event's
    aggregateId is not compared with the aggregate's id. An event with any
    other version is refused with the version-mismatch error, and a refused
    event, whatever the reason, leaves id, balances, version and pending
    changes as they were. On success the aggregate's version is the event's
    version, and the id is the aggregateId of the event when that is an
    [AccountCreatedEvent] and unchanged otherwise. *)
Theorem ApplyEvent_version_check (a : Account) (event : Event) :
  (fst (ApplyEvent a event) = None ->
     events.Version (GetBase event) = GoInt.add (Version a) 1) /\
  (events.Version (GetBase event) <> GoInt.add (Version a) 1 ->
     ApplyEvent a event =
       (Some (Errorf "apply failed: event version mismatch for account %s: expected %d, got %d for event %T (%s)"), a)) /\
  (forall err, fst (ApplyEvent a event) = Some err -> snd (ApplyEvent a event) = a) /\
  (fst (ApplyEvent a event) = None ->
     Version (snd (ApplyEvent a event)) = events.Version (GetBase event) /\
     ID (snd (ApplyEvent a event)) =
       match event with AccountCreatedEvent b _ => AggregateID b | _ => ID a end).
Proof.
  destruct (ApplyEvent a event) as [[err|] a'] eqn:E; cbn [fst snd].
  - split; [discriminate|]. split; [|split; [|discriminate]].
    + intros H. rewrite (ApplyEvent_version_mismatch _ _ H) in E. exact (eq_sym E).
    + intros _ _. exact (ApplyEvent_error_unchanged _ _ _ _ E).
  - destruct (ApplyEvent_success _ _ _ E) as (Hv & Hv' & _ & Hid).
    split; [auto|]. split; [intros H; contradiction|]. split; [discriminate|auto].
Qed.

(** ** Credits are applied unchecked *)

Lemma install_balances_snoc l bal :
  install_balances (l ++ [bal]) = <[Currency_ bal := Amount_ bal]> (install_balances l).
Proof. unfold install_balances. rewrite foldl_app. reflexivity. Qed.

Lemma install_balances_lookup l bal :
  NoDup (Currency_ <$> l) -> bal ∈ l ->
  install_balances l !! Currency_ bal = Some (Amount_ bal).
Proof.
  induction l as [|x l IH] using rev_ind; intros Hnd Hin.
  - inversion Hin.
  - rewrite install_balances_snoc. rewrite fmap_app in Hnd.
    apply NoDup_app in Hnd as (Hl & Hdis & _).
    apply elem_of_app in Hin as [Hin|Hin].
    + rewrite lookup_insert_ne; [apply IH; assumption|].
      intros Heq. apply (Hdis (Currency_ bal)).
      * apply list_elem_of_fmap. exists bal. split; [reflexivity|assumption].
      * rewrite <- Heq. cbn. apply list_elem_of_singleton. reflexivity.
    + apply list_elem_of_singleton in Hin. subst. apply lookup_insert_eq.
Qed.

(** C10. An in-sequence [DepositMadeEvent] is applied whatever the sign
    of its amount: the balance of its currency becomes the old balance plus
    the amount. An in-sequence [AccountCreatedEvent] installs its initial
    balances as they are: the balances become exactly those written by the
    event, each entry under its currency (currencies being unique), without
    any check of the amounts. *)
Theorem ApplyEvent_credits_unchecked (a : Account) (b b' : BaseEvent)
    (amount : Decimal) (currency : Currency) (InitialBalances : list Balance)
    (Hseq : events.Version b = GoInt.add (Version a) 1)
    (Hseq' : events.Version b' = GoInt.add (Version a) 1) :
  ApplyEvent a (DepositMadeEvent b amount currency) =
    (None, {| ID := ID a;
              Balances := <[currency := Add (getBalance a currency) amount]> (Balances a);
              Version := events.Version b;
              changes := changes a |}) /\
  ApplyEvent a (AccountCreatedEvent b' InitialBalances) =
    (None, {| ID := AggregateID b';
              Balances := install_balances InitialBalances;
              Version := events.Version b';
              changes := changes a |}) /\
  (NoDup (Currency_ <$> InitialBalances) ->
   forall bal, bal ∈ InitialBalances ->
     install_balances InitialBalances !! Currency_ bal = Some (Amount_ bal)).
Proof.
  unfold ApplyEvent; cbn [GetBase]. rewrite Hseq, Hseq', Z.eqb_refl; cbn [negb].
  split; [reflexivity|]. split; [reflexivity|].
  intros Hnd bal Hin. apply install_balances_lookup; assumption.
Qed.

(** C10 (witness). Depositing -5 USD into an account holding 2 USD leaves
    a negative balance, -3 USD; creating an account from an event with
    -7 EUR installs -7 EUR. *)
Lemma ApplyEvent_credits_unchecked_witness :
  (fst (ApplyEvent acc1_v1 negative_deposit) = None /\
   Balances (snd (ApplyEvent acc1_v1 negative_deposit)) !! USD = Some (New (-3) 0)) /\
  (fst (ApplyEvent acc1_v1 negative_created) = None /\
   Balances (snd (ApplyEvent acc1_v1 negative_created)) !! EUR = Some (New (-7) 0)).
Proof.
  destruct (ApplyEvent_credits_unchecked acc1_v1
              (NewBaseEvent 7 0 "acc-1" 2 DepositMadeType)
              (NewBaseEvent 8 0 "acc-1" 2 AccountCreatedType)
              (New (-5) 0) USD [mkBalance EUR (New (-7) 0)] eq_refl eq_refl)
    as (Hd & Hc & Hl).
  split.
  - unfold negative_deposit. rewrite Hd. split; reflexivity.
  - unfold negative_created. rewrite Hc. split; [reflexivity|].
    apply (Hl ltac:(repeat constructor; set_solver) (mkBalance EUR (New (-7) 0))).
    set_solver.
Defined.

(** ** The command handlers *)

Lemma Money_compare_same x y c :
  Money_GreaterThanOrEqual (NewMoney x c) (NewMoney y c) = (GreaterThanOrEqual x y, None).
Proof.
  unfold Money_GreaterThanOrEqual, NewMoney; cbn. rewrite String.eqb_refl. reflexivity.
Qed.


Lemma handleChange_success a event a' :
  handleChange a event = (None, a') ->
  exists a0, ApplyEvent a event = (None, a0) /\
             a' = set_changes a0 (changes a ++ [event]).
Proof.
  unfold handleChange. destruct (ApplyEvent a event) as [[e|] a0] eqn:E; [intros [=]|].
  intros [= <-]. exists a0. split; [reflexivity|].
  destruct (ApplyEvent_success _ _ _ E) as (_ & _ & Hc & _). rewrite Hc. reflexivity.
Qed.


Lemma install_balances_elem l currency amount :
  install_balances l !! currency = Some amount -> mkBalance currency amount ∈ l.
Proof.
  induction l as [|x l IH] using rev_ind.
  - unfold install_balances; cbn. rewrite lookup_empty. discriminate.
  - rewrite install_balances_snoc. intros H. apply elem_of_app.
    destruct (decide (Currency_ x = currency)) as [<-|Hne].
    + rewrite lookup_insert_eq in H. injection H as <-. right.
      destruct x; apply list_elem_of_singleton; reflexivity.
    + rewrite lookup_insert_ne in H by assumption. left; auto.
Qed.

Lemma getBalance_nonneg a currency :
  balances_nonneg a -> IsNegative (getBalance a currency) = false.
Proof.
  intros H. unfold getBalance. destruct (Balances a !! currency) eqn:E; [eauto|reflexivity].
Qed.

Lemma balances_nonneg_insert a currency amount :
  balances_nonneg a -> IsNegative amount = false ->
  balances_nonneg (store_balance a currency amount).
Proof.
  intros Ha Hv c v. unfold store_balance; cbn.
  destruct (decide (currency = c)) as [<-|Hne].
  - rewrite lookup_insert_eq. intros [= <-]. assumption.
  - rewrite lookup_insert_ne by assumption. apply Ha.
Qed.

Lemma balances_nonneg_set_Version a v :
  balances_nonneg a -> balances_nonneg (set_Version a v).
Proof. intros H; exact H. Qed.

Lemma ApplyEvent_preserves_nonneg a event a' :
  balances_nonneg a -> credit_nonneg event ->
  ApplyEvent a event = (None, a') -> balances_nonneg a'.
Proof.
  intros Ha He. unfold ApplyEvent.
  destruct (events.Version (GetBase event) =? GoInt.add (Version a) 1); cbn [negb];
    [|intros [=]].
  destruct event; cbn in He |- *.
  - intros [= <-]. intros c v; cbn. intros H.
    apply install_balances_elem in H. apply He in H. exact H.
  - intros [= <-]. apply balances_nonneg_set_Version, balances_nonneg_insert; [assumption|].
    apply Add_nonneg; [apply getBalance_nonneg; assumption|assumption].
  - destruct (IsNegative (Sub (getBalance a Currency) Amount)) eqn:E; intros [= <-].
    apply balances_nonneg_set_Version, balances_nonneg_insert; assumption.
  - destruct (IsNegative (Sub (getBalance a DebitedCurrency) DebitedAmount)) eqn:E; intros [= <-].
    apply balances_nonneg_set_Version, balances_nonneg_insert; assumption.
  - destruct (IsNegative (Sub (getBalance a FromCurrency) FromAmount)) eqn:E; intros [= <-].
    assert (Hd : balances_nonneg (store_balance a FromCurrency (Sub (getBalance a FromCurrency) FromAmount)))
      by (apply balances_nonneg_insert; assumption).
    apply balances_nonneg_set_Version, balances_nonneg_insert; [assumption|].
    apply Add_nonneg; [apply getBalance_nonneg; assumption|assumption].
  - intros [=].
  - intros [=].
Qed.

Lemma existsb_negative_false (m : gmap Currency Decimal) bal :
  existsb (fun kv => IsNegative (snd kv)) (map_to_list m) = false ->
  bal ∈ balanceEntries m -> IsNegative (Amount_ bal) = false.
Proof.
  intros H Hin. unfold balanceEntries in Hin.
  apply list_elem_of_fmap in Hin as ([c v] & -> & Hin). cbn.
  destruct (IsNegative v) eqn:E; [|reflexivity].
  assert (existsb (fun kv => IsNegative (snd kv)) (map_to_list m) = true); [|congruence].
  apply existsb_exists. exists (c, v). split; [|exact E].
  apply list_elem_of_In. exact Hin.
Qed.

(** A handler that succeeds has applied exactly one event, whose version
    is the next one and whose credit is not negative, and has queued it. *)
Lemma Handle_emits uuid_New time_Now a c a' :
  Handle uuid_New time_Now a c = Returns (None, a') ->
  exists event a0,
    ApplyEvent a event = (None, a0) /\
    a' = set_changes a0 (changes a ++ [event]) /\
    credit_nonneg event.
Proof.
  destruct c; cbn [Handle];
    unfold HandleCreateAccount, HandleDeposit, HandleWithdraw, HandleConvertCurrency,
      HandleTransferMoney;
    rewrite ?Money_compare_same;
    repeat case_match; try (intros [=]; fail);
    intros [= Hh]; apply handleChange_success in Hh as (applied & Happ & ->);
    eexists _, applied; (split; [exact Happ|]); (split; [reflexivity|]); cbn; try exact I.
  - intros bal Hin. eapply existsb_negative_false; eassumption.
  - apply IsPositive_not_negative. apply negb_false_iff. assumption.
  - eapply IsPositive_not_negative, Mul_positive; [eassumption|..]; apply negb_false_iff; assumption.
Qed.

Lemma Handle_preserves_nonneg uuid_New time_Now a c a' :
  balances_nonneg a ->
  Handle uuid_New time_Now a c = Returns (None, a') -> balances_nonneg a'.
Proof.
  intros Ha H. apply Handle_emits in H as (event & a0 & Happ & -> & Hc).
  exact (ApplyEvent_preserves_nonneg _ _ _ Ha Hc Happ).
Qed.

Lemma run_preserves_nonneg cs : forall a a',
  balances_nonneg a -> run a cs = Some a' -> balances_nonneg a'.
Proof.
  induction cs as [|[[u t] c] cs IH]; intros a a' Ha; cbn [run].
  - intros [= <-]. exact Ha.
  - destruct (Handle u t a c) as [[[err|] a1]|reason] eqn:E; [intros [=]| |intros [=]].
    apply IH. exact (Handle_preserves_nonneg _ _ _ _ _ Ha E).
Qed.

Lemma NewAccount_nonneg id : balances_nonneg (NewAccount id).
Proof. intros c v. cbn. rewrite lookup_empty. discriminate. Qed.

(** C2. Starting from a new aggregate, whatever sequence of create,
    deposit, withdraw, convert and transfer commands is handled without an
    error, no balance of the resulting aggregate is negative. *)
Theorem commands_keep_balances_nonneg (id : string) (cs : list (UUID * Time * Command))
    (a' : Account) (Hrun : run (NewAccount id) cs = Some a') :
  forall currency amount,
    Balances a' !! currency = Some amount ->
    IsNegative amount = false /\ (0 <= toQ amount)%Q.
Proof.
  intros currency amount H.
  pose proof (run_preserves_nonneg cs _ _ (NewAccount_nonneg id) Hrun currency amount H) as Hn.
  split; [exact Hn|]. apply not_IsNegative_toQ. exact Hn.
Qed.

(** C2 (witness). The seed command sequence runs without an error and
    ends with 0 USD and 592 EUR, neither of them negative. *)
Lemma commands_keep_balances_nonneg_witness :
  exists a',
    run (NewAccount "A") seed_commands = Some a' /\
    Balances a' = {[ USD := New 0 (-2); EUR := New 59200 (-2) ]} /\
    forall currency amount,
      Balances a' !! currency = Some amount ->
      IsNegative amount = false /\ (0 <= toQ amount)%Q.
Proof.
  eexists. split; [vm_compute; reflexivity|]. split; [vm_compute; reflexivity|].
  apply (commands_keep_balances_nonneg "A" seed_commands). vm_compute. reflexivity.
Defined.

(** ** Failed commands *)







(** ** Currency conversion *)

Lemma getBalance_store_other a c c' v :
  c <> c' -> getBalance (store_balance a c v) c' = getBalance a c'.
Proof.
  intros H. unfold getBalance, store_balance; cbn. rewrite lookup_insert_ne by assumption.
  reflexivity.
Qed.

Lemma seed_convert_holds : seed_convert_outcome.
Proof.
  unfold seed_convert_outcome. do 4 eexists.
  split; [vm_compute; reflexivity|].
  split; [reflexivity|]. split; [vm_compute; reflexivity|].
  repeat split; vm_compute; reflexivity.
Qed.

(** The least amount is at most 1, shown without writing the power out. *)
Lemma smallest_amount_le_one : (toQ smallest_amount <= toQ (New 1 0))%Q.
Proof.
  unfold toQ, smallest_amount, New; cbn [value exp].
  rewrite Qpower_opp. change (inject_Z 1) with 1%Q. rewrite !Qmult_1_l.
  change ((10 # 1) ^ 0)%Q with 1%Q.
  apply Qle_shift_inv_r.
  - apply Qpower_0_lt. reflexivity.
  - rewrite Qmult_1_l. apply Qpower_1_le; [discriminate|]. apply Z.pow_nonneg. lia.
Qed.

(** After its checks, [HandleConvertCurrency] multiplies and emits. *)
Lemma HandleConvertCurrency_checked uuid_New time_Now a fromAmount fromCurrency toCurrency
    exchangeRate :
  ID a <> "" -> Version a <> 0 ->
  IsPositive fromAmount = true ->
  fromCurrency <> toCurrency ->
  IsPositive exchangeRate = true ->
  GreaterThanOrEqual (getBalance a fromCurrency) fromAmount = true ->
  HandleConvertCurrency uuid_New time_Now a fromAmount fromCurrency toCurrency exchangeRate =
    match Mul fromAmount exchangeRate with
    | Panics reason => Panics reason
    | Returns toAmount =>
        Returns (handleChange a
          (CurrencyConvertedEvent
             (NewBaseEvent uuid_New time_Now (ID a) (GoInt.add (Version a) 1)
                CurrencyConvertedType)
             fromAmount fromCurrency toAmount toCurrency exchangeRate))
    end.
Proof.
  intros Hid Hver Hamount Hcurrencies Hrate Hfunds. unfold HandleConvertCurrency.
  apply String.eqb_neq in Hid. apply Z.eqb_neq in Hver. rewrite Hid, Hver; cbn [orb].
  rewrite Hamount; cbn [negb].
  apply String.eqb_neq in Hcurrencies. rewrite Hcurrencies.
  rewrite Hrate; cbn [negb].
  rewrite Money_compare_same, Hfunds; cbn [negb]. reflexivity.
Qed.

(** C6 (as amended). On a created account holding at least [fromAmount]
    of [fromCurrency], with [fromAmount > 0], distinct currencies and a
    positive rate: when the sum of the exponents of [fromAmount] and
    [exchangeRate] fits the [int32] the decimal library keeps, the product
    [fromAmount * exchangeRate] is computed, [HandleConvertCurrency] succeeds
    and queues one [CurrencyConvertedEvent] whose [ToAmount] is that product,
    exact as a rational number; the aggregate afterwards has [fromCurrency]
    debited by [fromAmount] and [toCurrency] credited by the product (both
    exact), every other balance unchanged, and the next version. When the sum
    does not fit, the multiplication of the library panics and so does the
    handler. In particular the third seed scenario holds: from 1200.50 USD and
    500 EUR at version 2, converting 100 USD at 0.92 gives 1100.50 USD and
    592 EUR at version 3, the event recording 92. *)
Theorem HandleConvertCurrency_exact (uuid_New : UUID) (time_Now : Time) (a : Account)
    (fromAmount : Decimal) (fromCurrency toCurrency : Currency) (exchangeRate : Decimal)
    (Hcreated : ID a <> "" /\ Version a <> 0)
    (Hamount : IsPositive fromAmount = true)
    (Hcurrencies : fromCurrency <> toCurrency)
    (Hrate : IsPositive exchangeRate = true)
    (Hfunds : GreaterThanOrEqual (getBalance a fromCurrency) fromAmount = true) :
  (- 2 ^ 31 <= exp fromAmount + exp exchangeRate <= 2 ^ 31 - 1 ->
   exists toAmount,
     Mul fromAmount exchangeRate = Returns toAmount /\
     HandleConvertCurrency uuid_New time_Now a fromAmount fromCurrency toCurrency exchangeRate =
       Returns
         (None,
          {| ID := ID a;
             Balances :=
               <[toCurrency := Add (getBalance a toCurrency) toAmount]>
                 (<[fromCurrency := Sub (getBalance a fromCurrency) fromAmount]> (Balances a));
             Version := GoInt.add (Version a) 1;
             changes := changes a ++
               [CurrencyConvertedEvent
                  (NewBaseEvent uuid_New time_Now (ID a) (GoInt.add (Version a) 1)
                     CurrencyConvertedType)
                  fromAmount fromCurrency toAmount toCurrency exchangeRate] |}) /\
     (toQ toAmount == toQ fromAmount * toQ exchangeRate)%Q /\
     (toQ (Sub (getBalance a fromCurrency) fromAmount)
        == toQ (getBalance a fromCurrency) - toQ fromAmount)%Q /\
     (toQ (Add (getBalance a toCurrency) toAmount)
        == toQ (getBalance a toCurrency) + toQ fromAmount * toQ exchangeRate)%Q) /\
  (exp fromAmount + exp exchangeRate < - 2 ^ 31 \/ 2 ^ 31 - 1 < exp fromAmount + exp exchangeRate ->
   exists reason,
     HandleConvertCurrency uuid_New time_Now a fromAmount fromCurrency toCurrency exchangeRate =
       Panics reason) /\
  seed_convert_outcome.
Proof.
  destruct Hcreated as [Hid Hver].
  pose proof (HandleConvertCurrency_checked uuid_New time_Now a fromAmount fromCurrency
                toCurrency exchangeRate Hid Hver Hamount Hcurrencies Hrate Hfunds) as Hchecks.
  rewrite Hchecks. split; [|split; [|apply seed_convert_holds]].
  - intros Hexps. rewrite (Mul_Returns _ _ Hexps). eexists. split; [reflexivity|].
    split; [|split; [apply toQ_Mul, Mul_Returns, Hexps|split; [apply toQ_Sub|]]].
    + unfold handleChange, ApplyEvent; cbn [GetBase NewBaseEvent events.Version].
      rewrite Z.eqb_refl; cbn [negb].
      rewrite (Sub_nonneg_of_GreaterThanOrEqual _ _ Hfunds).
      rewrite getBalance_store_other by exact Hcurrencies.
      reflexivity.
    + rewrite toQ_Add, (toQ_Mul _ _ _ (Mul_Returns _ _ Hexps)). reflexivity.
  - intros Hexps. destruct (Mul_Panics _ _ Hexps) as [reason ->]. exists reason. reflexivity.
Qed.

(** C6 (counterexample). An account created with 1 USD, the amount
    1e-2147483648 (greater than zero, and at most the balance) and the rate
    0.1 (positive): the exponents add up to one less than the least [int32],
    and the handler panics instead of emitting an event. *)
Lemma HandleConvertCurrency_exponent_overflow :
  IsPositive smallest_amount = true /\
  IsPositive (New 1 (-1)) = true /\
  GreaterThanOrEqual (getBalance acc_one_USD USD) smallest_amount = true /\
  exists reason,
    HandleConvertCurrency 1 0 acc_one_USD smallest_amount USD EUR (New 1 (-1)) = Panics reason.
Proof.
  assert (Hfunds : GreaterThanOrEqual (getBalance acc_one_USD USD) smallest_amount = true).
  { apply GreaterThanOrEqual_toQ. exact smallest_amount_le_one. }
  split; [reflexivity|]. split; [reflexivity|]. split; [exact Hfunds|].
  rewrite HandleConvertCurrency_checked;
    [|discriminate|discriminate|reflexivity|discriminate|reflexivity|exact Hfunds].
  destruct (Mul_Panics smallest_amount (New 1 (-1))) as [reason ->];
    [left; unfold smallest_amount, New; cbn [exp]; lia|].
  exists reason. reflexivity.
Qed.

(** C6 (witness). The third seed scenario, obtained from the general
    statement: the result of the handler on [acc_A_v2]. *)
Lemma HandleConvertCurrency_exact_witness :
  HandleConvertCurrency 3 30 acc_A_v2 (New 100 0) USD EUR (New 92 (-2)) =
    Returns
      (None,
       {| ID := "A";
          Balances := {[ USD := New 110050 (-2); EUR := New 59200 (-2) ]};
          Version := 3;
          changes :=
            [ CurrencyConvertedEvent (NewBaseEvent 3 30 "A" 3 CurrencyConvertedType)
                (New 100 0) USD (New 9200 (-2)) EUR (New 92 (-2)) ] |}).
Proof.
  destruct (HandleConvertCurrency_exact 3 30 acc_A_v2 (New 100 0) USD EUR (New 92 (-2)))
    as [H _].
  - split; [discriminate|cbn; discriminate].
  - reflexivity.
  - discriminate.
  - reflexivity.
  - vm_compute. reflexivity.
  - destruct H as (toAmount & Hmul & H & _); [cbn; lia|].
    rewrite H. vm_compute in Hmul. injection Hmul as <-. vm_compute. reflexivity.
Defined.

(** ** The event store *)

Lemma len_nonneg {A} (l : list A) : 0 <= GoInt.len l.
Proof. unfold GoInt.len. lia. Qed.

Lemma len_app {A} (l k : list A) : GoInt.len (l ++ k) = GoInt.len l + GoInt.len k.
Proof. unfold GoInt.len. rewrite length_app. lia. Qed.

Lemma add_1_in_range v : GoInt.MinInt <= v -> v + 1 <= GoInt.MaxInt -> GoInt.add v 1 = v + 1.
Proof. intros H1 H2. apply wrap_in_range. split; lia. Qed.

Lemma batch_in_sequence_cons v e rest :
  batch_in_sequence v (e :: rest) <->
  events.Version (GetBase e) = v + 1 /\ batch_in_sequence (v + 1) rest.
Proof.
  unfold batch_in_sequence. split.
  - intros H. split.
    + rewrite (H O e eq_refl). lia.
    + intros i e' Hi. rewrite (H (S i) e' Hi). lia.
  - intros [H0 H] [|i] e' Hi; cbn in Hi.
    + injection Hi as <-. lia.
    + rewrite (H i e' Hi). lia.
Qed.

Lemma batch_ids_match_cons id e rest :
  batch_ids_match id (e :: rest) <->
  AggregateID (GetBase e) = id /\ batch_ids_match id rest.
Proof.
  unfold batch_ids_match. split.
  - intros H. split; [apply H; left|intros e' He'; apply H; right; exact He'].
  - intros [H0 H] e' He'. apply elem_of_cons in He' as [->|He']; auto.
Qed.

(** Below the largest [int], the validation loop of [SaveEvents] accepts
    exactly the batches the specification describes. *)
Lemma check_batch_None id batch : forall v,
  GoInt.MinInt <= v -> v + GoInt.len batch <= GoInt.MaxInt ->
  check_batch id v batch = None <->
  batch_in_sequence v batch /\ batch_ids_match id batch.
Proof.
  induction batch as [|e rest IH]; intros v Hmin Hmax.
  - cbn. split; [intros _|reflexivity]. split.
    + intros i e Hi. destruct i; discriminate.
    + intros e He. inversion He.
  - change (GoInt.len (e :: rest)) with (Z.of_nat (S (length rest))) in Hmax.
    assert (Hmax' : v + 1 + GoInt.len rest <= GoInt.MaxInt) by (unfold GoInt.len; lia).
    pose proof (len_nonneg rest) as Hlen.
    cbn [check_batch]. rewrite add_1_in_range by lia.
    rewrite batch_in_sequence_cons, batch_ids_match_cons.
    destruct (Z.eqb_spec (events.Version (GetBase e)) (v + 1)) as [Hv|Hv]; cbn [negb].
    + destruct (String.eqb_spec (AggregateID (GetBase e)) id) as [Hi|Hi]; cbn [negb].
      * rewrite IH by lia. tauto.
      * split; [discriminate|tauto].
    + split; [discriminate|tauto].
Qed.

Lemma check_batch_error_not_lock id batch : forall v err,
  check_batch id v batch = Some err -> Is err ErrOptimisticLock = false.
Proof.
  induction batch as [|e rest IH]; intros v err; cbn [check_batch]; [discriminate|].
  repeat case_match; try (intros [= <-]; reflexivity). apply IH.
Qed.

Lemma highest_version_acc stream acc :
  0 <= acc ->
  foldr (fun e m => Z.max (events.Version (GetBase e)) m) acc stream =
  Z.max (highest_version stream) acc.
Proof.
  intros Hacc. unfold highest_version. induction stream as [|e l IH]; cbn [foldr].
  - lia.
  - rewrite IH. lia.
Qed.

Lemma stream_wf_snoc id l e :
  stream_wf id (l ++ [e]) ->
  stream_wf id l /\ events.Version (GetBase e) = GoInt.len l + 1.
Proof.
  intros H. split.
  - intros i e' Hi. apply H. apply lookup_app_l_Some. exact Hi.
  - destruct (H (length l) e) as [Hv _].
    + rewrite lookup_app_r by lia. rewrite Nat.sub_diag. reflexivity.
    + exact Hv.
Qed.

Lemma stream_wf_highest id stream :
  stream_wf id stream -> highest_version stream = GoInt.len stream.
Proof.
  induction stream as [|e l IH] using rev_ind; intros H; [reflexivity|].
  apply stream_wf_snoc in H as [Hl He].
  unfold highest_version. rewrite foldr_app. cbn [foldr].
  pose proof (len_nonneg l).
  rewrite highest_version_acc by lia. rewrite (IH Hl), He, len_app.
  change (GoInt.len [e]) with 1. lia.
Qed.

Lemma stream_wf_last id stream :
  stream_wf id stream ->
  match last stream with
  | Some e => events.Version (GetBase e)
  | None => 0
  end = GoInt.len stream.
Proof.
  destruct stream as [|e l] using rev_ind; intros H; [reflexivity|].
  apply stream_wf_snoc in H as [_ He]. rewrite last_snoc, He, len_app. reflexivity.
Qed.

(** On a store built by [SaveEvents], the version it reads off the last
    event is the highest stored version, and the number of stored events. *)
Lemma currentVersion_stored s id :
  store_wf s ->
  currentVersion s id = stored_version s id /\
  currentVersion s id = GoInt.len (default [] (streams s !! id)).
Proof.
  intros Hwf. unfold currentVersion, stored_version.
  destruct (streams s !! id) as [stream|] eqn:E; simpl; [|split; reflexivity].
  destruct (Hwf id stream E) as [Hs _].
  rewrite (stream_wf_highest id stream Hs), (stream_wf_last id stream Hs). split; reflexivity.
Qed.

(** C3 (counterexample). The empty-batch test comes first in
    [SaveEvents]: on an empty store, where the stored version of "acc-1" is
    0, a call with expected version 5 and an empty batch returns no error,
    so it does not fail with the optimistic-lock error. *)
Lemma SaveEvents_empty_batch_skips_version_check :
  stored_version NewInMemoryEventStore "acc-1" <> 5 /\
  SaveEvents NewInMemoryEventStore "acc-1" 5 [] = (None, NewInMemoryEventStore) /\
  ~ (exists err s',
       SaveEvents NewInMemoryEventStore "acc-1" 5 [] = (Some err, s') /\
       Is err ErrOptimisticLock = true).
Proof.
  split; [vm_compute; discriminate|]. split; [reflexivity|].
  intros (err & s' & H & _). discriminate H.
Qed.

(** C3 (as amended). On a store whose streams were written by
    [SaveEvents] (so that the stored version, the highest stored event
    version or 0, is what the code reads off the last event), and for a batch
    that fits a Go slice together with the stream: an empty batch returns success and leaves the
    store unchanged (this case is decided before any other); a batch that is
    not empty fails with the optimistic-lock error, the store unchanged, when
    the stored version differs from the expected one; otherwise it fails with
    another error, the store unchanged, when its versions are not
    expectedVersion+1, expectedVersion+2, ... or an event carries another
    aggregate id; otherwise it succeeds and the stream is the old one followed
    by the batch. *)
Theorem SaveEvents_contract (s : InMemoryEventStore) (aggregateID : string)
    (expectedVersion : Z) (batch : list Event)
    (Hwf : store_wf s)
    (Hfits : GoInt.len (default [] (streams s !! aggregateID) ++ batch) <= GoInt.MaxInt) :
  (batch = [] -> SaveEvents s aggregateID expectedVersion batch = (None, s)) /\
  (batch <> [] -> stored_version s aggregateID <> expectedVersion ->
     exists err, SaveEvents s aggregateID expectedVersion batch = (Some err, s) /\
                 Is err ErrOptimisticLock = true) /\
  (batch <> [] -> stored_version s aggregateID = expectedVersion ->
     ~ (batch_in_sequence expectedVersion batch /\ batch_ids_match aggregateID batch) ->
     exists err, SaveEvents s aggregateID expectedVersion batch = (Some err, s) /\
                 Is err ErrOptimisticLock = false) /\
  (batch <> [] -> stored_version s aggregateID = expectedVersion ->
     batch_in_sequence expectedVersion batch /\ batch_ids_match aggregateID batch ->
     SaveEvents s aggregateID expectedVersion batch =
       (None, mkEventStore (<[aggregateID := default [] (streams s !! aggregateID) ++ batch]>
                              (streams s)))).
Proof.
  destruct (currentVersion_stored s aggregateID Hwf) as [Hcur Hlen].
  rewrite len_app in Hfits.
  assert (Hne : batch <> [] -> (GoInt.len batch =? 0) = false).
  { intros H. apply Z.eqb_neq. destruct batch; [contradiction|]. unfold GoInt.len; cbn. lia. }
  unfold SaveEvents. repeat split.
  - intros ->. reflexivity.
  - intros Hb Hv. rewrite (Hne Hb), Hcur.
    destruct (Z.eqb_spec (stored_version s aggregateID) expectedVersion); [contradiction|].
    cbn [negb]. eexists. split; reflexivity.
  - intros Hb Hv Hbad. rewrite (Hne Hb), Hcur, Hv, Z.eqb_refl; cbn [negb].
    destruct (check_batch aggregateID expectedVersion batch) as [err|] eqn:E.
    + exists err. split; [reflexivity|]. exact (check_batch_error_not_lock _ _ _ _ E).
    + exfalso. apply Hbad. apply (check_batch_None aggregateID batch expectedVersion); [| |exact E].
      * rewrite <- Hv, <- Hcur, Hlen. pose proof (len_nonneg (default [] (streams s !! aggregateID))).
        unfold GoInt.MinInt. lia.
      * rewrite <- Hv, <- Hcur, Hlen. exact Hfits.
  - intros Hb Hv Hgood. rewrite (Hne Hb), Hcur, Hv, Z.eqb_refl; cbn [negb].
    apply (check_batch_None aggregateID batch expectedVersion) in Hgood as ->; [reflexivity| |].
    + rewrite <- Hv, <- Hcur, Hlen. pose proof (len_nonneg (default [] (streams s !! aggregateID))).
      unfold GoInt.MinInt. lia.
    + rewrite <- Hv, <- Hcur, Hlen. exact Hfits.
Qed.

Lemma store_acc1_wf : store_wf store_acc1.
Proof.
  intros id stream H. unfold store_acc1 in H; cbn in H.
  apply lookup_singleton_Some in H as [<- <-]. split.
  - intros [|i] e Hi; [|destruct i; discriminate]. injection Hi as <-. split; reflexivity.
  - vm_compute. discriminate.
Defined.

(** C3 (witness). The store holds version 1 of "acc-1"; a batch made of
    an event of version 3 skips version 2 and is refused, not as a lock
    conflict, and nothing is written. *)
Lemma SaveEvents_contract_witness :
  exists err,
    SaveEvents store_acc1 "acc-1" 1 [deposit_at 2 3] = (Some err, store_acc1) /\
    Is err ErrOptimisticLock = false.
Proof.
  destruct (SaveEvents_contract store_acc1 "acc-1" 1 [deposit_at 2 3] store_acc1_wf)
    as (_ & _ & Hgap & _).
  - vm_compute. discriminate.
  - apply Hgap.
    + discriminate.
    + reflexivity.
    + intros [Hseq _]. specialize (Hseq O (deposit_at 2 3) eq_refl).
      vm_compute in Hseq. discriminate.
Defined.

Lemma NewInMemoryEventStore_wf : store_wf NewInMemoryEventStore.
Proof. intros id stream H. cbn in H. rewrite lookup_empty in H. discriminate. Qed.

(** X2. A successful [SaveEvents] keeps every stream numbered 1, 2, ...
    without gap or repetition, under its own aggregate id. *)
Lemma SaveEvents_preserves_wf s id expectedVersion batch s' :
  store_wf s ->
  GoInt.len (default [] (streams s !! id) ++ batch) <= GoInt.MaxInt ->
  SaveEvents s id expectedVersion batch = (None, s') ->
  store_wf s'.
Proof.
  intros Hwf Hfits. unfold SaveEvents.
  destruct (GoInt.len batch =? 0) eqn:Hl; [intros [= <-]; exact Hwf|].
  destruct (Z.eqb_spec (currentVersion s id) expectedVersion) as [Hv|Hv]; cbn [negb];
    [|intros [=]].
  destruct (check_batch id expectedVersion batch) eqn:Hc; [intros [=]|]. intros [= <-].
  destruct (currentVersion_stored s id Hwf) as [_ Hlen].
  assert (Hstream : stream_wf id (default [] (streams s !! id))).
  { destruct (streams s !! id) as [stream|] eqn:E; simpl.
    - apply (Hwf id stream E).
    - intros i e Hi. destruct i; discriminate. }
  apply (check_batch_None id batch expectedVersion) in Hc as [Hseq Hids].
  - intros id' stream'. cbn. destruct (decide (id = id')) as [<-|Hne].
    + rewrite lookup_insert_eq. intros [= <-]. split; [|exact Hfits].
      intros i e Hi. apply lookup_app_Some in Hi as [Hi|[Hge Hi]].
      * apply Hstream. exact Hi.
      * split.
        -- rewrite (Hseq _ _ Hi), <- Hv, Hlen. unfold GoInt.len. lia.
        -- apply Hids. apply list_elem_of_lookup. eauto.
    + rewrite lookup_insert_ne by assumption. apply Hwf.
  - rewrite <- Hv, Hlen. pose proof (len_nonneg (default [] (streams s !! id))).
    unfold GoInt.MinInt. lia.
  - rewrite <- Hv, Hlen. rewrite len_app in Hfits. exact Hfits.
Qed.

(** ** Two racing appends *)

Lemma wrap_wrap_add x y : GoInt.wrap (GoInt.wrap x + y) = GoInt.wrap (x + y).
Proof.
  unfold GoInt.wrap.
  replace ((x + 2 ^ 63) mod 2 ^ 64 - 2 ^ 63 + y + 2 ^ 63)
    with ((x + 2 ^ 63) mod 2 ^ 64 + y) by lia.
  rewrite Zplus_mod_idemp_l. f_equal. f_equal. lia.
Qed.

Lemma wrap_add_neq v n : 0 < n <= GoInt.MaxInt -> GoInt.wrap (v + n) <> v.
Proof.
  unfold GoInt.MaxInt, GoInt.wrap. intros Hn H.
  pose proof (Z.mod_pos_bound (v + n + 2 ^ 63) (2 ^ 64) ltac:(lia)) as Hb.
  pose proof (Z.div_mod (v + n + 2 ^ 63) (2 ^ 64) ltac:(lia)) as Hd.
  assert (Hq : n = 2 ^ 64 * ((v + n + 2 ^ 63) / 2 ^ 64)) by lia.
  destruct (Z.le_gt_cases ((v + n + 2 ^ 63) / 2 ^ 64) 0); nia.
Qed.

(** The versions a batch accepted by the validation loop carries. *)
Lemma check_batch_versions id batch : forall v,
  check_batch id v batch = None ->
  forall i e, batch !! i = Some e ->
    events.Version (GetBase e) = GoInt.wrap (v + 1 + Z.of_nat i).
Proof.
  induction batch as [|e0 rest IH]; intros v H i e Hi; [destruct i; discriminate|].
  cbn [check_batch] in H.
  destruct (Z.eqb_spec (events.Version (GetBase e0)) (GoInt.add v 1)) as [Hv|Hv];
    cbn [negb] in H; [|discriminate].
  destruct (negb (String.eqb (AggregateID (GetBase e0)) id)); [discriminate|].
  destruct i as [|i]; cbn in Hi.
  - injection Hi as <-. rewrite Hv. unfold GoInt.add. f_equal. lia.
  - rewrite (IH _ H i e Hi). unfold GoInt.add.
    replace (GoInt.wrap (v + 1) + 1 + Z.of_nat i)
      with (GoInt.wrap (v + 1) + (1 + Z.of_nat i)) by lia.
    rewrite wrap_wrap_add. f_equal. lia.
Qed.

Lemma check_batch_last id batch v :
  check_batch id v batch = None -> batch <> [] ->
  match last batch with
  | Some e => events.Version (GetBase e)
  | None => 0
  end = GoInt.wrap (v + GoInt.len batch).
Proof.
  intros H Hne. destruct batch as [|e l] using rev_ind; [contradiction|].
  rewrite last_snoc.
  rewrite (check_batch_versions id _ v H (length l) e)
    by (rewrite lookup_app_r, Nat.sub_diag by lia; reflexivity).
  rewrite len_app. unfold GoInt.len; cbn [length]. f_equal. lia.
Qed.

Section Race.
Variable s : InMemoryEventStore.
Variable id : string.
Variables batch1 batch2 : list Event.

(** Both callers loaded the aggregate at the version the store holds,
    [V], and each emitted a batch that is not empty and well formed for that
    version. *)
Let V := currentVersion s id.
Hypothesis Hne1 : batch1 <> [].
Hypothesis Hne2 : batch2 <> [].
Hypothesis Hbatch1 : check_batch id V batch1 = None.
Hypothesis Hbatch2 : check_batch id V batch2 = None.
Hypothesis Hlen1 : GoInt.len batch1 <= GoInt.MaxInt.
Hypothesis Hlen2 : GoInt.len batch2 <= GoInt.MaxInt.

Let lock_error :=
  Errorf_w "%w: expected version %d, but current version is %d for aggregate %s"
    ErrOptimisticLock.

Lemma len_nonempty (batch : list Event) : batch <> [] -> (GoInt.len batch =? 0) = false.
Proof.
  intros H. apply Z.eqb_neq. destruct batch; [contradiction|]. unfold GoInt.len; cbn. lia.
Qed.

Lemma checks_first batch :
  batch <> [] -> check_batch id V batch = None -> checks s (mkCall id V batch) = None.
Proof.
  intros Hne H. unfold checks; cbn [newEvents aggregateID expectedVersion].
  rewrite (len_nonempty batch Hne). fold V. rewrite Z.eqb_refl; cbn [negb]. rewrite H.
  reflexivity.
Qed.

Lemma currentVersion_append batch :
  batch <> [] -> check_batch id V batch = None ->
  currentVersion (append s (mkCall id V batch)) id = GoInt.wrap (V + GoInt.len batch).
Proof.
  intros Hne H. unfold currentVersion, append; cbn [newEvents aggregateID streams].
  rewrite lookup_insert_eq.
  destruct batch as [|e l] using rev_ind; [contradiction|].
  rewrite app_assoc, last_snoc.
  pose proof (check_batch_last id (l ++ [e]) V H Hne) as Hl. rewrite last_snoc in Hl.
  exact Hl.
Qed.

Lemma checks_second batch batch' :
  batch <> [] -> check_batch id V batch = None -> GoInt.len batch <= GoInt.MaxInt ->
  batch' <> [] ->
  checks (append s (mkCall id V batch)) (mkCall id V batch') = Some (Some lock_error).
Proof.
  intros Hne H Hlen Hne'. unfold checks; cbn [newEvents aggregateID expectedVersion].
  rewrite (len_nonempty batch' Hne'). rewrite (currentVersion_append batch Hne H).
  destruct (Z.eqb_spec (GoInt.wrap (V + GoInt.len batch)) V) as [E|E]; [|reflexivity].
  exfalso. revert E. apply wrap_add_neq. split; [|exact Hlen].
  pose proof (len_nonempty batch Hne) as Hz. apply Z.eqb_neq in Hz.
  unfold GoInt.len in *. lia.
Qed.

Lemma lookup_append batch :
  streams (append s (mkCall id V batch)) !! id = Some (default [] (streams s !! id) ++ batch).
Proof. unfold append; cbn. apply lookup_insert_eq. Qed.

(** One step from a state of the two calls: name the thread that moved. *)
Ltac step_cases H :=
  inversion H; subst; clear H;
  match goal with
  | Hi : _ !! ?i = Some _ |- _ =>
      destruct i as [|[|?]]; cbn in Hi; try discriminate Hi;
      injection Hi as <-; try discriminate
  end.

Ltac known_checks :=
  repeat match goal with
  | Hc : checks s (mkCall id V ?b) = _ |- _ =>
      first [ rewrite (checks_first b Hne1 Hbatch1) in Hc
            | rewrite (checks_first b Hne2 Hbatch2) in Hc ];
      try discriminate Hc
  | Hc : checks (append s (mkCall id V ?b)) (mkCall id V ?b') = _ |- _ =>
      first [ rewrite (checks_second b b' Hne1 Hbatch1 Hlen1 Hne2) in Hc
            | rewrite (checks_second b b' Hne2 Hbatch2 Hlen2 Hne1) in Hc ];
      try discriminate Hc; try (injection Hc as <-)
  end.

Ltac finished :=
  match goal with
  | H1 : result_of _ 0 = Some _, H2 : result_of _ 1 = Some _ |- _ =>
      cbn in H1, H2; try discriminate H1; try discriminate H2;
      injection H1 as <-; injection H2 as <-
  end.

Ltac advance :=
  match goal with
  | H : steps _ _ |- _ =>
      let Hstep := fresh "Hstep" in
      let Hrest := fresh "Hrest" in
      inversion H as [?|? ? ? Hstep Hrest]; subst; clear H;
      [ finished
      | step_cases Hstep; cbn [list_insert] in Hrest; known_checks ]
  end.

(** Every interleaving that lets both calls finish is one call running
    from lock to unlock, then the other. *)
Lemma race_outcomes final r1 r2 :
  steps (initial s [mkCall id V batch1; mkCall id V batch2]) final ->
  result_of final 0 = Some r1 -> result_of final 1 = Some r2 ->
  (r1 = None /\ r2 = Some lock_error /\
   shared_store final = append s (mkCall id V batch1)) \/
  (r2 = None /\ r1 = Some lock_error /\
   shared_store final = append s (mkCall id V batch2)).
Proof.
  unfold initial; cbn [fmap list_fmap]. intros H H1 H2.
  repeat advance.
  all: cbn [shared_store].
  all: first [ left; repeat split; reflexivity | right; repeat split; reflexivity ].
Qed.

(** One complete run of the two calls: the first takes the lock, checks,
    appends and unlocks, then the second does. *)
Lemma race_run :
  exists final,
    steps (initial s [mkCall id V batch1; mkCall id V batch2]) final /\
    is_Some (result_of final 0) /\ is_Some (result_of final 1).
Proof.
  eexists. split.
  - unfold initial; cbn [fmap list_fmap].
    eapply steps_cons; [eapply (step_lock _ _ 0); reflexivity|]. cbn [list_insert].
    eapply steps_cons; [eapply (step_checks_pass _ _ _ 0);
                        [reflexivity|apply checks_first; assumption]|]. cbn [list_insert].
    eapply steps_cons; [eapply (step_append _ _ _ 0); reflexivity|]. cbn [list_insert].
    eapply steps_cons; [eapply (step_unlock _ _ _ 0); reflexivity|]. cbn [list_insert].
    eapply steps_cons; [eapply (step_lock _ _ 1); reflexivity|]. cbn [list_insert].
    eapply steps_cons; [eapply (step_checks_return _ _ _ 1);
                        [reflexivity|apply checks_second; assumption]|]. cbn [list_insert].
    eapply steps_cons; [eapply (step_unlock _ _ _ 1); reflexivity|]. cbn [list_insert].
    apply steps_refl.
  - split; eexists; reflexivity.
Qed.

End Race.

(** The two steps a thread takes inside the lock are [SaveEvents]. *)
Lemma SaveEvents_checks_append s c :
  SaveEvents s (aggregateID c) (expectedVersion c) (newEvents c) =
    match checks s c with
    | Some r => (r, s)
    | None => (None, append s c)
    end.
Proof.
  unfold SaveEvents, checks, append.
  destruct (GoInt.len (newEvents c) =? 0); [reflexivity|].
  destruct (negb (currentVersion s (aggregateID c) =? expectedVersion c)); [reflexivity|].
  destruct (check_batch (aggregateID c) (expectedVersion c) (newEvents c)); reflexivity.
Qed.

(** C9. Two calls of [SaveEvents] for the same aggregate, both with the
    version [V] the store holds as expected version and each with a batch
    that is not empty and well formed for [V] (the race of two callers that
    loaded the aggregate at [V]), run as concurrent threads under the store's
    mutex. Such runs finish; and in every interleaving that finishes exactly
    one call returns no error while the other returns an error that is
    [ErrOptimisticLock], the stream afterwards is the old stream followed by
    the winner's batch only, and the stored version is [V] plus the length of
    that batch: [V + 1] for single-event batches (Go's addition). *)
Theorem concurrent_appends_one_winner (s : InMemoryEventStore) (id : string) (V : Z)
    (batch1 batch2 : list Event)
    (Hstored : currentVersion s id = V)
    (Hbatch1 : batch1 <> [] /\ check_batch id V batch1 = None /\
               GoInt.len batch1 <= GoInt.MaxInt)
    (Hbatch2 : batch2 <> [] /\ check_batch id V batch2 = None /\
               GoInt.len batch2 <= GoInt.MaxInt) :
  (exists final,
     steps (initial s [mkCall id V batch1; mkCall id V batch2]) final /\
     is_Some (result_of final 0) /\ is_Some (result_of final 1)) /\
  (forall final r1 r2,
     steps (initial s [mkCall id V batch1; mkCall id V batch2]) final ->
     result_of final 0 = Some r1 -> result_of final 1 = Some r2 ->
     (succeeded r1 = true /\ succeeded r2 = false /\ failed_OptimisticLock r2 = true /\
      streams (shared_store final) !! id = Some (default [] (streams s !! id) ++ batch1) /\
      currentVersion (shared_store final) id = GoInt.wrap (V + GoInt.len batch1)) \/
     (succeeded r2 = true /\ succeeded r1 = false /\ failed_OptimisticLock r1 = true /\
      streams (shared_store final) !! id = Some (default [] (streams s !! id) ++ batch2) /\
      currentVersion (shared_store final) id = GoInt.wrap (V + GoInt.len batch2))) /\
  (forall e : Event, GoInt.wrap (V + GoInt.len [e]) = GoInt.add V 1).
Proof.
  subst V. destruct Hbatch1 as (Hne1 & Hb1 & Hl1), Hbatch2 as (Hne2 & Hb2 & Hl2).
  split; [apply race_run; assumption|]. split; [|reflexivity].
  intros final r1 r2 Hsteps H1 H2.
  destruct (race_outcomes s id batch1 batch2 Hne1 Hne2 Hb1 Hb2 Hl1 Hl2 final r1 r2 Hsteps H1 H2)
    as [(-> & -> & ->)|(-> & -> & ->)].
  - left. repeat split; [apply lookup_append|apply currentVersion_append; assumption].
  - right. repeat split; [apply lookup_append|apply currentVersion_append; assumption].
Qed.

(** C9 (witness). On the store holding version 1 of "acc-1", two callers
    append one deposit of version 2 each: some run finishes, one call wins,
    the other gets the lock error, and the stored version is 2. *)
Lemma concurrent_appends_one_winner_witness :
  exists final r1 r2,
    steps (initial store_acc1 [mkCall "acc-1" 1 [deposit_at 2 2];
                               mkCall "acc-1" 1 [deposit_at 3 2]]) final /\
    result_of final 0 = Some r1 /\ result_of final 1 = Some r2 /\
    xorb (succeeded r1) (succeeded r2) = true /\
    (failed_OptimisticLock r1 || failed_OptimisticLock r2) = true /\
    currentVersion (shared_store final) "acc-1" = 2.
Proof.
  destruct (concurrent_appends_one_winner store_acc1 "acc-1" 1
              [deposit_at 2 2] [deposit_at 3 2] eq_refl)
    as ((final & Hsteps & [r1 H1] & [r2 H2]) & Hall & _).
  - split; [discriminate|]. split; [reflexivity|vm_compute; discriminate].
  - split; [discriminate|]. split; [reflexivity|vm_compute; discriminate].
  - exists final, r1, r2.
    destruct (Hall final r1 r2 Hsteps H1 H2)
      as [(Ha & Hb & Hc & _ & Hv)|(Ha & Hb & Hc & _ & Hv)];
      repeat split; try assumption; rewrite ?Ha, ?Hb, ?Hc; try reflexivity.
    apply orb_true_r.
Defined.

(** ** Transaction history *)

(** C8 (evaluation at the failing input). With two stored events, skip 1
    and the largest [int] as limit, [start + query.Limit] wraps around to a
    negative [end], which passes the [end > totalEvents] test, and the slice
    expression [history[start:end]] panics; the page asked for is the second
    event. *)
Theorem GetTransactionHistory_limit_overflow :
  GetTransactionHistory service_two_events (mkGetHistoryQuery "acc-1" 1 GoInt.MaxInt)
    = Panicked "slice bounds out of range" /\
  GoInt.add 1 GoInt.MaxInt = GoInt.MinInt /\
  page 1 GoInt.MaxInt [ created_v1; deposit_at 2 2 ] = [ deposit_at 2 2 ].
Proof.
  split; [vm_compute; reflexivity|]. split; [vm_compute; reflexivity|].
  unfold page. change (GoInt.MaxInt <=? 0) with false. cbv iota.
  apply take_ge. cbn [drop length Z.to_nat Pos.to_nat Pos.iter_op Init.Nat.add].
  unfold GoInt.MaxInt. lia.
Qed.

(** X1. For a stored stream that is not empty and a skip that is not
    negative: when [skip + limit] does not overflow (or the limit is not
    positive), the history returned is the page asked for, the events
    [skip, skip + limit) of the stream, all of them from [skip] on when the
    limit is not positive, none when [skip] is at or past the end. *)
Lemma GetTransactionHistory_page (svc : AccountService) (query : GetHistoryQuery)
    (history : list Event) :
  streams (eventStore svc) !! AccountID query = Some history ->
  history <> [] ->
  0 <= Skip query ->
  Limit query <= 0 \/ Skip query + Limit query <= GoInt.MaxInt ->
  GetTransactionHistory svc query = Returned (page (Skip query) (Limit query) history).
Proof.
  intros Hs Hne Hskip Hfit.
  unfold GetTransactionHistory, GetEvents. rewrite Hs.
  assert (Hlen : 0 < GoInt.len history).
  { destruct history; [contradiction|]. unfold GoInt.len; cbn; lia. }
  destruct (Z.eqb_spec (GoInt.len history) 0); [lia|].
  destruct (Z.ltb_spec (Skip query) 0); [lia|].
  unfold page, slice.
  destruct (Z.leb_spec (GoInt.len history) (Skip query)) as [Hpast|Hin].
  - rewrite drop_ge by (unfold GoInt.len in Hpast; lia).
    destruct (Limit query <=? 0); [reflexivity|]. rewrite take_nil. reflexivity.
  - destruct (Z.leb_spec (Limit query) 0) as [Hall|Hpos]; cbn [orb].
    + replace ((0 <=? Skip query) && (Skip query <=? GoInt.len history)
               && (GoInt.len history <=? GoInt.len history)) with true by lia.
      rewrite take_ge; [reflexivity|]. rewrite length_drop. unfold GoInt.len. lia.
    + destruct Hfit as [Hfit|Hfit]; [lia|].
      unfold GoInt.add. rewrite wrap_in_range by (unfold GoInt.in_range, GoInt.MinInt; lia).
      destruct (Z.ltb_spec (GoInt.len history) (Skip query + Limit query)) as [Hover|Hunder].
      * replace ((0 <=? Skip query) && (Skip query <=? GoInt.len history)
                 && (GoInt.len history <=? GoInt.len history)) with true by lia.
        rewrite !take_ge; [reflexivity| |]; rewrite length_drop; unfold GoInt.len in *; lia.
      * replace ((0 <=? Skip query) && (Skip query <=? Skip query + Limit query)
                 && (Skip query + Limit query <=? GoInt.len history)) with true by lia.
        replace (Skip query + Limit query - Skip query) with (Limit query) by lia.
        reflexivity.
Qed.

(** ** The text form of decimals *)

Lemma char_digit_digit_char d : 0 <= d < 10 -> char_digit (digit_char d) = Some d.
Proof.
  intros H.
  assert (d = 0 \/ d = 1 \/ d = 2 \/ d = 3 \/ d = 4 \/ d = 5 \/ d = 6 \/ d = 7 \/ d = 8 \/ d = 9)
    as Hd by lia.
  repeat (destruct Hd as [->|Hd]; [reflexivity|]). subst. reflexivity.
Qed.

Lemma is_digit_digit_char d : 0 <= d < 10 -> is_digit (digit_char d) = true.
Proof. intros H. unfold is_digit. rewrite char_digit_digit_char by assumption. reflexivity. Qed.

Lemma is_digit_not c c' : is_digit c = true -> is_digit c' = false -> Ascii.eqb c c' = false.
Proof.
  intros H H'. destruct (Ascii.eqb_spec c c'); [subst; congruence|reflexivity].
Qed.

Lemma digits_value_app acc l k :
  digits_value acc (l ++ k) = digits_value (digits_value acc l) k.
Proof. apply foldl_app. Qed.

Lemma digits_value_shift l : forall acc,
  digits_value acc l = acc * 10 ^ Z.of_nat (length l) + digits_value 0 l.
Proof.
  induction l as [|c l IH]; intros acc; cbn [digits_value foldl length].
  - cbn. lia.
  - fold (digits_value (acc * 10 + default 0 (char_digit c)) l).
    fold (digits_value (0 * 10 + default 0 (char_digit c)) l).
    rewrite IH, (IH (0 * 10 + _)). rewrite Nat2Z.inj_succ, Z.pow_succ_r by lia. ring.
Qed.

Lemma digits_value_zeros t acc :
  digits_value acc (replicate t "0"%char) = acc * 10 ^ Z.of_nat t.
Proof.
  revert acc. induction t as [|t IH]; intros acc.
  - cbn. lia.
  - cbn [replicate digits_value foldl]. fold (digits_value (acc * 10 + default 0 (char_digit "0")) (replicate t "0"%char)).
    rewrite IH. rewrite Nat2Z.inj_succ, Z.pow_succ_r by lia.
    change (default 0 (char_digit "0")) with 0. ring.
Qed.

Lemma parse_digits_digits l : forall acc,
  Forall (fun c => is_digit c = true) l ->
  parse_digits acc l = Some (digits_value acc l).
Proof.
  induction l as [|c l IH]; intros acc H; [reflexivity|].
  apply Forall_cons in H as [Hc Hl]. cbn [parse_digits digits_value foldl].
  unfold is_digit in Hc. destruct (char_digit c) as [d|]; [|discriminate].
  apply IH. exact Hl.
Qed.

Lemma digits_loop_spec fuel : forall n acc,
  0 <= n < 10 ^ (Z.of_nat fuel + 1) ->
  exists ds, digits_loop fuel n acc = ds ++ acc /\
             Forall (fun c => is_digit c = true) ds /\
             digits_value 0 ds = n /\ ds <> [].
Proof.
  induction fuel as [|fuel IH]; intros n acc Hn.
  - cbn in Hn. exists [digit_char (n mod 10)]. cbn [digits_loop].
    rewrite Z.mod_small by lia. split; [reflexivity|]. split; [|split; [|discriminate]].
    + constructor; [apply is_digit_digit_char; lia|constructor].
    + cbn. rewrite char_digit_digit_char by lia. reflexivity.
  - cbn [digits_loop]. destruct (Z.ltb_spec n 10) as [Hs|Hb].
    + exists [digit_char (n mod 10)]. rewrite Z.mod_small by lia.
      split; [reflexivity|]. split; [|split; [|discriminate]].
      * constructor; [apply is_digit_digit_char; lia|constructor].
      * cbn. rewrite char_digit_digit_char by lia. reflexivity.
    + destruct (IH (n / 10) (digit_char (n mod 10) :: acc)) as (ds & Hds & Hall & Hval & Hne).
      { split; [apply Z.div_pos; lia|].
        apply Z.div_lt_upper_bound; [lia|].
        rewrite Nat2Z.inj_succ in Hn.
        replace (Z.succ (Z.of_nat fuel) + 1) with (Z.succ (Z.of_nat fuel + 1)) in Hn by lia.
        rewrite Z.pow_succ_r in Hn by lia. lia. }
      exists (ds ++ [digit_char (n mod 10)]). rewrite Hds, <- app_assoc.
      split; [reflexivity|]. split; [|split].
      * apply Forall_app. split; [exact Hall|].
        constructor; [apply is_digit_digit_char; apply Z.mod_pos_bound; lia|constructor].
      * rewrite digits_value_app, Hval. cbn.
        rewrite char_digit_digit_char by (apply Z.mod_pos_bound; lia). cbn.
        pose proof (Z.div_mod n 10). lia.
      * destruct ds; discriminate.
Qed.

Lemma digits_spec n :
  0 <= n ->
  Forall (fun c => is_digit c = true) (digits n) /\
  digits_value 0 (digits n) = n /\ digits n <> [].
Proof.
  intros Hn. unfold digits.
  destruct (digits_loop_spec (Z.to_nat (Z.log2 n)) n []) as (ds & Hds & Hall & Hval & Hne).
  - split; [exact Hn|]. rewrite Z2Nat.id by apply Z.log2_nonneg.
    destruct (Z.eq_dec n 0) as [->|Hpos]; [cbn; lia|].
    assert (n < 2 ^ (Z.log2 n + 1)).
    { pose proof (Z.log2_spec n ltac:(lia)) as [_ H]. rewrite <- Z.add_1_r in H. exact H. }
    assert (2 ^ (Z.log2 n + 1) <= 10 ^ (Z.log2 n + 1)).
    { apply Z.pow_le_mono_l. lia. }
    lia.
  - rewrite app_nil_r in Hds. rewrite Hds. auto.
Qed.

Lemma digit_not_sign c :
  is_digit c = true ->
  Ascii.eqb c "-" = false /\ Ascii.eqb c "+" = false /\ Ascii.eqb c "." = false /\
  (Ascii.eqb c "E" || Ascii.eqb c "e")%char = false.
Proof.
  intros H. repeat split; try apply orb_false_iff; repeat split;
    apply is_digit_not; auto.
Qed.

Lemma parse_unsigned_digits l :
  Forall (fun c => is_digit c = true) l -> l <> [] ->
  parse_unsigned l = Some (digits_value 0 l).
Proof.
  intros H Hne. destruct l; [contradiction|]. unfold parse_unsigned.
  apply parse_digits_digits. exact H.
Qed.

Lemma big_SetString_signed negative l :
  Forall (fun c => is_digit c = true) l -> l <> [] ->
  big_SetString (sign_chars negative ++ l) =
    Some (if negative then - digits_value 0 l else digits_value 0 l).
Proof.
  intros H Hne. destruct negative; cbn [sign_chars app big_SetString].
  - change (Ascii.eqb "-" "-") with true. cbv iota.
    rewrite parse_unsigned_digits by assumption. reflexivity.
  - destruct l as [|c l]; [contradiction|]. cbn [big_SetString].
    pose proof (Forall_inv H) as Hc. cbn in Hc.
    destruct (digit_not_sign c Hc) as (-> & -> & _).
    apply parse_unsigned_digits; assumption.
Qed.

Lemma big_String_signed n :
  big_String n = sign_chars (n <? 0) ++ digits (Z.abs n).
Proof.
  unfold big_String. destruct (Z.ltb_spec n 0); cbn [sign_chars app]; [reflexivity|].
  rewrite Z.abs_eq by lia. reflexivity.
Qed.

Lemma big_SetString_big_String n : big_SetString (big_String n) = Some n.
Proof.
  rewrite big_String_signed.
  destruct (digits_spec (Z.abs n) (Z.abs_nonneg n)) as (Hall & Hval & Hne).
  rewrite big_SetString_signed by assumption. rewrite Hval.
  destruct (Z.ltb_spec n 0); f_equal; lia.
Qed.


Lemma drop_zeros_spec l :
  exists t, l = replicate t "0"%char ++ drop_zeros l.
Proof.
  induction l as [|c l [t IH]]; [exists O; reflexivity|].
  cbn [drop_zeros]. destruct (Ascii.eqb_spec c "0") as [->|Hc].
  - exists (S t). cbn [replicate app]. rewrite <- IH. reflexivity.
  - exists O. reflexivity.
Qed.

Lemma trim_trailing_zeros_spec l :
  exists t, l = trim_trailing_zeros l ++ replicate t "0"%char.
Proof.
  unfold trim_trailing_zeros.
  destruct (drop_zeros_spec (reverse l)) as [t Ht]. exists t.
  rewrite <- (reverse_involutive l) at 1. rewrite Ht at 1.
  rewrite reverse_app, reverse_replicate. reflexivity.
Qed.

Lemma index_Ee_None l :
  Forall (fun c => (Ascii.eqb c "E" || Ascii.eqb c "e")%char = false) l ->
  index_Ee l = None.
Proof.
  induction 1 as [|c l Hc Hl IH]; [reflexivity|]. cbn [index_Ee]. rewrite Hc, IH. reflexivity.
Qed.

Lemma point_index_no_point l : forall i p,
  Forall (fun c => Ascii.eqb c "." = false) l -> point_index l i p = Some p.
Proof.
  induction l as [|c l IH]; intros i p H; [reflexivity|].
  apply Forall_cons in H as [Hc Hl]. cbn [point_index]. rewrite Hc. apply IH. exact Hl.
Qed.

Lemma point_index_one_point pre post : forall i,
  Forall (fun c => Ascii.eqb c "." = false) pre ->
  Forall (fun c => Ascii.eqb c "." = false) post ->
  point_index (pre ++ "."%char :: post) i None = Some (Some (i + length pre)%nat).
Proof.
  induction pre as [|c pre IH]; intros i Hpre Hpost.
  - cbn [app point_index length]. change (Ascii.eqb "." ".") with true. cbv iota.
    rewrite point_index_no_point by assumption. rewrite Nat.add_0_r. reflexivity.
  - apply Forall_cons in Hpre as [Hc Hpre]. cbn [app point_index length]. rewrite Hc.
    rewrite IH by assumption. do 2 f_equal. lia.
Qed.

Lemma sign_chars_plain negative :
  Forall (fun c => Ascii.eqb c "." = false) (sign_chars negative) /\
  Forall (fun c => (Ascii.eqb c "E" || Ascii.eqb c "e")%char = false) (sign_chars negative).
Proof. destruct negative; split; repeat constructor. Qed.

Lemma digits_plain l :
  Forall (fun c => is_digit c = true) l ->
  Forall (fun c => Ascii.eqb c "." = false) l /\
  Forall (fun c => (Ascii.eqb c "E" || Ascii.eqb c "e")%char = false) l.
Proof.
  intros H. split; eapply Forall_impl; try exact H; cbn; intros c Hc;
    apply (digit_not_sign c Hc).
Qed.

Lemma take_drop_around {A} (pre : list A) c post :
  take (length pre) (pre ++ c :: post) = pre /\
  drop (S (length pre)) (pre ++ c :: post) = post.
Proof.
  split; [apply take_app_length|].
  rewrite (cons_middle c pre post), app_assoc.
  apply drop_app_length'. rewrite length_app. cbn. lia.
Qed.

Lemma NewFromString_number negative intPart fractionalPart :
  Forall (fun c => is_digit c = true) intPart ->
  Forall (fun c => is_digit c = true) fractionalPart ->
  intPart <> [] ->
  - 2 ^ 31 <= - Z.of_nat (length fractionalPart) ->
  NewFromString_chars (number_chars negative intPart fractionalPart) =
    Some (mkDecimal
            (if negative then - digits_value 0 (intPart ++ fractionalPart)
             else digits_value 0 (intPart ++ fractionalPart))
            (- Z.of_nat (length fractionalPart))).
Proof.
  intros Hi Hf Hne Hrange.
  destruct (sign_chars_plain negative) as [Hs1 Hs2].
  destruct (digits_plain _ Hi) as [Hi1 Hi2]. destruct (digits_plain _ Hf) as [Hf1 Hf2].
  unfold NewFromString_chars, number_chars.
  destruct fractionalPart as [|f fs].
  - rewrite index_Ee_None by (apply Forall_app; split; assumption). cbn [mbind option_bind].
    rewrite point_index_no_point by (apply Forall_app; split; assumption). cbn [mbind option_bind].
    rewrite big_SetString_signed by assumption. cbn [mbind option_bind].
    rewrite app_nil_r. reflexivity.
  - set (fp := f :: fs) in *.
    assert (Hdot : Forall (fun c => (Ascii.eqb c "E" || Ascii.eqb c "e")%char = false)
                     (sign_chars negative ++ intPart ++ "."%char :: fp)).
    { apply Forall_app; split; [assumption|]. apply Forall_app; split; [assumption|].
      constructor; [reflexivity|assumption]. }
    rewrite index_Ee_None by exact Hdot. cbn [mbind option_bind].
    rewrite (app_assoc (sign_chars negative) intPart).
    rewrite point_index_one_point by (try apply Forall_app; auto).
    cbn [mbind option_bind]. rewrite Nat.add_0_l.
    destruct (take_drop_around (sign_chars negative ++ intPart) "."%char fp) as [-> ->].
    rewrite <- app_assoc.
    rewrite big_SetString_signed; [| apply Forall_app; split; assumption
                                   | destruct intPart; [contradiction|discriminate]].
    cbn [mbind option_bind]. rewrite Z.add_0_l.
    replace ((- Z.of_nat (length fp) <? - 2 ^ 31) || (2 ^ 31 - 1 <? - Z.of_nat (length fp)))
      with false; [reflexivity|].
    symmetry. apply orb_false_iff. split; apply Z.ltb_ge; lia.
Qed.

Lemma String_chars_parts d :
  exp d < 0 ->
  exists intPart fractionalPart,
    Forall (fun c => is_digit c = true) intPart /\
    Forall (fun c => is_digit c = true) fractionalPart /\
    intPart <> [] /\
    length fractionalPart = Z.to_nat (- exp d) /\
    digits_value 0 (intPart ++ fractionalPart) = Z.abs (value d) /\
    String_chars d = number_chars (value d <? 0) intPart (trim_trailing_zeros fractionalPart).
Proof.
  intros He. unfold String_chars.
  destruct (Z.leb_spec 0 (exp d)); [lia|].
  rewrite big_String_signed. replace (Z.abs (value d) <? 0) with false
    by (symmetry; apply Z.ltb_ge, Z.abs_nonneg).
  cbn [sign_chars app]. rewrite Z.abs_idemp.
  destruct (digits_spec (Z.abs (value d)) (Z.abs_nonneg _)) as (Hall & Hval & Hne).
  set (str := digits (Z.abs (value d))) in *.
  set (k := Z.to_nat (- exp d)).
  assert (Hsign : (Sign d <? 0) = (value d <? 0)) by exact (IsNegative_value d).
  destruct (Nat.ltb_spec k (length str)) as [Hlong|Hshort].
  - exists (take (length str - k) str), (drop (length str - k) str).
    split; [apply Forall_take; exact Hall|]. split; [apply Forall_drop; exact Hall|].
    split; [intros Heq; apply (f_equal length) in Heq; rewrite length_take in Heq;
            cbn [length] in Heq; lia|].
    split; [rewrite length_drop; lia|]. split; [rewrite take_drop; exact Hval|].
    rewrite Hsign. unfold number_chars.
    destruct (trim_trailing_zeros (drop (length str - k) str));
      destruct (value d <? 0); reflexivity.
  - exists ["0"%char], (replicate (k - length str) "0"%char ++ str).
    split; [repeat constructor|]. split; [apply Forall_app; split; [apply Forall_replicate; reflexivity|exact Hall]|].
    split; [discriminate|]. split; [rewrite length_app, length_replicate; lia|].
    split.
    + cbn [app]. change (digits_value 0 ("0"%char :: ?l)) with (digits_value 0 l).
      rewrite digits_value_app, digits_value_zeros. cbn. exact Hval.
    + rewrite Hsign. unfold number_chars.
      destruct (trim_trailing_zeros (replicate (k - length str) "0"%char ++ str));
        destruct (value d <? 0); reflexivity.
Qed.

Lemma Forall_trim_trailing_zeros (P : ascii -> Prop) l :
  Forall P l -> Forall P (trim_trailing_zeros l).
Proof.
  intros H. destruct (trim_trailing_zeros_spec l) as [t Ht].
  rewrite Ht in H. apply Forall_app in H as [H _]. exact H.
Qed.



(** ** Strings as the encoder writes them *)

Lemma written_valid (s : list ascii) : forall pending,
  utf8.valid pending s = true -> json.written pending s = s.
Proof.
  induction s as [|c rest IH]; intros pending; cbn [utf8.valid json.written]; [reflexivity|].
  destruct pending as [|pending].
  - destruct (utf8.rune_size c rest) as [size|]; [|discriminate].
    intros H. rewrite (IH _ H). reflexivity.
  - intros H. rewrite (IH _ H). reflexivity.
Qed.

Lemma string_Marshal_valid (s : string) :
  utf8.ValidString s = true -> json.string_Marshal s = s.
Proof.
  unfold utf8.ValidString, json.string_Marshal. intros H.
  rewrite (written_valid _ _ H). apply String.string_of_list_ascii_of_string.
Qed.

Lemma insert_sorted_Permutation {A} (kv : string * A) l : json.insert_sorted kv l ≡ₚ kv :: l.
Proof.
  induction l as [|kv' l IH]; cbn [json.insert_sorted]; [reflexivity|].
  destruct (String.leb (fst kv) (fst kv')); [reflexivity|].
  rewrite IH. apply Permutation_swap.
Qed.

Lemma sorted_entries_Permutation {A} (l : list (string * A)) : json.sorted_entries l ≡ₚ l.
Proof.
  induction l as [|kv l IH]; cbn [json.sorted_entries foldr]; [reflexivity|].
  rewrite insert_sorted_Permutation. fold (json.sorted_entries l). rewrite IH. reflexivity.
Qed.

(** The entries written for a map: its keys once each, and the map read
    back from them is the map. *)
Lemma sorted_entries_map (m : gmap Currency Decimal) :
  NoDup (fst <$> json.sorted_entries (map_to_list m)) /\
  (list_to_map (json.sorted_entries (map_to_list m)) : gmap Currency Decimal) = m /\
  forall kv, kv ∈ json.sorted_entries (map_to_list m) <-> m !! fst kv = Some (snd kv).
Proof.
  pose proof (sorted_entries_Permutation (map_to_list m)) as Hp.
  assert (Hnd : NoDup (fst <$> json.sorted_entries (map_to_list m))).
  { rewrite Hp. apply NoDup_fst_map_to_list. }
  split; [exact Hnd|]. split.
  - rewrite (list_to_map_proper _ _ Hnd Hp). apply list_to_map_to_list.
  - intros [k d]. rewrite Hp. cbn [fst snd]. apply elem_of_map_to_list.
Qed.

Lemma keys_written_valid {A} (f : Decimal -> A) (l : list (Currency * Decimal)) :
  Forall (fun kv => utf8.ValidString (fst kv) = true) l ->
  (fun kv => (json.string_Marshal (fst kv), f (snd kv))) <$> l =
  (fun kv => (fst kv, f (snd kv))) <$> l.
Proof.
  induction 1 as [|[k d] l Hk _ IH]; [reflexivity|].
  cbn [fmap list_fmap fst snd] in *. rewrite (string_Marshal_valid k Hk). f_equal. exact IH.
Qed.

(** ** Snapshots *)



Lemma foldl_insert_lookup (l : list (Currency * Decimal)) : forall (m0 : gmap Currency Decimal) c,
  NoDup (fst <$> l) ->
  foldl (fun m kv => <[fst kv := reparse (snd kv)]> m) m0 l !! c =
    match (list_to_map l : gmap Currency Decimal) !! c with
    | Some d => Some (reparse d)
    | None => m0 !! c
    end.
Proof.
  induction l as [|[k d] l IH]; intros m0 c Hnd; cbn [foldl fst snd].
  - change (list_to_map [] : gmap Currency Decimal) with (∅ : gmap Currency Decimal).
    rewrite lookup_empty. reflexivity.
  - cbn [fmap list_fmap fst] in Hnd. apply NoDup_cons in Hnd as [Hk Hnd].
    rewrite IH by exact Hnd.
    change (list_to_map ((k, d) :: l) : gmap Currency Decimal)
      with (<[k := d]> (list_to_map l : gmap Currency Decimal)).
    destruct (decide (k = c)) as [<-|Hne].
    + rewrite !lookup_insert_eq.
      rewrite (not_elem_of_list_to_map_1 l k Hk). reflexivity.
    + rewrite !lookup_insert_ne by exact Hne. reflexivity.
Qed.

Lemma decoded_balances_lookup (m : gmap Currency Decimal) c :
  foldl (fun m kv => <[fst kv := reparse (snd kv)]> m)
    (∅ : gmap Currency Decimal) (json.sorted_entries (map_to_list m)) !! c =
    reparse <$> m !! c.
Proof.
  destruct (sorted_entries_map m) as (Hnd & Hmap & _).
  rewrite foldl_insert_lookup by exact Hnd.
  rewrite Hmap. destruct (m !! c); [reflexivity|apply lookup_empty].
Qed.

Lemma entries_valid (a : Account) :
  currencies_valid a ->
  Forall (fun kv => utf8.ValidString (fst kv) = true)
    (json.sorted_entries (map_to_list (Balances a))).
Proof.
  intros Hvalid. apply Forall_forall. intros [k d] Hin.
  apply (sorted_entries_map (Balances a)) in Hin. exact (Hvalid k d Hin).
Qed.





(** ** Further properties *)

(** X1 (witness). With two stored events, skip 1 and limit 1 return the
    second event alone. *)
Lemma GetTransactionHistory_page_witness :
  GetTransactionHistory service_two_events (mkGetHistoryQuery "acc-1" 1 1)
    = Returned [ deposit_at 2 2 ].
Proof.
  rewrite (GetTransactionHistory_page service_two_events (mkGetHistoryQuery "acc-1" 1 1)
             [ created_v1; deposit_at 2 2 ]).
  - reflexivity.
  - reflexivity.
  - discriminate.
  - cbn. lia.
  - right. vm_compute. discriminate.
Defined.

(** X2 (witness). Appending version 2 to the stream of "acc-1" keeps the
    store well formed. *)
Lemma SaveEvents_preserves_wf_witness :
  store_wf (snd (SaveEvents store_acc1 "acc-1" 1 [deposit_at 2 2])).
Proof.
  apply (SaveEvents_preserves_wf store_acc1 "acc-1" 1 [deposit_at 2 2]).
  - exact store_acc1_wf.
  - vm_compute. discriminate.
  - vm_compute. reflexivity.
Defined.

(** X3 (witness). The source side of a transfer: 50 of the 200 USD of
    [acc_source] are debited by the event of version 2. *)
Lemma ApplyEvent_MoneyTransferred_witness :
  ApplyEvent acc_source
    (MoneyTransferredEvent (NewBaseEvent 4 0 "acc-source" 2 MoneyTransferredType)
       "transfer-123" "acc-source" "acc-target"
       (New 50 0) USD (New 50 0) USD (New 1 0)) =
    (None, {| ID := "acc-source";
              Balances := {[ USD := New 150 0; GBP := New 100 0 ]};
              Version := 2;
              changes := [] |}).
Proof.
  rewrite (ApplyEvent_MoneyTransferred acc_source) by reflexivity.
  vm_compute. reflexivity.
Defined.

(** X4. A command that is handled without an error emits exactly one
    event: the pending changes grow by one event, whose version is the next
    one and becomes the version of the aggregate. *)
Theorem Handle_success_one_event (uuid_New : UUID) (time_Now : Time) (a a' : Account)
    (c : Command) (Hok : Handle uuid_New time_Now a c = Returns (None, a')) :
  exists event,
    changes a' = changes a ++ [event] /\
    events.Version (GetBase event) = GoInt.add (Version a) 1 /\
    Version a' = GoInt.add (Version a) 1.
Proof.
  apply Handle_emits in Hok as (event & a0 & Happ & -> & _).
  apply ApplyEvent_success in Happ as (Hv & Hv' & _ & _).
  exists event. cbn. rewrite Hv'. auto.
Qed.

(** X4 (witness). A deposit on [acc_A_v2] queues one event of version 3. *)
Lemma Handle_success_one_event_witness :
  exists a' event,
    Handle 2 20 acc_A_v2 (Deposit (New 200 0) USD) = Returns (None, a') /\
    changes a' = [event] /\
    events.Version (GetBase event) = 3 /\
    Version a' = 3.
Proof.
  destruct (Handle 2 20 acc_A_v2 (Deposit (New 200 0) USD)) as [[[err|] a']|reason] eqn:E;
    try (vm_compute in E; discriminate).
  destruct (Handle_success_one_event 2 20 acc_A_v2 a' _ E) as (event & Hc & Hv & Hv').
  exists a', event. split; [reflexivity|]. split; [exact Hc|]. split; [exact Hv|exact Hv'].
Defined.

Lemma first_after_numbered (l : list Event) : forall (base : Z) (v : Z) (i : nat),
  (forall j e, l !! j = Some e -> events.Version (GetBase e) = base + Z.of_nat j + 1) ->
  base <= v ->
  first_after l v i =
    if v - base <? GoInt.len l then Some (i + Z.to_nat (v - base))%nat else None.
Proof.
  induction l as [|e l IH]; intros base v i Hnum Hv.
  - cbn [first_after]. change (GoInt.len (@nil Event)) with 0.
    destruct (Z.ltb_spec (v - base) 0); [lia|reflexivity].
  - cbn [first_after]. rewrite (Hnum O e eq_refl).
    change (GoInt.len (e :: l)) with (Z.of_nat (S (length l))).
    destruct (Z.ltb_spec v (base + Z.of_nat O + 1)) as [Hlt|Hge].
    + replace (v - base) with 0 by lia.
      destruct (Z.ltb_spec 0 (Z.of_nat (S (length l)))); [|lia].
      rewrite Nat.add_0_r. reflexivity.
    + rewrite (IH (base + 1) v (S i)); [| |lia].
      * unfold GoInt.len.
        destruct (Z.ltb_spec (v - (base + 1)) (Z.of_nat (length l)));
          destruct (Z.ltb_spec (v - base) (Z.of_nat (S (length l)))); try lia; [|reflexivity].
        f_equal. lia.
      * intros j e' Hj. rewrite (Hnum (S j) e' Hj). lia.
Qed.

(** X5. On a store written by [SaveEvents], [GetEventsAfterVersion]
    returns the stream without its first [version] events: exactly the stored
    events whose version is greater, in order. *)
Theorem GetEventsAfterVersion_tail (s : InMemoryEventStore) (aggregateID : string)
    (version : Z) (Hwf : store_wf s) (Hversion : 0 <= version) :
  GetEventsAfterVersion s aggregateID version =
    (drop (Z.to_nat version) (default [] (streams s !! aggregateID)), None) /\
  forall i e, default [] (streams s !! aggregateID) !! i = Some e ->
    (version < events.Version (GetBase e) <-> (Z.to_nat version <= i)%nat).
Proof.
  unfold GetEventsAfterVersion.
  destruct (streams s !! aggregateID) as [stream|] eqn:E; simpl.
  - destruct (Hwf aggregateID stream E) as [Hs _]. split.
    + rewrite (first_after_numbered stream 0 version O); [| |lia].
      * rewrite Z.sub_0_r. destruct (Z.ltb_spec version (GoInt.len stream)) as [Hin|Hout].
        -- reflexivity.
        -- rewrite drop_ge by (unfold GoInt.len in Hout; lia). reflexivity.
      * intros j e Hj. destruct (Hs j e Hj) as [-> _]. lia.
    + intros i e Hi. destruct (Hs i e Hi) as [-> _]. lia.
  - split; [rewrite drop_nil; reflexivity|]. intros i e Hi. destruct i; discriminate.
Qed.

(** X5 (witness). After version 1 of "acc-1" comes the deposit of
    version 2. *)
Lemma GetEventsAfterVersion_tail_witness :
  GetEventsAfterVersion (eventStore service_two_events) "acc-1" 1 = ([deposit_at 2 2], None).
Proof.
  destruct (GetEventsAfterVersion_tail (eventStore service_two_events) "acc-1" 1) as [H _].
  - intros id stream Hs. cbn in Hs. apply lookup_singleton_Some in Hs as [<- <-]. split.
    + intros [|[|i]] e Hi; try discriminate; injection Hi as <-; split; reflexivity.
    + vm_compute. discriminate.
  - lia.
  - rewrite H. reflexivity.
Defined.

(** * Further properties of the code *)

(** ** Money *)

Lemma GreaterThan_toQ a b : GreaterThan a b = true <-> (toQ b < toQ a)%Q.
Proof.
  unfold GreaterThan. rewrite Cmp_toQ, Qgt_alt.
  destruct (toQ a ?= toQ b)%Q; split; congruence.
Qed.

Lemma IsZero_toQ a : IsZero a = true <-> (toQ a == 0)%Q.
Proof.
  unfold IsZero, Sign. rewrite Z.eqb_eq, Z.sgn_null_iff. unfold toQ.
  assert (Hp : (0 < (10 # 1) ^ exp a)%Q) by (apply Qpower_0_lt, ten_pos).
  split; intros H.
  - rewrite H. apply Qmult_0_l.
  - apply Qmult_integral in H as [H|H].
    + unfold Qeq in H; cbn in H. lia.
    + rewrite H in Hp. exfalso. revert Hp. apply Qlt_irrefl.
Qed.

(** X6. Adding an amount of money and subtracting it again gives back
    the amount one started from: for two amounts in the same currency,
    [Add] and then [Subtract] succeed, the sum denotes the sum of the two
    numbers, and the result has the currency and, by [Equal], the amount of
    the first. Across currencies [Add] and [Subtract] return the zero
    [Money] and an error. *)
Theorem Money_Add_Subtract (m other : Money) :
  (MoneyCurrency m = MoneyCurrency other ->
   exists sum back,
     Money_Add m other = (sum, None) /\
     Money_Subtract sum other = (back, None) /\
     MoneyCurrency sum = MoneyCurrency m /\
     (toQ (MoneyAmount sum) == toQ (MoneyAmount m) + toQ (MoneyAmount other))%Q /\
     MoneyCurrency back = MoneyCurrency m /\
     Equal (MoneyAmount back) (MoneyAmount m) = true) /\
  (MoneyCurrency m <> MoneyCurrency other ->
   exists err1 err2,
     Money_Add m other = (Money_zero, Some err1) /\
     Money_Subtract m other = (Money_zero, Some err2)).
Proof.
  unfold Money_Add, Money_Subtract. split.
  - intros Hcur. rewrite Hcur, String.eqb_refl; cbn [negb].
    eexists _, _. split; [reflexivity|]. cbn [NewMoney MoneyCurrency MoneyAmount].
    rewrite String.eqb_refl; cbn [negb]. split; [reflexivity|]. cbn.
    split; [reflexivity|]. split; [apply toQ_Add|]. split; [reflexivity|].
    apply Equal_toQ. rewrite toQ_Sub, toQ_Add. ring.
  - intros Hcur. destruct (String.eqb_spec (MoneyCurrency m) (MoneyCurrency other));
      [contradiction|]. cbn [negb]. eexists _, _. split; reflexivity.
Qed.

(** X6 (witness). 10.50 USD plus 2 USD is 12.50 USD, and minus 2 USD it is
    10.50 USD again. *)
Lemma Money_Add_Subtract_witness :
  exists sum back,
    Money_Add (NewMoney (New 1050 (-2)) USD) (NewMoney (New 2 0) USD) = (sum, None) /\
    Money_Subtract sum (NewMoney (New 2 0) USD) = (back, None) /\
    String (MoneyAmount sum) = "12.5" /\
    Equal (MoneyAmount back) (New 1050 (-2)) = true.
Proof.
  destruct (Money_Add_Subtract (NewMoney (New 1050 (-2)) USD) (NewMoney (New 2 0) USD))
    as [H _].
  destruct (H eq_refl) as (sum & back & Ha & Hs & _ & _ & _ & He).
  exists sum, back. split; [exact Ha|]. split; [exact Hs|]. split; [|exact He].
  vm_compute in Ha. injection Ha as <-. vm_compute. reflexivity.
Defined.

(** X7. The comparisons and sign tests of [Money] decide the order of the
    numbers the amounts denote, whatever their representation: in the same
    currency [GreaterThan] holds exactly when the amount is greater and
    [GreaterThanOrEqual] exactly when it is not smaller, so each is the
    negation of the other with the arguments swapped; across currencies both
    return [false] with an error. *)
Theorem Money_comparisons (m other : Money) :
  (MoneyCurrency m = MoneyCurrency other ->
   exists gt ge,
     Money_GreaterThan m other = (gt, None) /\
     Money_GreaterThanOrEqual m other = (ge, None) /\
     (gt = true <-> (toQ (MoneyAmount other) < toQ (MoneyAmount m))%Q) /\
     (ge = true <-> (toQ (MoneyAmount other) <= toQ (MoneyAmount m))%Q) /\
     Money_GreaterThanOrEqual m other = (negb (fst (Money_GreaterThan other m)), None)) /\
  (MoneyCurrency m <> MoneyCurrency other ->
   exists err1 err2,
     Money_GreaterThan m other = (false, Some err1) /\
     Money_GreaterThanOrEqual m other = (false, Some err2)) /\
  (Money_IsPositive m = true <-> (0 < toQ (MoneyAmount m))%Q) /\
  (Money_IsZero m = true <-> (toQ (MoneyAmount m) == 0)%Q) /\
  (Money_IsNegative m = true <-> (toQ (MoneyAmount m) < 0)%Q).
Proof.
  unfold Money_GreaterThan, Money_GreaterThanOrEqual. split; [|split].
  - intros Hcur. rewrite Hcur, String.eqb_refl; cbn [negb fst].
    eexists _, _. split; [reflexivity|]. split; [reflexivity|].
    split; [apply GreaterThan_toQ|]. split; [apply GreaterThanOrEqual_toQ|].
    f_equal. unfold GreaterThanOrEqual, GreaterThan. rewrite !Cmp_toQ.
    rewrite <- (Qcompare_antisym (toQ (MoneyAmount m)) (toQ (MoneyAmount other))).
    destruct (toQ (MoneyAmount m) ?= toQ (MoneyAmount other))%Q; reflexivity.
  - intros Hcur. destruct (String.eqb_spec (MoneyCurrency m) (MoneyCurrency other));
      [contradiction|]. cbn [negb]. eexists _, _. split; reflexivity.
  - split; [apply IsPositive_toQ|]. split; [apply IsZero_toQ|apply IsNegative_toQ].
Qed.

(** X7 (witness). 1.50 and 1.5 USD: neither is greater, each is at least
    the other. *)
Lemma Money_comparisons_witness :
  exists gt ge,
    Money_GreaterThan (NewMoney (New 150 (-2)) USD) (NewMoney (New 15 (-1)) USD) = (gt, None) /\
    Money_GreaterThanOrEqual (NewMoney (New 150 (-2)) USD) (NewMoney (New 15 (-1)) USD)
      = (ge, None) /\
    gt = false /\ ge = true.
Proof.
  destruct (Money_comparisons (NewMoney (New 150 (-2)) USD) (NewMoney (New 15 (-1)) USD))
    as [H _].
  destruct (H eq_refl) as (gt & ge & Hgt & Hge & _).
  exists gt, ge. split; [exact Hgt|]. split; [exact Hge|].
  vm_compute in Hgt, Hge. injection Hgt as <-. injection Hge as <-. split; reflexivity.
Defined.

(** ** Outcomes of the command handlers *)

Lemma install_balances_balanceEntries (m : gmap Currency Decimal) :
  install_balances (balanceEntries m) = m.
Proof.
  assert (Hnd : NoDup (Currency_ <$> balanceEntries m)).
  { unfold balanceEntries. rewrite <- list_fmap_compose.
    apply (NoDup_fst_map_to_list m). }
  assert (Hin : forall c d, mkBalance c d ∈ balanceEntries m <-> m !! c = Some d).
  { intros c d. unfold balanceEntries. rewrite list_elem_of_fmap. split.
    - intros ([c' d'] & [= -> ->] & H). apply elem_of_map_to_list. exact H.
    - intros H. exists (c, d). split; [reflexivity|]. apply elem_of_map_to_list. exact H. }
  apply map_eq. intros c. destruct (m !! c) as [d|] eqn:E.
  - apply (install_balances_lookup _ (mkBalance c d) Hnd). apply Hin. exact E.
  - destruct (install_balances (balanceEntries m) !! c) as [d|] eqn:E'; [|reflexivity].
    apply install_balances_elem, Hin in E'. congruence.
Qed.

Lemma handleChange_applied a event :
  handleChange a event =
    match ApplyEvent a event with
    | (Some err, a) => (Some (Errorf_w "internal error applying event %T: %w" err), a)
    | (None, a0) => (None, set_changes a0 (changes a ++ [event]))
    end.
Proof.
  unfold handleChange. destruct (ApplyEvent a event) as [[err|] a0] eqn:E; [reflexivity|].
  destruct (ApplyEvent_success _ _ _ E) as (_ & _ & -> & _). reflexivity.
Qed.

Lemma initialized_false a :
  ID a <> "" -> Version a <> 0 -> String.eqb (ID a) "" || (Version a =? 0) = false.
Proof.
  intros Hid Hv. apply orb_false_iff. split; [apply String.eqb_neq|apply Z.eqb_neq]; assumption.
Qed.

Lemma uninitialized_true a :
  ID a = "" \/ Version a = 0 -> String.eqb (ID a) "" || (Version a =? 0) = true.
Proof.
  intros [H|H]; rewrite H; [reflexivity|]. rewrite Z.eqb_refl. apply orb_true_r.
Qed.

Lemma not_IsPositive_toQ a : IsPositive a = false <-> (toQ a <= 0)%Q.
Proof.
  split; intros H.
  - apply Qnot_lt_le. intros L. apply IsPositive_toQ in L. congruence.
  - destruct (IsPositive a) eqn:E; [|reflexivity].
    apply IsPositive_toQ in E. exfalso. revert E. apply Qle_not_lt, H.
Qed.

(** The handlers when every test passes. *)
Lemma HandleDeposit_applied uuid_New time_Now a amount currency :
  ID a <> "" -> Version a <> 0 -> IsPositive amount = true ->
  HandleDeposit uuid_New time_Now a amount currency =
    (None,
     {| ID := ID a;
        Balances := <[currency := Add (getBalance a currency) amount]> (Balances a);
        Version := GoInt.add (Version a) 1;
        changes := changes a ++
          [DepositMadeEvent
             (NewBaseEvent uuid_New time_Now (ID a) (GoInt.add (Version a) 1) DepositMadeType)
             amount currency] |}).
Proof.
  intros Hid Hv Hpos. unfold HandleDeposit.
  rewrite (initialized_false a Hid Hv), Hpos; cbn [negb].
  rewrite handleChange_applied.
  unfold ApplyEvent; cbn [GetBase NewBaseEvent events.Version].
  rewrite Z.eqb_refl; cbn [negb]. reflexivity.
Qed.

Lemma HandleWithdraw_applied uuid_New time_Now a amount currency :
  ID a <> "" -> Version a <> 0 -> IsPositive amount = true ->
  GreaterThanOrEqual (getBalance a currency) amount = true ->
  HandleWithdraw uuid_New time_Now a amount currency =
    (None,
     {| ID := ID a;
        Balances := <[currency := Sub (getBalance a currency) amount]> (Balances a);
        Version := GoInt.add (Version a) 1;
        changes := changes a ++
          [WithdrawalMadeEvent
             (NewBaseEvent uuid_New time_Now (ID a) (GoInt.add (Version a) 1) WithdrawalMadeType)
             amount currency] |}).
Proof.
  intros Hid Hv Hpos Hfunds. unfold HandleWithdraw. rewrite Money_compare_same.
  rewrite (initialized_false a Hid Hv), Hpos, Hfunds; cbn [negb].
  rewrite handleChange_applied.
  unfold ApplyEvent; cbn [GetBase NewBaseEvent events.Version].
  rewrite Z.eqb_refl; cbn [negb].
  rewrite (Sub_nonneg_of_GreaterThanOrEqual _ _ Hfunds). reflexivity.
Qed.

Lemma HandleWithdraw_insufficient uuid_New time_Now a amount currency :
  ID a <> "" -> Version a <> 0 -> IsPositive amount = true ->
  GreaterThanOrEqual (getBalance a currency) amount = false ->
  HandleWithdraw uuid_New time_Now a amount currency =
    (Some (Errorf_w "%w: requested %s %s, available %s %s" ErrInsufficientFunds), a).
Proof.
  intros Hid Hv Hpos Hfunds. unfold HandleWithdraw. rewrite Money_compare_same.
  rewrite (initialized_false a Hid Hv), Hpos, Hfunds. reflexivity.
Qed.

Lemma HandleCreateAccount_applied uuid_New time_Now a id (initialBalances : gmap Currency Decimal) :
  Version a <= 0 -> id <> "" ->
  (forall currency amount,
     initialBalances !! currency = Some amount -> IsNegative amount = false) ->
  HandleCreateAccount uuid_New time_Now a id initialBalances =
    (None,
     {| ID := id;
        Balances := initialBalances;
        Version := GoInt.add (Version a) 1;
        changes := changes a ++
          [AccountCreatedEvent
             (NewBaseEvent uuid_New time_Now id (GoInt.add (Version a) 1) AccountCreatedType)
             (balanceEntries initialBalances)] |}).
Proof.
  intros Hv Hid Hbal. unfold HandleCreateAccount.
  destruct (Z.ltb_spec 0 (Version a)); [lia|].
  destruct (String.eqb_spec id ""); [contradiction|].
  assert (Hex : existsb (fun kv => IsNegative (snd kv)) (map_to_list initialBalances) = false).
  { destruct (existsb _ _) eqn:E; [|reflexivity].
    apply existsb_exists in E as ([c d] & Hin & Hneg). cbn in Hneg.
    apply list_elem_of_In, elem_of_map_to_list in Hin.
    apply Hbal in Hin. congruence. }
  rewrite Hex. rewrite handleChange_applied.
  unfold ApplyEvent; cbn [GetBase NewBaseEvent events.Version].
  rewrite Z.eqb_refl; cbn [negb].
  rewrite install_balances_balanceEntries. reflexivity.
Qed.

Lemma getBalance_store_same a currency amount :
  getBalance (store_balance a currency amount) currency = amount.
Proof. unfold getBalance, store_balance; cbn. rewrite lookup_insert_eq. reflexivity. Qed.

Lemma HandleConvertCurrency_applied uuid_New time_Now a fromAmount fromCurrency toCurrency rate
    toAmount :
  ID a <> "" -> Version a <> 0 -> IsPositive fromAmount = true ->
  fromCurrency <> toCurrency -> IsPositive rate = true ->
  GreaterThanOrEqual (getBalance a fromCurrency) fromAmount = true ->
  Mul fromAmount rate = Returns toAmount ->
  HandleConvertCurrency uuid_New time_Now a fromAmount fromCurrency toCurrency rate =
    Returns
      (None,
       {| ID := ID a;
          Balances :=
            <[toCurrency := Add (getBalance a toCurrency) toAmount]>
              (<[fromCurrency := Sub (getBalance a fromCurrency) fromAmount]> (Balances a));
          Version := GoInt.add (Version a) 1;
          changes := changes a ++
            [CurrencyConvertedEvent
               (NewBaseEvent uuid_New time_Now (ID a) (GoInt.add (Version a) 1)
                  CurrencyConvertedType)
               fromAmount fromCurrency toAmount toCurrency rate] |}).
Proof.
  intros Hid Hv Hpos Hcur Hrate Hfunds Hmul.
  rewrite HandleConvertCurrency_checked by assumption. rewrite Hmul.
  rewrite handleChange_applied.
  unfold ApplyEvent; cbn [GetBase NewBaseEvent events.Version].
  rewrite Z.eqb_refl; cbn [negb].
  rewrite (Sub_nonneg_of_GreaterThanOrEqual _ _ Hfunds).
  rewrite getBalance_store_other by assumption. reflexivity.
Qed.

(** X8. [HandleDeposit] is decided by three tests. On an account that has
    an id and a version other than 0, a deposit of an amount greater than
    zero succeeds: the balance of the currency becomes the old balance (zero
    when the currency was not held) plus the amount, no other balance
    changes, the version goes up by one and the [DepositMadeEvent] is queued
    last. In every other case it returns a [*DomainError] and the account is
    as before. *)
Theorem HandleDeposit_outcome (uuid_New : UUID) (time_Now : Time) (a : Account)
    (amount : Decimal) (currency : Currency) :
  (ID a <> "" -> Version a <> 0 -> (0 < toQ amount)%Q ->
   HandleDeposit uuid_New time_Now a amount currency =
     (None,
      {| ID := ID a;
         Balances := <[currency := Add (getBalance a currency) amount]> (Balances a);
         Version := GoInt.add (Version a) 1;
         changes := changes a ++
           [DepositMadeEvent
              (NewBaseEvent uuid_New time_Now (ID a) (GoInt.add (Version a) 1) DepositMadeType)
              amount currency] |}) /\
   (toQ (Add (getBalance a currency) amount) == toQ (getBalance a currency) + toQ amount)%Q) /\
  (ID a = "" \/ Version a = 0 \/ (toQ amount <= 0)%Q ->
   exists err,
     HandleDeposit uuid_New time_Now a amount currency = (Some err, a) /\
     AsDomainError err = true).
Proof.
  split.
  - intros Hid Hv Hpos. apply IsPositive_toQ in Hpos.
    split; [apply HandleDeposit_applied; assumption|apply toQ_Add].
  - intros H. unfold HandleDeposit.
    destruct (String.eqb (ID a) "" || (Version a =? 0)) eqn:Hinit;
      [eexists; split; reflexivity|].
    apply orb_false_iff in Hinit as [Hid Hv].
    apply String.eqb_neq in Hid. apply Z.eqb_neq in Hv.
    destruct H as [H|[H|H]]; [contradiction|contradiction|].
    apply not_IsPositive_toQ in H. rewrite H; cbn [negb]. eexists; split; reflexivity.
Qed.

(** X8 (witness). 200 USD deposited on the 1200.50 USD of [acc_A_v2]:
    1400.50 USD at version 3. *)
Lemma HandleDeposit_outcome_witness :
  exists a',
    HandleDeposit 2 20 acc_A_v2 (New 200 0) USD = (None, a') /\
    Version a' = 3 /\
    String (getBalance a' USD) = "1400.5" /\
    Balances a' !! EUR = Some (New 500 0).
Proof.
  destruct (HandleDeposit_outcome 2 20 acc_A_v2 (New 200 0) USD) as [H _].
  destruct H as [H _].
  - discriminate.
  - discriminate.
  - reflexivity.
  - eexists. split; [exact H|]. vm_compute. repeat split; reflexivity.
Defined.

(** X9. [HandleWithdraw] on an account that has an id and a version
    other than 0, for an amount greater than zero, is decided by the funds:
    when the balance of the currency (zero when it is not held) is at least
    the amount, the withdrawal succeeds, the balance becomes the old one
    minus the amount, the version goes up by one and the
    [WithdrawalMadeEvent] is queued last; when it is smaller, the error
    returned is [ErrInsufficientFunds] (for [errors.Is]) and the account is as
    before. On an account without id or at version 0, or for an amount that is
    not greater than zero, the error is another [*DomainError]. *)
Theorem HandleWithdraw_outcome (uuid_New : UUID) (time_Now : Time) (a : Account)
    (amount : Decimal) (currency : Currency) :
  (ID a <> "" -> Version a <> 0 -> (0 < toQ amount)%Q ->
   (toQ amount <= toQ (getBalance a currency))%Q ->
   HandleWithdraw uuid_New time_Now a amount currency =
     (None,
      {| ID := ID a;
         Balances := <[currency := Sub (getBalance a currency) amount]> (Balances a);
         Version := GoInt.add (Version a) 1;
         changes := changes a ++
           [WithdrawalMadeEvent
              (NewBaseEvent uuid_New time_Now (ID a) (GoInt.add (Version a) 1) WithdrawalMadeType)
              amount currency] |}) /\
   (toQ (Sub (getBalance a currency) amount) == toQ (getBalance a currency) - toQ amount)%Q) /\
  (ID a <> "" -> Version a <> 0 -> (0 < toQ amount)%Q ->
   (toQ (getBalance a currency) < toQ amount)%Q ->
   exists err,
     HandleWithdraw uuid_New time_Now a amount currency = (Some err, a) /\
     Is err ErrInsufficientFunds = true) /\
  (ID a = "" \/ Version a = 0 \/ (toQ amount <= 0)%Q ->
   exists err,
     HandleWithdraw uuid_New time_Now a amount currency = (Some err, a) /\
     Is err ErrInsufficientFunds = false /\ AsDomainError err = true).
Proof.
  split; [|split].
  - intros Hid Hv Hpos Hfunds.
    apply IsPositive_toQ in Hpos. apply GreaterThanOrEqual_toQ in Hfunds.
    split; [apply HandleWithdraw_applied; assumption|apply toQ_Sub].
  - intros Hid Hv Hpos Hfunds. apply IsPositive_toQ in Hpos.
    rewrite HandleWithdraw_insufficient; [eexists; split; reflexivity|assumption..|].
    destruct (GreaterThanOrEqual (getBalance a currency) amount) eqn:Hge; [|reflexivity].
    apply GreaterThanOrEqual_toQ in Hge. exfalso. revert Hfunds. apply Qle_not_lt, Hge.
  - intros H. unfold HandleWithdraw. rewrite Money_compare_same.
    destruct (String.eqb (ID a) "" || (Version a =? 0)) eqn:Hinit;
      [eexists; repeat split; reflexivity|].
    apply orb_false_iff in Hinit as [Hid Hv].
    apply String.eqb_neq in Hid. apply Z.eqb_neq in Hv.
    destruct H as [H|[H|H]]; [contradiction|contradiction|].
    apply not_IsPositive_toQ in H. rewrite H; cbn [negb]. eexists; repeat split; reflexivity.
Qed.

(** X9 (witness). Account B holds 800 GBP: withdrawing 300 GBP leaves
    500 GBP at version 2. *)
Lemma HandleWithdraw_outcome_witness :
  exists a',
    HandleWithdraw 1 0 acc_B (New 300 0) GBP = (None, a') /\
    Version a' = 2 /\ Balances a' = {[ GBP := New 500 0 ]}.
Proof.
  destruct (HandleWithdraw_outcome 1 0 acc_B (New 300 0) GBP) as [H _].
  destruct H as [H _].
  - discriminate.
  - discriminate.
  - reflexivity.
  - vm_compute. discriminate.
  - eexists. split; [exact H|]. vm_compute. split; reflexivity.
Defined.

(** X10. [HandleCreateAccount] on an aggregate whose version is not
    greater than 0, with an id that is not empty and initial balances none of
    which is negative, succeeds: the aggregate takes the id given, its
    balances are exactly the initial balances, the version goes up by one and
    the [AccountCreatedEvent] carrying those balances is queued last. On an
    aggregate whose version is greater than 0 the error is
    [ErrAccountExists] and the aggregate is as before. *)
Theorem HandleCreateAccount_outcome (uuid_New : UUID) (time_Now : Time) (a : Account)
    (id : string) (initialBalances : gmap Currency Decimal) :
  (Version a <= 0 -> id <> "" ->
   (forall currency amount,
      initialBalances !! currency = Some amount -> (0 <= toQ amount)%Q) ->
   HandleCreateAccount uuid_New time_Now a id initialBalances =
     (None,
      {| ID := id;
         Balances := initialBalances;
         Version := GoInt.add (Version a) 1;
         changes := changes a ++
           [AccountCreatedEvent
              (NewBaseEvent uuid_New time_Now id (GoInt.add (Version a) 1) AccountCreatedType)
              (balanceEntries initialBalances)] |})) /\
  (0 < Version a ->
   exists err,
     HandleCreateAccount uuid_New time_Now a id initialBalances = (Some err, a) /\
     Is err ErrAccountExists = true).
Proof.
  split.
  - intros Hv Hid Hbal. apply HandleCreateAccount_applied; [assumption..|].
    intros currency amount H. apply not_IsNegative_toQ. exact (Hbal currency amount H).
  - intros Hv. unfold HandleCreateAccount. destruct (Z.ltb_spec 0 (Version a)); [|lia].
    eexists; split; reflexivity.
Qed.

(** X10 (witness). Creating "A" with 1000.50 USD and 500 EUR. *)
Lemma HandleCreateAccount_outcome_witness :
  exists a',
    HandleCreateAccount 1 10 (NewAccount "A") "A"
      {[ USD := New 100050 (-2); EUR := New 500 0 ]} = (None, a') /\
    ID a' = "A" /\ Version a' = 1 /\
    Balances a' = {[ USD := New 100050 (-2); EUR := New 500 0 ]}.
Proof.
  destruct (HandleCreateAccount_outcome 1 10 (NewAccount "A") "A"
              {[ USD := New 100050 (-2); EUR := New 500 0 ]}) as [H _].
  eexists. split; [apply H|repeat split].
  - cbn. lia.
  - discriminate.
  - intros currency amount Hl.
    apply lookup_insert_Some in Hl as [[_ <-]|[_ Hl]]; [vm_compute; discriminate|].
    apply lookup_singleton_Some in Hl as [_ <-]. vm_compute; discriminate.
Defined.

(** ** Replaying a history *)

Lemma ApplyEvents_app a h1 h2 :
  ApplyEvents a (h1 ++ h2) =
    match ApplyEvents a h1 with
    | (None, a1) => ApplyEvents a1 h2
    | failed => failed
    end.
Proof.
  revert a. induction h1 as [|e h1 IH]; intros a; [reflexivity|].
  cbn [app ApplyEvents]. destruct (ApplyEvent a e) as [[err|] a1]; [reflexivity|]. apply IH.
Qed.

(** What a successful replay tells about the history: the versions
    follow the version of the aggregate without a gap, in Go's arithmetic. *)
Lemma ApplyEvents_success history : forall a a',
  ApplyEvents a history = (None, a') ->
  (forall i e, history !! i = Some e ->
     events.Version (GetBase e) = GoInt.wrap (Version a + 1 + Z.of_nat i)) /\
  (history <> [] -> Version a' = GoInt.wrap (Version a + GoInt.len history)) /\
  changes a' = changes a.
Proof.
  induction history as [|e rest IH]; intros a a'; cbn [ApplyEvents].
  - intros [= <-]. split; [intros i e Hi; destruct i; discriminate|]. split; [congruence|reflexivity].
  - destruct (ApplyEvent a e) as [[err|] a1] eqn:E; [intros [=]|]. intros H.
    destruct (ApplyEvent_success _ _ _ E) as (Hv & Hv1 & Hc & _).
    destruct (IH _ _ H) as (Hvs & Hlast & Hcs).
    split; [|split].
    + intros [|i] e' Hi; cbn in Hi.
      * injection Hi as <-. rewrite Hv. unfold GoInt.add. f_equal. lia.
      * rewrite (Hvs i e' Hi), Hv1, Hv. unfold GoInt.add.
        replace (GoInt.wrap (Version a + 1) + 1 + Z.of_nat i)
          with (GoInt.wrap (Version a + 1) + (1 + Z.of_nat i)) by lia.
        rewrite wrap_wrap_add. f_equal. lia.
    + intros _. destruct rest as [|e' rest'].
      * cbn in H. injection H as <-. rewrite Hv1, Hv. reflexivity.
      * rewrite Hlast by discriminate. rewrite Hv1, Hv. unfold GoInt.add.
        rewrite wrap_wrap_add. f_equal.
        change (GoInt.len (e :: e' :: rest')) with (Z.of_nat (S (length (e' :: rest')))).
        unfold GoInt.len. lia.
    + congruence.
Qed.

Lemma ApplyEvents_failure history : forall a err a',
  ApplyEvents a history = (Some err, a') ->
  exists applied failing rest cause,
    history = applied ++ failing :: rest /\
    ApplyEvents a applied = (None, a') /\
    ApplyEvent a' failing = (Some cause, a') /\
    err = Errorf_w "failed to apply event %s (%T) at version %d during reconstruction: %w" cause.
Proof.
  induction history as [|e rest IH]; intros a err a'; cbn [ApplyEvents]; [intros [=]|].
  destruct (ApplyEvent a e) as [[cause|] a1] eqn:E.
  - intros [= <- <-]. pose proof (ApplyEvent_error_unchanged _ _ _ _ E) as ->.
    exists [], e, rest, cause. repeat split. exact E.
  - intros H. destruct (IH _ _ _ H) as (applied & failing & rest' & cause & -> & Happ & Hfail & ->).
    exists (e :: applied), failing, rest', cause. repeat split; [|exact Hfail].
    cbn [ApplyEvents]. rewrite E. exact Happ.
Qed.

(** X11. [ApplyEvents] is not all-or-nothing. When it returns an error,
    the history splits into the events before the failing one, the failing
    event and the rest: the receiver is left in the state reached by applying
    the events before the failing one (all of them applied, the version that
    of the last one), the failing event is refused by [ApplyEvent] in that
    state, the rest is not looked at, and the error wraps the error of
    [ApplyEvent]. *)
Theorem ApplyEvents_stops_at_first_failure (a : Account) (history : list Event)
    (err : error) (a' : Account)
    (Hfailed : ApplyEvents a history = (Some err, a')) :
  exists applied failing rest cause,
    history = applied ++ failing :: rest /\
    ApplyEvents a applied = (None, a') /\
    (applied <> [] -> Version a' = GoInt.wrap (Version a + GoInt.len applied)) /\
    ApplyEvent a' failing = (Some cause, a') /\
    err = Errorf_w "failed to apply event %s (%T) at version %d during reconstruction: %w" cause /\
    forall rest', fst (ApplyEvents a (applied ++ failing :: rest')) = Some err.
Proof.
  destruct (ApplyEvents_failure _ _ _ _ Hfailed)
    as (applied & failing & rest & cause & -> & Happ & Hfail & ->).
  exists applied, failing, rest, cause. repeat split; try assumption.
  - apply (ApplyEvents_success _ _ _ Happ).
  - intros rest'. rewrite ApplyEvents_app, Happ. cbn [ApplyEvents]. rewrite Hfail. reflexivity.
Qed.

(** X11 (witness). The history of the target account in
    [TestAccount_ApplyEvents]: the creation event is applied, the transfer
    event is refused, and the account stays at version 1 with its 50 EUR. *)
Lemma ApplyEvents_stops_at_first_failure_witness :
  exists err a' applied failing rest,
    ApplyEvents (NewAccount "acc-other-target") test_targetHistory = (Some err, a') /\
    test_targetHistory = applied ++ failing :: rest /\
    ApplyEvents (NewAccount "acc-other-target") applied = (None, a') /\
    Version a' = 1 /\ Balances a' = {[ EUR := New 50 0 ]}.
Proof.
  destruct (ApplyEvents (NewAccount "acc-other-target") test_targetHistory)
    as [[err|] a'] eqn:E; [|vm_compute in E; discriminate].
  destruct (ApplyEvents_stops_at_first_failure _ _ _ _ E)
    as (applied & failing & rest & cause & Hsplit & Happ & _ & _ & _ & _).
  exists err, a', applied, failing, rest.
  split; [reflexivity|]. split; [exact Hsplit|]. split; [exact Happ|].
  vm_compute in E. injection E as _ <-. split; reflexivity.
Defined.

(** X12. A history that [ApplyEvents] accepts continues the aggregate
    without a gap: for an aggregate whose version is a Go [int], the event at
    index [i] carries the version of the aggregate plus [i + 1], the version
    afterwards is the version before plus the number of events (both in Go's
    arithmetic), and the pending changes are not touched. *)
Theorem ApplyEvents_accepts_consecutive_versions (a : Account) (history : list Event)
    (a' : Account)
    (Hversion : GoInt.in_range (Version a))
    (Happlied : ApplyEvents a history = (None, a')) :
  (forall i e, history !! i = Some e ->
     events.Version (GetBase e) = GoInt.wrap (Version a + 1 + Z.of_nat i)) /\
  Version a' = GoInt.wrap (Version a + GoInt.len history) /\
  changes a' = changes a.
Proof.
  destruct (ApplyEvents_success _ _ _ Happlied) as (Hvs & Hlast & Hc).
  split; [exact Hvs|]. split; [|exact Hc].
  destruct history as [|e rest]; [|apply Hlast; discriminate].
  cbn in Happlied. injection Happlied as <-.
  change (GoInt.len (@nil Event)) with 0. rewrite Z.add_0_r.
  symmetry. apply wrap_in_range. exact Hversion.
Qed.

(** X12 (witness). Replaying the two stored events of "acc-1" from a new
    aggregate ends at version 2. *)
Lemma ApplyEvents_accepts_consecutive_versions_witness :
  exists a',
    ApplyEvents (NewAccount "acc-1") [ created_v1; deposit_at 2 2 ] = (None, a') /\
    Version a' = 2.
Proof.
  destruct (ApplyEvents (NewAccount "acc-1") [ created_v1; deposit_at 2 2 ])
    as [[err|] a'] eqn:E; [vm_compute in E; discriminate|].
  exists a'. split; [reflexivity|].
  destruct (ApplyEvents_accepts_consecutive_versions (NewAccount "acc-1")
              [ created_v1; deposit_at 2 2 ] a') as (_ & -> & _).
  - vm_compute. split; discriminate.
  - exact E.
  - reflexivity.
Defined.

Lemma ApplyEvent_set_changes a event l :
  ApplyEvent (set_changes a l) event =
    (fst (ApplyEvent a event), set_changes (snd (ApplyEvent a event)) l).
Proof.
  unfold ApplyEvent. cbn [set_changes Version].
  destruct (events.Version (GetBase event) =? GoInt.add (Version a) 1); cbn [negb];
    [|reflexivity].
  destruct event; unfold getBalance, store_balance; cbn; repeat case_match; reflexivity.
Qed.

Lemma run_replay cs : forall a a',
  run a cs = Some a' ->
  exists emitted,
    changes a' = changes a ++ emitted /\
    length emitted = length cs /\
    ApplyEvents (set_changes a []) emitted = (None, set_changes a' []).
Proof.
  induction cs as [|[[u t] c] cs IH]; intros a a'; cbn [run].
  - intros [= <-]. exists []. rewrite app_nil_r. repeat split.
  - destruct (Handle u t a c) as [[[err|] a1]|reason] eqn:E; [intros [=]| |intros [=]]. intros H.
    apply Handle_emits in E as (event & a0 & Happ & -> & _).
    destruct (IH _ _ H) as (emitted & Hc & Hlen & Hrep).
    exists (event :: emitted). cbn [set_changes changes] in Hc.
    split; [rewrite Hc, <- app_assoc; reflexivity|].
    split; [cbn; congruence|].
    cbn [ApplyEvents]. rewrite ApplyEvent_set_changes, Happ. cbn [fst snd].
    exact Hrep.
Qed.

(** X13. The events a sequence of commands queues are a faithful record
    of what the commands did. If the commands are all handled without error
    on an aggregate with nothing pending, one event per command is pending
    afterwards, and replaying the pending events on the aggregate as it was
    before the commands gives the aggregate as it is after them: same id,
    balances and version. *)
Theorem handled_commands_replay (a : Account) (cs : list (UUID * Time * Command))
    (a' : Account)
    (Hpending : changes a = [])
    (Hrun : run a cs = Some a') :
  length (changes a') = length cs /\
  ApplyEvents a (changes a') =
    (None, {| ID := ID a'; Balances := Balances a'; Version := Version a'; changes := [] |}).
Proof.
  destruct (run_replay cs a a' Hrun) as (emitted & Hc & Hlen & Hrep).
  rewrite Hpending in Hc. cbn [app] in Hc. rewrite Hc. split; [exact Hlen|].
  assert (Ha : set_changes a [] = a).
  { destruct a; cbn in Hpending |- *. rewrite Hpending. reflexivity. }
  rewrite Ha in Hrep. exact Hrep.
Qed.

(** X13 (witness). The five seed commands queue five events, whose replay
    on a new aggregate ends, as the commands did, at version 5 with 0 USD and
    592 EUR. *)
Lemma handled_commands_replay_witness :
  exists a' replayed,
    run (NewAccount "A") seed_commands = Some a' /\
    length (changes a') = 5%nat /\
    ApplyEvents (NewAccount "A") (changes a') = (None, replayed) /\
    Version replayed = 5 /\
    Balances replayed = {[ USD := New 0 (-2); EUR := New 59200 (-2) ]}.
Proof.
  destruct (run (NewAccount "A") seed_commands) as [a'|] eqn:E; [|vm_compute in E; discriminate].
  destruct (handled_commands_replay (NewAccount "A") seed_commands a' eq_refl E) as [Hlen Hrep].
  eexists _, _. split; [reflexivity|]. split; [exact Hlen|]. split; [exact Hrep|].
  vm_compute in E. injection E as <-. split; reflexivity.
Defined.

Lemma ApplyEvents_preserves_nonneg history : forall a a',
  balances_nonneg a -> Forall credit_nonneg history ->
  ApplyEvents a history = (None, a') -> balances_nonneg a'.
Proof.
  induction history as [|e rest IH]; intros a a' Ha Hc; cbn [ApplyEvents].
  - intros [= <-]. exact Ha.
  - apply Forall_cons in Hc as [He Hrest].
    destruct (ApplyEvent a e) as [[err|] a1] eqn:E; [intros [=]|].
    apply IH; [|exact Hrest]. exact (ApplyEvent_preserves_nonneg _ _ _ Ha He E).
Qed.

(** X14. Replay never produces a negative balance out of credits that are
    not negative: if no balance of the aggregate is negative and no event of
    the history credits a negative amount (initial balances, deposits,
    converted amounts), then after a replay that succeeds no balance is
    negative, whatever the debits were; a debit that would overdraw makes the
    replay fail instead. *)
Theorem replay_keeps_balances_nonneg (a : Account) (history : list Event) (a' : Account)
    (Hbalances : balances_nonneg a)
    (Hcredits : Forall credit_nonneg history)
    (Happlied : ApplyEvents a history = (None, a')) :
  forall currency amount,
    Balances a' !! currency = Some amount ->
    IsNegative amount = false /\ (0 <= toQ amount)%Q.
Proof.
  intros currency amount H.
  pose proof (ApplyEvents_preserves_nonneg _ _ _ Hbalances Hcredits Happlied currency amount H)
    as Hn.
  split; [exact Hn|]. apply not_IsNegative_toQ. exact Hn.
Qed.

(** X14 (witness). The two stored events of "acc-1" credit 2 USD and 1
    USD. *)
Lemma replay_keeps_balances_nonneg_witness :
  exists a',
    ApplyEvents (NewAccount "acc-1") [ created_v1; deposit_at 2 2 ] = (None, a') /\
    forall currency amount,
      Balances a' !! currency = Some amount ->
      IsNegative amount = false /\ (0 <= toQ amount)%Q.
Proof.
  eexists. split; [vm_compute; reflexivity|].
  apply (replay_keeps_balances_nonneg (NewAccount "acc-1") [ created_v1; deposit_at 2 2 ]).
  - apply NewAccount_nonneg.
  - repeat constructor.
    intros bal Hin. apply list_elem_of_singleton in Hin as ->. reflexivity.
  - vm_compute. reflexivity.
Defined.

(** ** Reading and writing the stores *)

Lemma len_eqb_0 {A} (l : list A) : l <> [] -> (GoInt.len l =? 0) = false.
Proof.
  intros H. apply Z.eqb_neq. destruct l; [contradiction|]. unfold GoInt.len; cbn. lia.
Qed.

Lemma SaveEvents_success s id expectedVersion batch s' :
  SaveEvents s id expectedVersion batch = (None, s') ->
  batch <> [] ->
  currentVersion s id = expectedVersion /\
  check_batch id expectedVersion batch = None /\
  s' = mkEventStore (<[id := default [] (streams s !! id) ++ batch]> (streams s)).
Proof.
  unfold SaveEvents. intros H Hne. rewrite (len_eqb_0 batch Hne) in H.
  destruct (Z.eqb_spec (currentVersion s id) expectedVersion) as [Hv|Hv]; cbn [negb] in H;
    [|discriminate].
  destruct (check_batch id expectedVersion batch) eqn:Hc; [discriminate|].
  injection H as <-. auto.
Qed.

Lemma SaveEvents_failure s id expectedVersion batch err s' :
  SaveEvents s id expectedVersion batch = (Some err, s') -> s' = s.
Proof.
  unfold SaveEvents. repeat case_match; intros [= _ <-] || intros [=]; reflexivity.
Qed.

(** X15. [SaveEvents] only ever appends. Whatever the call returns, every
    stream of the store before the call is a prefix of the stream of the same
    aggregate afterwards, and the streams of the other aggregates are as they
    were; a call that returns an error leaves the whole store as it was; a
    call that returns no error for a batch that is not empty has put the
    batch, in order, at the end of the stream of its aggregate. *)
Theorem SaveEvents_append_only (s : InMemoryEventStore) (aggregateID : string)
    (expectedVersion : Z) (newEvents : list Event)
    (result : option error) (s' : InMemoryEventStore)
    (Hcall : SaveEvents s aggregateID expectedVersion newEvents = (result, s')) :
  (forall id, default [] (streams s !! id) `prefix_of` default [] (streams s' !! id)) /\
  (forall id, id <> aggregateID -> streams s' !! id = streams s !! id) /\
  (result <> None -> s' = s) /\
  (result = None -> newEvents <> [] ->
   streams s' !! aggregateID =
     Some (default [] (streams s !! aggregateID) ++ newEvents)).
Proof.
  destruct result as [err|].
  - apply SaveEvents_failure in Hcall as ->. repeat split; try reflexivity; congruence.
  - destruct newEvents as [|e rest].
    + cbn in Hcall. injection Hcall as <-. repeat split; try reflexivity; congruence.
    + apply SaveEvents_success in Hcall as (_ & _ & ->); [|discriminate]. cbn [streams].
      split; [|split; [|split]].
      * intros id. destruct (decide (id = aggregateID)) as [->|Hne].
        -- rewrite lookup_insert_eq. cbn. apply prefix_app_r. reflexivity.
        -- rewrite lookup_insert_ne by congruence. reflexivity.
      * intros id Hne. rewrite lookup_insert_ne by congruence. reflexivity.
      * congruence.
      * intros _ _. apply lookup_insert_eq.
Qed.

(** X15 (witness). Appending the deposit of version 2 to the stream of
    "acc-1": the creation event stays first. *)
Lemma SaveEvents_append_only_witness :
  exists s',
    SaveEvents store_acc1 "acc-1" 1 [deposit_at 2 2] = (None, s') /\
    [created_v1] `prefix_of` default [] (streams s' !! "acc-1") /\
    streams s' !! "acc-1" = Some [created_v1; deposit_at 2 2].
Proof.
  destruct (SaveEvents store_acc1 "acc-1" 1 [deposit_at 2 2]) as [r s'] eqn:E.
  destruct (SaveEvents_append_only _ _ _ _ _ _ E) as (Hpre & _ & _ & Hnew).
  assert (Hr : r = None) by (vm_compute in E; congruence). subst r.
  exists s'. split; [reflexivity|]. split; [exact (Hpre "acc-1")|].
  rewrite Hnew by (reflexivity || discriminate). reflexivity.
Defined.

Lemma stream_wf_default s id : store_wf s -> stream_wf id (default [] (streams s !! id)).
Proof.
  intros Hwf. destruct (streams s !! id) as [stream|] eqn:E; simpl.
  - apply (Hwf id stream E).
  - intros i e Hi. destruct i; discriminate.
Qed.

(** The stream a successful [SaveEvents] leaves is numbered like the
    others. *)
Lemma SaveEvents_stream_wf s id expectedVersion batch :
  store_wf s ->
  GoInt.len (default [] (streams s !! id) ++ batch) <= GoInt.MaxInt ->
  currentVersion s id = expectedVersion ->
  check_batch id expectedVersion batch = None ->
  stream_wf id (default [] (streams s !! id) ++ batch) /\
  expectedVersion = GoInt.len (default [] (streams s !! id)).
Proof.
  intros Hwf Hfits Hv Hc.
  destruct (currentVersion_stored s id Hwf) as [_ Hlen].
  pose proof (len_nonneg (default [] (streams s !! id))) as Hpos.
  rewrite len_app in Hfits.
  apply (check_batch_None id batch expectedVersion) in Hc as [Hseq Hids];
    [|unfold GoInt.MinInt; lia|lia].
  split; [|congruence].
  intros i e Hi. apply lookup_app_Some in Hi as [Hi|[Hge Hi]].
  - apply (stream_wf_default s id Hwf). exact Hi.
  - split.
    + rewrite (Hseq _ _ Hi), <- Hv, Hlen. unfold GoInt.len. lia.
    + apply Hids. apply list_elem_of_lookup. eauto.
Qed.

Lemma GetEventsAfterVersion_numbered s id stream version :
  streams s !! id = Some stream -> stream_wf id stream -> 0 <= version ->
  GetEventsAfterVersion s id version = (drop (Z.to_nat version) stream, None).
Proof.
  intros Hs Hwf Hv. unfold GetEventsAfterVersion. rewrite Hs.
  rewrite (first_after_numbered stream 0 version O); [| |lia].
  - rewrite Z.sub_0_r. destruct (Z.ltb_spec version (GoInt.len stream)) as [Hin|Hout].
    + reflexivity.
    + rewrite drop_ge by (unfold GoInt.len in Hout; lia). reflexivity.
  - intros j e Hj. destruct (Hwf j e Hj) as [-> _]. lia.
Qed.

(** X16. What [SaveEvents] has written is what the readers return. On a
    store whose streams are numbered 1, 2, ... (as [SaveEvents] leaves them),
    after a call that returns no error for a batch that is not empty, and
    that fits a Go slice together with the stream: [GetEvents] returns the old
    stream followed by the batch, [GetEventsAfterVersion] asked for the
    expected version of the call returns the batch, and asked for the version
    of the last event of the batch it returns nothing. *)
Theorem SaveEvents_then_read (s : InMemoryEventStore) (aggregateID : string)
    (expectedVersion : Z) (newEvents : list Event) (s' : InMemoryEventStore)
    (Hwf : store_wf s)
    (Hfits : GoInt.len (default [] (streams s !! aggregateID) ++ newEvents) <= GoInt.MaxInt)
    (Hbatch : newEvents <> [])
    (Hsaved : SaveEvents s aggregateID expectedVersion newEvents = (None, s')) :
  GetEvents s' aggregateID = (default [] (streams s !! aggregateID) ++ newEvents, None) /\
  GetEventsAfterVersion s' aggregateID expectedVersion = (newEvents, None) /\
  GetEventsAfterVersion s' aggregateID (expectedVersion + GoInt.len newEvents) = ([], None) /\
  currentVersion s' aggregateID = expectedVersion + GoInt.len newEvents.
Proof.
  destruct (SaveEvents_success _ _ _ _ _ Hsaved Hbatch) as (Hv & Hc & ->).
  destruct (SaveEvents_stream_wf s aggregateID expectedVersion newEvents Hwf Hfits Hv Hc)
    as [Hswf Hlen].
  set (old := default [] (streams s !! aggregateID)) in *.
  assert (Hl : streams (mkEventStore (<[aggregateID := old ++ newEvents]> (streams s)))
                 !! aggregateID = Some (old ++ newEvents)) by apply lookup_insert_eq.
  pose proof (len_nonneg old) as Hpos. pose proof (len_nonneg newEvents) as Hpos'.
  split; [|split; [|split]].
  - unfold GetEvents. rewrite Hl. reflexivity.
  - rewrite (GetEventsAfterVersion_numbered _ _ _ _ Hl Hswf) by lia.
    rewrite Hlen. unfold GoInt.len. rewrite Nat2Z.id, drop_app_length. reflexivity.
  - rewrite (GetEventsAfterVersion_numbered _ _ _ _ Hl Hswf) by lia.
    rewrite drop_ge; [reflexivity|]. rewrite Hlen, length_app. unfold GoInt.len. lia.
  - unfold currentVersion. rewrite Hl.
    rewrite (stream_wf_last aggregateID (old ++ newEvents) Hswf), len_app. lia.
Qed.

(** X16 (witness). After the deposit of version 2 is saved for "acc-1",
    the events after version 1 are that deposit. *)
Lemma SaveEvents_then_read_witness :
  exists s',
    SaveEvents store_acc1 "acc-1" 1 [deposit_at 2 2] = (None, s') /\
    GetEvents s' "acc-1" = ([created_v1; deposit_at 2 2], None) /\
    GetEventsAfterVersion s' "acc-1" 1 = ([deposit_at 2 2], None) /\
    currentVersion s' "acc-1" = 2.
Proof.
  destruct (SaveEvents store_acc1 "acc-1" 1 [deposit_at 2 2]) as [r s'] eqn:E.
  assert (Hr : r = None) by (pose proof E as E'; vm_compute in E'; congruence).
  subst r. exists s'. split; [reflexivity|].
  destruct (SaveEvents_then_read store_acc1 "acc-1" 1 [deposit_at 2 2] s' store_acc1_wf)
    as (H1 & H2 & _ & H4).
  - vm_compute. discriminate.
  - discriminate.
  - exact E.
  - split; [exact H1|]. split; [exact H2|exact H4].
Defined.

(** X17. The snapshot store keeps one snapshot per aggregate, the last one
    saved. After [SaveSnapshot] of a snapshot, [GetLatestSnapshot] for its
    aggregate finds that snapshot, with the time of the save as timestamp,
    whatever was stored for the aggregate before; the snapshots of the other
    aggregates are as they were. Saving a nil snapshot returns an error and
    changes nothing, and an aggregate never saved is reported as not found,
    without error. *)
Theorem SaveSnapshot_GetLatestSnapshot (time_Now : Time) (s : InMemorySnapshotStore)
    (snapshot : Snapshot) :
  (exists s',
     SaveSnapshot time_Now s (Some snapshot) = (None, s') /\
     GetLatestSnapshot s' (SnapshotAggregateID snapshot) =
       (Some {| SnapshotAggregateID := SnapshotAggregateID snapshot;
                SnapshotVersion := SnapshotVersion snapshot;
                State := State snapshot;
                SnapshotTimestamp := time_Now |}, true, None) /\
     forall id, id <> SnapshotAggregateID snapshot ->
       GetLatestSnapshot s' id = GetLatestSnapshot s id) /\
  (exists err, SaveSnapshot time_Now s None = (Some err, s)) /\
  (forall id, snapshots s !! id = None -> GetLatestSnapshot s id = (None, false, None)).
Proof.
  split; [|split].
  - eexists. split; [reflexivity|]. unfold GetLatestSnapshot; cbn [snapshots]. split.
    + rewrite lookup_insert_eq. reflexivity.
    + intros id Hne. rewrite lookup_insert_ne by congruence. reflexivity.
  - eexists. reflexivity.
  - intros id H. unfold GetLatestSnapshot. rewrite H. reflexivity.
Qed.

(** X18. The two test helpers of the event store are inverse to each
    other: [GetStreamCopy] returns what [SetStream] installed for the
    aggregate, nil after a nil stream was set (the stream is deleted, and
    [GetEvents] returns an empty slice), and [SetStream] touches no other
    stream. The stream is installed as it is: [SetStream] does not look at the
    versions or ids of the events, and the version [SaveEvents] will expect
    next is the version of the last event installed. *)
Theorem SetStream_GetStreamCopy (s : InMemoryEventStore) (aggregateID : string)
    (stream : option (list Event)) :
  GetStreamCopy (SetStream s aggregateID stream) aggregateID = stream /\
  (forall id, id <> aggregateID ->
     GetStreamCopy (SetStream s aggregateID stream) id = GetStreamCopy s id) /\
  GetEvents (SetStream s aggregateID stream) aggregateID = (default [] stream, None) /\
  currentVersion (SetStream s aggregateID stream) aggregateID =
    match stream ≫= last with
    | Some e => events.Version (GetBase e)
    | None => 0
    end.
Proof.
  unfold GetStreamCopy, GetEvents, currentVersion, SetStream.
  destruct stream as [stream|]; cbn [streams mbind option_bind default].
  - rewrite lookup_insert_eq. repeat split.
    intros id Hne. rewrite lookup_insert_ne by congruence. reflexivity.
  - rewrite lookup_delete_eq. repeat split.
    intros id Hne. rewrite lookup_delete_ne by congruence. reflexivity.
Qed.

(** ** Snapshots that decode *)

(** [NewFromString_number] without the bound on the fraction: the text is
    refused exactly when the fraction is too long for the exponent. *)
Lemma NewFromString_number_range negative intPart fractionalPart :
  Forall (fun c => is_digit c = true) intPart ->
  Forall (fun c => is_digit c = true) fractionalPart ->
  intPart <> [] ->
  NewFromString_chars (number_chars negative intPart fractionalPart) =
    if - Z.of_nat (length fractionalPart) <? - 2 ^ 31 then None
    else Some (mkDecimal
                 (if negative then - digits_value 0 (intPart ++ fractionalPart)
                  else digits_value 0 (intPart ++ fractionalPart))
                 (- Z.of_nat (length fractionalPart))).
Proof.
  intros Hi Hf Hne.
  destruct (Z.ltb_spec (- Z.of_nat (length fractionalPart)) (- 2 ^ 31)) as [Hlong|Hfits];
    [|apply NewFromString_number; assumption].
  destruct (sign_chars_plain negative) as [Hs1 Hs2].
  destruct (digits_plain _ Hi) as [Hi1 Hi2]. destruct (digits_plain _ Hf) as [Hf1 Hf2].
  unfold NewFromString_chars, number_chars.
  destruct fractionalPart as [|f fs]; [cbn in Hlong; lia|].
  set (fp := f :: fs) in *.
  assert (Hdot : Forall (fun c => (Ascii.eqb c "E" || Ascii.eqb c "e")%char = false)
                   (sign_chars negative ++ intPart ++ "."%char :: fp)).
  { apply Forall_app; split; [assumption|]. apply Forall_app; split; [assumption|].
    constructor; [reflexivity|assumption]. }
  rewrite index_Ee_None by exact Hdot. cbn [mbind option_bind].
  rewrite (app_assoc (sign_chars negative) intPart).
  rewrite point_index_one_point by (try apply Forall_app; auto).
  cbn [mbind option_bind]. rewrite Nat.add_0_l.
  destruct (take_drop_around (sign_chars negative ++ intPart) "."%char fp) as [-> ->].
  rewrite <- app_assoc.
  rewrite big_SetString_signed; [| apply Forall_app; split; assumption
                                 | destruct intPart; [contradiction|discriminate]].
  cbn [mbind option_bind]. rewrite Z.add_0_l.
  destruct (Z.ltb_spec (- Z.of_nat (length fp)) (- 2 ^ 31)); [reflexivity|lia].
Qed.

(** Whatever the exponent, the text of a decimal is either refused or
    read back as a decimal of the same value. *)
Lemma NewFromString_String_sound d d' :
  NewFromString (String d) = Some d' -> Equal d' d = true.
Proof.
  unfold NewFromString, String. rewrite String.list_ascii_of_string_of_list_ascii.
  destruct (Z.leb_spec 0 (exp d)) as [Hpos|Hneg].
  - set (n := value (rescale d 0)).
    assert (Hn : n = value d * 10 ^ exp d).
    { unfold n, rescale. destruct (Z.eqb_spec (exp d) 0) as [E|E].
      - rewrite E. cbn. lia.
      - destruct (Z.ltb_spec (exp d) 0); [lia|]. cbn [value].
        rewrite Z.abs_neq by lia. do 2 f_equal. lia. }
    unfold String_chars. destruct (Z.leb_spec 0 (exp d)); [|lia]. fold n.
    rewrite big_String_signed.
    destruct (digits_spec (Z.abs n) (Z.abs_nonneg n)) as (Hall & Hval & Hne).
    pose proof (NewFromString_number (n <? 0) (digits (Z.abs n)) [] Hall
                  ltac:(constructor) Hne ltac:(cbn; lia)) as Hparse.
    unfold number_chars in Hparse. rewrite Hparse, app_nil_r, Hval. cbn [length Z.of_nat Z.opp].
    intros [= <-].
    unfold Equal. rewrite Cmp_spec. cbn [value exp].
    rewrite Z.min_l by lia. rewrite !Z.sub_0_r, Z.pow_0_r, Z.mul_1_r.
    replace (if n <? 0 then - Z.abs n else Z.abs n) with n by (destruct (Z.ltb_spec n 0); lia).
    rewrite Hn, Z.compare_refl. reflexivity.
  - destruct (String_chars_parts d Hneg) as (ip & fp & Hip & Hfp & Hne & Hlen & Hval & ->).
    destruct (trim_trailing_zeros_spec fp) as [t Ht].
    set (fp' := trim_trailing_zeros fp) in *.
    assert (Hlen' : Z.of_nat (length fp') + Z.of_nat t = - exp d).
    { rewrite Ht, length_app, length_replicate in Hlen. lia. }
    rewrite NewFromString_number_range;
      [|exact Hip|apply Forall_trim_trailing_zeros; exact Hfp|exact Hne].
    destruct (- Z.of_nat (length fp') <? - 2 ^ 31); [discriminate|]. intros [= <-].
    unfold Equal. rewrite Cmp_spec. cbn [value exp].
    rewrite Z.min_r by lia.
    replace (- Z.of_nat (length fp') - exp d) with (Z.of_nat t) by lia.
    rewrite Z.sub_diag, Z.pow_0_r, Z.mul_1_r.
    assert (Hv : digits_value 0 (ip ++ fp') * 10 ^ Z.of_nat t = Z.abs (value d)).
    { rewrite <- Hval, Ht. rewrite (app_assoc ip).
      rewrite (digits_value_app 0 (ip ++ fp')), digits_value_zeros. reflexivity. }
    destruct (Z.ltb_spec (value d) 0).
    + replace (- digits_value 0 (ip ++ fp') * 10 ^ Z.of_nat t) with (value d) by lia.
      rewrite Z.compare_refl. reflexivity.
    + replace (digits_value 0 (ip ++ fp') * 10 ^ Z.of_nat t) with (value d) by lia.
      rewrite Z.compare_refl. reflexivity.
Qed.

Lemma int_Unmarshal_Marshal_sound n m :
  json.int_Unmarshal (json.int_Marshal n) = Some m -> m = n.
Proof.
  unfold json.int_Unmarshal, json.int_Marshal.
  rewrite String.list_ascii_of_string_of_list_ascii. unfold ParseInt.
  rewrite big_SetString_big_String. case_match; congruence.
Qed.

Lemma Balances_Unmarshal_sound (l : list (Currency * Decimal)) : forall m0 m,
  Balances_Unmarshal m0 ((fun kv => (fst kv, json.Decimal_MarshalJSON (snd kv))) <$> l) = Some m ->
  m = foldl (fun m kv => <[fst kv := reparse (snd kv)]> m) m0 l /\
  Forall (fun kv => Equal (reparse (snd kv)) (snd kv) = true) l.
Proof.
  induction l as [|[k d] l IH]; intros m0 m; cbn [fmap list_fmap Balances_Unmarshal fst snd foldl].
  - intros [= <-]. split; [reflexivity|constructor].
  - unfold json.Decimal_MarshalJSON, json.Decimal_UnmarshalJSON.
    destruct (NewFromString (String d)) as [d'|] eqn:E; [|discriminate].
    intros H. assert (Hr : reparse d = d') by (unfold reparse; rewrite E; reflexivity).
    rewrite Hr. destruct (IH _ _ H) as [-> Hl]. split; [reflexivity|].
    constructor; [|exact Hl]. cbn. rewrite Hr. exact (NewFromString_String_sound _ _ E).
Qed.

Lemma Equal_refl d : Equal d d = true.
Proof. apply Equal_toQ. reflexivity. Qed.

Lemma Equal_sym a b : Equal a b = true -> Equal b a = true.
Proof. rewrite !Equal_toQ. intros H. symmetry. exact H. Qed.

Lemma Equal_trans a b c : Equal a b = true -> Equal b c = true -> Equal a c = true.
Proof. rewrite !Equal_toQ. intros H1 H2. rewrite H1. exact H2. Qed.

(** Whatever the state of a snapshot says, the account [ApplySnapshot]
    returns has the id and the version of the snapshot and nothing pending. *)
Lemma ApplySnapshot_envelope snap a :
  ApplySnapshot snap = (Some a, None) ->
  ID a = SnapshotAggregateID snap /\ Version a = SnapshotVersion snap /\ changes a = [].
Proof.
  unfold ApplySnapshot. destruct (json_Unmarshal (State snap)) as [account|]; [|intros [=]].
  destruct (String.eqb_spec (decID account) (SnapshotAggregateID snap)) as [Eid|Eid];
    destruct (Z.eqb_spec (decVersion account) (SnapshotVersion snap)) as [Ev|Ev];
    cbn [negb orb decID decVersion decBalances]; intros [= <-]; cbn [ID Version changes];
    repeat split; assumption.
Qed.

(** A snapshot of an account whose currencies are valid UTF-8, once
    stored, either cannot be applied or gives the account back: same id, same
    version, nothing pending, the same currencies with equal amounts. *)
Lemma ApplySnapshot_CreateSnapshot time_Now saved_Now (a a' : Account) snap :
  currencies_valid a ->
  CreateSnapshot time_Now a = (Some snap, None) ->
  ApplySnapshot {| SnapshotAggregateID := SnapshotAggregateID snap;
                   SnapshotVersion := SnapshotVersion snap;
                   State := State snap;
                   SnapshotTimestamp := saved_Now |} = (Some a', None) ->
  same_state a' a /\ changes a' = [].
Proof.
  intros Hvalid. unfold CreateSnapshot. cbn [json_Marshal]. intros [= <-] Happ.
  destruct (ApplySnapshot_envelope _ _ Happ) as (Hid & Hv & Hc).
  cbn [SnapshotAggregateID SnapshotVersion] in Hid, Hv.
  split; [|exact Hc]. split; [exact Hid|]. split; [exact Hv|].
  revert Happ. unfold ApplySnapshot; cbn [State SnapshotAggregateID SnapshotVersion].
  unfold json_Unmarshal; cbn [fields_Unmarshal].
  change (field_Unmarshal decoded_zero "id" (json.Str ?id))
    with (Some (mkDecoded id None 0)).
  cbv iota.
  change (field_Unmarshal (mkDecoded ?id None 0) "balances" (json.Object ?members))
    with (m ← Balances_Unmarshal (∅ : gmap Currency Decimal) members;
          Some (mkDecoded id (Some m) 0)).
  rewrite (keys_written_valid _ _ (entries_valid a Hvalid)).
  destruct (Balances_Unmarshal _ _) as [m|] eqn:Hb; cbn [mbind option_bind]; [|intros [=]].
  change (field_Unmarshal (mkDecoded ?id ?b 0) "version" (json.int_Marshal (Version a)))
    with (n ← json.int_Unmarshal (json.int_Marshal (Version a));
          Some (mkDecoded id b n)).
  destruct (json.int_Unmarshal _) as [n|] eqn:Hn; cbn [mbind option_bind]; [|intros [=]].
  cbn [decID decVersion decBalances].
  assert (Hbal : forall currency, same_amount (m !! currency) (Balances a !! currency)).
  { intros currency. apply Balances_Unmarshal_sound in Hb as [-> Hall].
    rewrite decoded_balances_lookup.
    destruct (Balances a !! currency) as [amount|] eqn:E; cbn; [|exact I].
    rewrite Forall_forall in Hall. apply (Hall (currency, amount)).
    apply (sorted_entries_map (Balances a)). exact E. }
  destruct (negb _ || negb _); cbn [decBalances]; intros [= <-]; exact Hbal.
Qed.

(** ** Loading an account *)

Lemma same_amount_refl x : same_amount x x.
Proof. destruct x; cbn; [apply Equal_refl|exact I]. Qed.

Lemma same_state_refl a : same_state a a.
Proof. repeat split. intros c. apply same_amount_refl. Qed.

Lemma same_state_sym a b : same_state a b -> same_state b a.
Proof.
  intros (Hi & Hv & Hb). repeat split; [congruence|congruence|].
  intros c. specialize (Hb c). unfold same_amount in *.
  destruct (Balances a !! c), (Balances b !! c); try assumption. apply Equal_sym, Hb.
Qed.

Lemma same_state_trans a b c : same_state a b -> same_state b c -> same_state a c.
Proof.
  intros (Hi & Hv & Hb) (Hi' & Hv' & Hb'). repeat split; [congruence|congruence|].
  intros k. specialize (Hb k). specialize (Hb' k). unfold same_amount in *.
  destruct (Balances a !! k), (Balances b !! k), (Balances c !! k); try assumption;
    try contradiction. eapply Equal_trans; eassumption.
Qed.

Lemma same_state_getBalance a b currency :
  same_state a b -> Equal (getBalance a currency) (getBalance b currency) = true.
Proof.
  intros (_ & _ & Hb). specialize (Hb currency). unfold getBalance, same_amount in *.
  destruct (Balances a !! currency), (Balances b !! currency); try contradiction;
    [assumption|apply Equal_refl].
Qed.

Lemma same_state_store_balance a b currency x y :
  same_state a b -> Equal x y = true ->
  same_state (store_balance a currency x) (store_balance b currency y).
Proof.
  intros (Hi & Hv & Hb) Hxy. repeat split; [assumption|assumption|].
  intros c. unfold store_balance; cbn. destruct (decide (currency = c)) as [<-|Hne].
  - rewrite !lookup_insert_eq. exact Hxy.
  - rewrite !lookup_insert_ne by assumption. apply Hb.
Qed.

Lemma same_state_set_Version a b v :
  same_state a b -> same_state (set_Version a v) (set_Version b v).
Proof. intros (Hi & Hv & Hb). repeat split; assumption. Qed.

Lemma Equal_Add x y z : Equal x y = true -> Equal (Add x z) (Add y z) = true.
Proof. rewrite !Equal_toQ, !toQ_Add. intros ->. reflexivity. Qed.

Lemma Equal_Sub x y z : Equal x y = true -> Equal (Sub x z) (Sub y z) = true.
Proof. rewrite !Equal_toQ, !toQ_Sub. intros ->. reflexivity. Qed.

Lemma Equal_IsNegative x y : Equal x y = true -> IsNegative x = IsNegative y.
Proof.
  rewrite Equal_toQ. intros H.
  destruct (IsNegative x) eqn:Ex, (IsNegative y) eqn:Ey; try reflexivity.
  - apply IsNegative_toQ in Ex. rewrite H in Ex. apply IsNegative_toQ in Ex. congruence.
  - apply IsNegative_toQ in Ey. rewrite <- H in Ey. apply IsNegative_toQ in Ey. congruence.
Qed.

(** [ApplyEvent] does not tell apart two aggregates in the same state: it
    returns the same error or none, and leaves them in the same state. *)
Lemma ApplyEvent_same_state a b event :
  same_state a b ->
  fst (ApplyEvent a event) = fst (ApplyEvent b event) /\
  same_state (snd (ApplyEvent a event)) (snd (ApplyEvent b event)).
Proof.
  intros Hs. pose proof Hs as (Hi & Hv & Hb).
  unfold ApplyEvent. rewrite <- Hv.
  destruct (events.Version (GetBase event) =? GoInt.add (Version a) 1); cbn [negb];
    [|split; [reflexivity|exact Hs]].
  destruct event; cbn [fst snd].
  - split; [reflexivity|]. repeat split. intros c. apply same_amount_refl.
  - split; [reflexivity|]. apply same_state_set_Version, same_state_store_balance;
      [exact Hs|]. apply Equal_Add, same_state_getBalance, Hs.
  - pose proof (Equal_Sub _ _ Amount (same_state_getBalance a b Currency Hs)) as He.
    rewrite <- (Equal_IsNegative _ _ He).
    destruct (IsNegative (Sub (getBalance a Currency) Amount)); cbn [fst snd];
      [split; [reflexivity|exact Hs]|].
    split; [reflexivity|]. apply same_state_set_Version, same_state_store_balance; assumption.
  - pose proof (Equal_Sub _ _ DebitedAmount (same_state_getBalance a b DebitedCurrency Hs)) as He.
    rewrite <- (Equal_IsNegative _ _ He).
    destruct (IsNegative (Sub (getBalance a DebitedCurrency) DebitedAmount)); cbn [fst snd];
      [split; [reflexivity|exact Hs]|].
    split; [reflexivity|]. apply same_state_set_Version, same_state_store_balance; assumption.
  - pose proof (Equal_Sub _ _ FromAmount (same_state_getBalance a b FromCurrency Hs)) as He.
    rewrite <- (Equal_IsNegative _ _ He).
    destruct (IsNegative (Sub (getBalance a FromCurrency) FromAmount)); cbn [fst snd];
      [split; [reflexivity|exact Hs]|].
    split; [reflexivity|].
    assert (Hd : same_state
                   (store_balance a FromCurrency (Sub (getBalance a FromCurrency) FromAmount))
                   (store_balance b FromCurrency (Sub (getBalance b FromCurrency) FromAmount)))
      by (apply same_state_store_balance; assumption).
    apply same_state_set_Version, same_state_store_balance; [exact Hd|].
    apply Equal_Add, same_state_getBalance, Hd.
  - split; [reflexivity|exact Hs].
  - split; [reflexivity|exact Hs].
Qed.

Lemma ApplyEvents_same_state history : forall a b,
  same_state a b ->
  fst (ApplyEvents a history) = fst (ApplyEvents b history) /\
  same_state (snd (ApplyEvents a history)) (snd (ApplyEvents b history)).
Proof.
  induction history as [|e rest IH]; intros a b Hs; cbn [ApplyEvents].
  - split; [reflexivity|exact Hs].
  - destruct (ApplyEvent_same_state a b e Hs) as [Hf Hs'].
    destruct (ApplyEvent a e) as [[err|] a1], (ApplyEvent b e) as [[err'|] b1];
      cbn [fst snd] in *; try discriminate.
    + injection Hf as <-. split; [reflexivity|exact Hs'].
    + apply IH. exact Hs'.
Qed.

Lemma ApplyEvent_error_plain a event err a' :
  ApplyEvent a event = (Some err, a') -> exists format, err = Errorf format.
Proof.
  unfold ApplyEvent.
  destruct (events.Version (GetBase event) =? GoInt.add (Version a) 1); cbn [negb].
  - destruct event; cbn; repeat case_match; intros [= <- <-] || intros [=]; eexists; reflexivity.
  - intros [= <- <-]. eexists; reflexivity.
Qed.

Lemma ApplyEvents_ID history : forall a a',
  (forall e, e ∈ history -> AggregateID (GetBase e) = ID a) ->
  ApplyEvents a history = (None, a') -> ID a' = ID a.
Proof.
  induction history as [|e rest IH]; intros a a' Hids; cbn [ApplyEvents].
  - intros [= <-]. reflexivity.
  - destruct (ApplyEvent a e) as [[err|] a1] eqn:E; [intros [=]|]. intros H.
    assert (Hid : ID a1 = ID a).
    { destruct (ApplyEvent_success _ _ _ E) as (_ & _ & _ & ->).
      pose proof (Hids e ltac:(left)) as He. destruct e; cbn in He; (exact He || reflexivity). }
    rewrite <- Hid. apply IH; [|exact H].
    intros e' He'. rewrite Hid. apply Hids. right. exact He'.
Qed.

Lemma replay_if_any account (eventsToApply : list Event) :
  (if 0 <? GoInt.len eventsToApply
   then ApplyEvents account eventsToApply
   else (None, account)) = ApplyEvents account eventsToApply.
Proof.
  destruct eventsToApply; [reflexivity|].
  change (GoInt.len (e :: eventsToApply)) with (Z.of_nat (S (length eventsToApply))).
  destruct (Z.ltb_spec 0 (Z.of_nat (S (length eventsToApply)))); [reflexivity|lia].
Qed.

Lemma GetEventsAfterVersion_wf s id version :
  store_wf s -> 0 <= version ->
  GetEventsAfterVersion s id version =
    (drop (Z.to_nat version) (default [] (streams s !! id)), None).
Proof.
  intros Hwf Hv. destruct (streams s !! id) as [stream|] eqn:E; cbn [default].
  - apply GetEventsAfterVersion_numbered; [exact E| |exact Hv]. apply (Hwf id stream E).
  - unfold GetEventsAfterVersion. rewrite E, drop_nil. reflexivity.
Qed.

(** [loadAccount] when no snapshot of the account can be used: the replay
    of the whole stream on a new aggregate. *)
Lemma loadAccount_replay s accountID :
  store_wf (eventStore s) ->
  match snapshots (snapshotStore s) !! accountID with
  | Some snapshot => fst (ApplySnapshot snapshot) = None
  | None => True
  end ->
  loadAccount s accountID = loaded (ApplyEvents (NewAccount accountID) (stream_of s accountID)).
Proof.
  intros Hwf Hsnap. unfold loadAccount, GetLatestSnapshot.
  assert (Hget : GetEventsAfterVersion (eventStore s) accountID 0 = (stream_of s accountID, None))
    by (rewrite GetEventsAfterVersion_wf by (assumption || lia); reflexivity).
  destruct (snapshots (snapshotStore s) !! accountID) as [snapshot|].
  - unfold ApplySnapshot in *. destruct (json_Unmarshal (State snapshot)); [discriminate|].
    rewrite Hget, replay_if_any. reflexivity.
  - rewrite Hget, replay_if_any. reflexivity.
Qed.

(** [loadAccount] from a snapshot: the events after the version of the
    snapshot, applied to the account the snapshot decodes to. *)
Lemma loadAccount_from_snapshot s accountID snapshot account :
  store_wf (eventStore s) ->
  snapshots (snapshotStore s) !! accountID = Some snapshot ->
  ApplySnapshot snapshot = (Some account, None) ->
  0 <= Version account ->
  loadAccount s accountID =
    loaded (ApplyEvents account (drop (Z.to_nat (Version account)) (stream_of s accountID))).
Proof.
  intros Hwf Hsnap Happ Hv. unfold loadAccount, GetLatestSnapshot. rewrite Hsnap, Happ.
  rewrite GetEventsAfterVersion_wf by assumption. fold (stream_of s accountID).
  rewrite replay_if_any. reflexivity.
Qed.

Lemma ApplySnapshot_cases snapshot :
  (exists account, ApplySnapshot snapshot = (Some account, None) /\ changes account = []) \/
  fst (ApplySnapshot snapshot) = None.
Proof.
  unfold ApplySnapshot. destruct (json_Unmarshal (State snapshot)); [left|right; reflexivity].
  eexists. split; reflexivity.
Qed.

Lemma loaded_same_state r1 r2 :
  fst r1 = fst r2 -> same_state (snd r1) (snd r2) ->
  match loaded r1, loaded r2 with
  | Returned a, Returned b => same_state a b /\ a = snd r1 /\ b = snd r2
  | Failed e1, Failed e2 => e1 = e2
  | _, _ => False
  end.
Proof.
  destruct r1 as [[e1|] a1], r2 as [[e2|] a2]; cbn [fst snd]; try discriminate.
  - intros [= <-] _. reflexivity.
  - intros _ Hs. unfold loaded. destruct Hs as (Hi & Hv & Hb). rewrite <- Hv.
    destruct (Version a1 =? 0); [reflexivity|]. repeat split; assumption.
Qed.

(** With faithful snapshots, loading from a snapshot and replaying the
    whole stream come to the same. *)
Lemma loadAccount_transparent s accountID :
  store_wf (eventStore s) -> snapshots_faithful s ->
  exists r,
    fst r = fst (ApplyEvents (NewAccount accountID) (stream_of s accountID)) /\
    same_state (snd r) (snd (ApplyEvents (NewAccount accountID) (stream_of s accountID))) /\
    changes (snd r) = [] /\
    loadAccount s accountID = loaded r.
Proof.
  intros Hwf Hsnap.
  assert (Hchanges : forall history a, changes a = [] -> changes (snd (ApplyEvents a history)) = []).
  { induction history as [|e rest IH]; intros a Ha; cbn [ApplyEvents]; [exact Ha|].
    destruct (ApplyEvent a e) as [[err|] a1] eqn:E; cbn [snd].
    - apply ApplyEvent_error_unchanged in E as ->. exact Ha.
    - apply IH. destruct (ApplyEvent_success _ _ _ E) as (_ & _ & -> & _). exact Ha. }
  destruct (snapshots (snapshotStore s) !! accountID) as [snapshot|] eqn:Es.
  - destruct (ApplySnapshot_cases snapshot) as [(account & Happ & Hc)|Hnone].
    + destruct (Hsnap accountID snapshot account Es Happ) as ([Hlo Hhi] & replayed & Hrep & Hsame).
      assert (Hfull : ApplyEvents (NewAccount accountID) (stream_of s accountID) =
                      ApplyEvents replayed
                        (drop (Z.to_nat (Version account)) (stream_of s accountID))).
      { rewrite <- (take_drop (Z.to_nat (Version account)) (stream_of s accountID)) at 1.
        rewrite ApplyEvents_app, Hrep. reflexivity. }
      rewrite Hfull.
      exists (ApplyEvents account (drop (Z.to_nat (Version account)) (stream_of s accountID))).
      destruct (ApplyEvents_same_state
                  (drop (Z.to_nat (Version account)) (stream_of s accountID))
                  account replayed Hsame) as [Hf Hs].
      split; [exact Hf|]. split; [exact Hs|]. split; [apply Hchanges; exact Hc|].
      apply (loadAccount_from_snapshot s accountID snapshot account Hwf Es Happ Hlo).
    + exists (ApplyEvents (NewAccount accountID) (stream_of s accountID)).
      split; [reflexivity|]. split; [apply same_state_refl|].
      split; [apply Hchanges; reflexivity|].
      apply loadAccount_replay; [exact Hwf|]. rewrite Es. exact Hnone.
  - exists (ApplyEvents (NewAccount accountID) (stream_of s accountID)).
    split; [reflexivity|]. split; [apply same_state_refl|].
    split; [apply Hchanges; reflexivity|].
    apply loadAccount_replay; [exact Hwf|]. rewrite Es. exact I.
Qed.

Lemma stream_of_wf s accountID :
  store_wf (eventStore s) ->
  stream_wf accountID (stream_of s accountID) /\
  GoInt.len (stream_of s accountID) <= GoInt.MaxInt.
Proof.
  intros Hwf. split; [apply stream_wf_default; exact Hwf|].
  unfold stream_of. destruct (streams (eventStore s) !! accountID) as [stream|] eqn:E; cbn.
  - apply (Hwf accountID stream E).
  - vm_compute. discriminate.
Qed.

(** The replay of a stored stream on a new aggregate, when it succeeds,
    ends with the id of the stream and the number of its events as version. *)
Lemma replay_stream s accountID replayed :
  store_wf (eventStore s) ->
  ApplyEvents (NewAccount accountID) (stream_of s accountID) = (None, replayed) ->
  ID replayed = accountID /\
  Version replayed = GoInt.len (stream_of s accountID) /\
  changes replayed = [].
Proof.
  intros Hwf H. destruct (stream_of_wf s accountID Hwf) as [Hs Hlen].
  destruct (ApplyEvents_success _ _ _ H) as (_ & Hv & Hc).
  split; [|split; [|exact Hc]].
  - apply (ApplyEvents_ID _ _ _) in H; [exact H|].
    intros e He. apply list_elem_of_lookup in He as [i Hi]. apply (Hs i e Hi).
  - destruct (stream_of s accountID) as [|e rest] eqn:E.
    + cbn in H. injection H as <-. reflexivity.
    + rewrite Hv by discriminate. cbn [NewAccount Version]. rewrite Z.add_0_l.
      apply wrap_in_range. pose proof (len_nonneg (e :: rest)).
      unfold GoInt.in_range, GoInt.MinInt. lia.
Qed.

Lemma len_0_nil {A} (l : list A) : GoInt.len l = 0 <-> l = [].
Proof.
  unfold GoInt.len. split; [|intros ->; reflexivity].
  destruct l; [reflexivity|cbn; lia].
Qed.

(** X19. Without a snapshot of the account, [loadAccount] is the replay
    of the whole stored stream on a new aggregate. On a store whose streams
    are numbered 1, 2, ...: when the account has no stored event, the error is
    [ErrAccountNotFound]; when the replay accepts every event, the account
    returned is the replayed one, with the id asked for, the number of stored
    events as its version and nothing pending; when the replay refuses an
    event, the error returned is not [ErrAccountNotFound]. *)
Theorem loadAccount_replays_stream (s : AccountService) (accountID : string)
    (Hwf : store_wf (eventStore s))
    (Hnone : snapshots (snapshotStore s) !! accountID = None) :
  (stream_of s accountID = [] ->
   exists err, loadAccount s accountID = Failed err /\ Is err ErrAccountNotFound = true) /\
  (forall account,
     stream_of s accountID <> [] ->
     ApplyEvents (NewAccount accountID) (stream_of s accountID) = (None, account) ->
     loadAccount s accountID = Returned account /\
     ID account = accountID /\
     Version account = GoInt.len (stream_of s accountID) /\
     changes account = []) /\
  (forall cause account,
     ApplyEvents (NewAccount accountID) (stream_of s accountID) = (Some cause, account) ->
     exists err, loadAccount s accountID = Failed err /\ Is err ErrAccountNotFound = false).
Proof.
  rewrite (loadAccount_replay s accountID Hwf) by (rewrite Hnone; exact I).
  split; [|split].
  - intros ->. eexists. split; reflexivity.
  - intros account Hne H. rewrite H.
    destruct (replay_stream s accountID account Hwf H) as (Hid & Hv & Hc).
    unfold loaded. rewrite Hv.
    destruct (Z.eqb_spec (GoInt.len (stream_of s accountID)) 0) as [E|E];
      [apply len_0_nil in E; contradiction|].
    repeat split; assumption.
  - intros cause account H. rewrite H. cbn [loaded]. eexists. split; [reflexivity|].
    apply ApplyEvents_failure in H as (applied & failing & rest & cause' & _ & _ & Hfail & ->).
    apply ApplyEvent_error_plain in Hfail as [format ->]. reflexivity.
Qed.

(** X19 (witness). The service holding the two events of "acc-1" and no
    snapshot loads the account at version 2 with 3 USD. *)
Lemma loadAccount_replays_stream_witness :
  exists account,
    loadAccount service_two_events "acc-1" = Returned account /\
    ID account = "acc-1" /\ Version account = 2 /\
    Balances account = {[ USD := New 3 0 ]}.
Proof.
  assert (Hwf : store_wf (eventStore service_two_events)).
  { intros id stream Hs. cbn in Hs. apply lookup_singleton_Some in Hs as [<- <-]. split.
    - intros [|[|i]] e Hi; try discriminate; injection Hi as <-; split; reflexivity.
    - vm_compute. discriminate. }
  destruct (loadAccount_replays_stream service_two_events "acc-1" Hwf eq_refl) as (_ & H & _).
  destruct (ApplyEvents (NewAccount "acc-1") (stream_of service_two_events "acc-1"))
    as [[err|] account] eqn:E; [vm_compute in E; discriminate|].
  destruct (H account) as (Hload & Hid & Hv & _).
  - vm_compute. discriminate.
  - reflexivity.
  - exists account. split; [exact Hload|]. split; [exact Hid|]. split; [exact Hv|].
    vm_compute in E. injection E as <-. reflexivity.
Defined.

(** X20. Snapshots do not change what is loaded. On a store whose streams
    are numbered 1, 2, ..., and when every stored snapshot that can be applied
    stands for a prefix of the stream of its aggregate, [loadAccount] comes to
    the same as on the same event store without any snapshot: both fail with
    the same error, or both return an account, with nothing pending, of the
    same id and version and with equal amounts in the same currencies. A
    snapshot that cannot be applied is skipped. *)
Theorem loadAccount_snapshot_transparent (s : AccountService) (accountID : string)
    (Hwf : store_wf (eventStore s))
    (Hsnapshots : snapshots_faithful s) :
  match loadAccount s accountID, loadAccount (without_snapshots s) accountID with
  | Returned a, Returned b => same_state a b /\ changes a = [] /\ changes b = []
  | Failed e1, Failed e2 => e1 = e2
  | _, _ => False
  end.
Proof.
  destruct (loadAccount_transparent s accountID Hwf Hsnapshots) as (r & Hf & Hs & Hc & ->).
  rewrite (loadAccount_replay (without_snapshots s) accountID Hwf) by exact I.
  change (stream_of (without_snapshots s) accountID) with (stream_of s accountID).
  assert (Hcf : changes (snd (ApplyEvents (NewAccount accountID) (stream_of s accountID))) = []).
  { destruct (ApplyEvents (NewAccount accountID) (stream_of s accountID)) as [[err|] b] eqn:E;
      cbn [snd].
    - apply ApplyEvents_failure in E as (applied & _ & _ & _ & _ & Happ & _).
      apply ApplyEvents_success in Happ as (_ & _ & ->). reflexivity.
    - apply ApplyEvents_success in E as (_ & _ & ->). reflexivity. }
  set (full := ApplyEvents (NewAccount accountID) (stream_of s accountID)) in *.
  pose proof (loaded_same_state r full Hf Hs) as H.
  destruct (loaded r) as [a|e1|reason], (loaded full) as [b|e2|reason']; try exact H.
  destruct H as (Hsame & -> & ->). split; [exact Hsame|]. split; assumption.
Qed.

(** ** Exchange rates and conversions *)

Lemma rates_lookup (from to : Currency) :
  rates !! from ≫= (fun rateMap : gmap Currency string => rateMap !! to) =
    if String.eqb from USD
    then if String.eqb to EUR then Some "0.92"%string
         else if String.eqb to GBP then Some "0.80"%string else None
    else if String.eqb from EUR
    then if String.eqb to USD then Some "1.08"%string
         else if String.eqb to GBP then Some "0.87"%string else None
    else if String.eqb from GBP
    then if String.eqb to USD then Some "1.25"%string
         else if String.eqb to EUR then Some "1.15"%string else None
    else None.
Proof.
  unfold rates.
  destruct (String.eqb_spec from USD) as [->|Hu].
  { rewrite lookup_insert_eq. cbn [mbind option_bind].
    destruct (String.eqb_spec to EUR) as [->|He]; [reflexivity|].
    destruct (String.eqb_spec to GBP) as [->|Hg]; [reflexivity|].
    rewrite lookup_insert_ne by congruence. apply lookup_singleton_ne. congruence. }
  rewrite lookup_insert_ne by congruence.
  destruct (String.eqb_spec from EUR) as [->|He].
  { rewrite lookup_insert_eq. cbn [mbind option_bind].
    destruct (String.eqb_spec to USD) as [->|Hu']; [reflexivity|].
    destruct (String.eqb_spec to GBP) as [->|Hg]; [reflexivity|].
    rewrite lookup_insert_ne by congruence. apply lookup_singleton_ne. congruence. }
  rewrite lookup_insert_ne by congruence.
  destruct (String.eqb_spec from GBP) as [->|Hg].
  { rewrite lookup_singleton_eq. cbn [mbind option_bind].
    destruct (String.eqb_spec to USD) as [->|Hu']; [reflexivity|].
    destruct (String.eqb_spec to EUR) as [->|He']; [reflexivity|].
    rewrite lookup_insert_ne by congruence. apply lookup_singleton_ne. congruence. }
  rewrite lookup_singleton_ne by congruence. reflexivity.
Qed.

Section Rates.
Variable Div : Decimal -> Decimal -> Decimal.

(** The inverse-rate branch of [getExchangeRate] is never taken: the
    table holds a rate for a pair exactly when it holds one for the reversed
    pair. *)
Lemma getExchangeRate_direct (from to : Currency) :
  getExchangeRate Div from to =
    if String.eqb from to then (NewFromInt 1, None)
    else
      match rates !! from ≫= (fun rateMap : gmap Currency string => rateMap !! to) with
      | Some rateStr =>
          match NewFromString rateStr with
          | None => (Zero, Some (Errorf "internal rate parse error for %s->%s"))
          | Some rate => (rate, None)
          end
      | None => (Zero, Some (Errorf "exchange rate not found for %s -> %s"))
      end.
Proof.
  unfold getExchangeRate.
  destruct (String.eqb_spec from to) as [Heq|Hne]; [reflexivity|].
  destruct (rates !! from ≫= _) as [rateStr|] eqn:Hd; [reflexivity|].
  rewrite rates_lookup in Hd. rewrite (rates_lookup to from).
  destruct (String.eqb_spec from USD), (String.eqb_spec from EUR), (String.eqb_spec from GBP),
    (String.eqb_spec to USD), (String.eqb_spec to EUR), (String.eqb_spec to GBP);
    subst; try discriminate; try congruence; reflexivity.
Qed.

Lemma parse_rates :
  NewFromString "0.92" = Some (New 92 (-2)) /\
  NewFromString "0.80" = Some (New 80 (-2)) /\
  NewFromString "1.08" = Some (New 108 (-2)) /\
  NewFromString "0.87" = Some (New 87 (-2)) /\
  NewFromString "1.25" = Some (New 125 (-2)) /\
  NewFromString "1.15" = Some (New 115 (-2)).
Proof.
  split; [vm_compute; reflexivity|]. split; [vm_compute; reflexivity|].
  split; [vm_compute; reflexivity|]. split; [vm_compute; reflexivity|].
  split; vm_compute; reflexivity.
Qed.

Lemma getExchangeRate_positive (from to : Currency) rate :
  getExchangeRate Div from to = (rate, None) -> IsPositive rate = true.
Proof.
  rewrite getExchangeRate_direct, rates_lookup.
  destruct parse_rates as (P1 & P2 & P3 & P4 & P5 & P6).
  destruct (String.eqb from to); [intros [= <-]; reflexivity|].
  destruct (String.eqb from USD).
  { destruct (String.eqb to EUR); [rewrite P1; intros [= <-]; reflexivity|].
    destruct (String.eqb to GBP); [rewrite P2; intros [= <-]; reflexivity|intros [=]]. }
  destruct (String.eqb from EUR).
  { destruct (String.eqb to USD); [rewrite P3; intros [= <-]; reflexivity|].
    destruct (String.eqb to GBP); [rewrite P4; intros [= <-]; reflexivity|intros [=]]. }
  destruct (String.eqb from GBP); [|intros [=]].
  destruct (String.eqb to USD); [rewrite P5; intros [= <-]; reflexivity|].
  destruct (String.eqb to EUR); [rewrite P6; intros [= <-]; reflexivity|intros [=]].
Qed.

(** A rate between two different currencies comes from the table: it
    has two decimals and its target is one of the three currencies. *)
Lemma getExchangeRate_target (from to : Currency) rate :
  getExchangeRate Div from to = (rate, None) -> from <> to ->
  exp rate = -2 /\ utf8.ValidString to = true.
Proof.
  rewrite getExchangeRate_direct, rates_lookup.
  destruct parse_rates as (P1 & P2 & P3 & P4 & P5 & P6).
  intros H Hne. destruct (String.eqb_spec from to); [contradiction|]. revert H.
  destruct (String.eqb from USD).
  { destruct (String.eqb_spec to EUR) as [->|_]; [rewrite P1; intros [= <-]; split; reflexivity|].
    destruct (String.eqb_spec to GBP) as [->|_];
      [rewrite P2; intros [= <-]; split; reflexivity|intros [=]]. }
  destruct (String.eqb from EUR).
  { destruct (String.eqb_spec to USD) as [->|_]; [rewrite P3; intros [= <-]; split; reflexivity|].
    destruct (String.eqb_spec to GBP) as [->|_];
      [rewrite P4; intros [= <-]; split; reflexivity|intros [=]]. }
  destruct (String.eqb from GBP); [|intros [=]].
  destruct (String.eqb_spec to USD) as [->|_]; [rewrite P5; intros [= <-]; split; reflexivity|].
  destruct (String.eqb_spec to EUR) as [->|_];
    [rewrite P6; intros [= <-]; split; reflexivity|intros [=]].
Qed.

(** X28. [getExchangeRate] reads its table and nothing else. For one and
    the same currency the rate is 1; for the six ordered pairs of USD, EUR and
    GBP it is the rate of the table, read exactly; for every other pair the
    call fails with the not-found error and returns the zero decimal. The
    branch that inverts the rate of the reversed pair, the only caller of
    [Decimal.Div], is never taken, so the result does not depend on that
    division; every rate returned is greater than zero. The rates of the table
    are not inverse to each other: a euro converted to pounds and back is
    1.0005 euro, a dollar converted to euros and back is 0.9936 dollar. *)
Theorem getExchangeRate_table (from to : Currency) :
  (from = to -> getExchangeRate Div from to = (NewFromInt 1, None)) /\
  (getExchangeRate Div USD EUR = (New 92 (-2), None) /\
   getExchangeRate Div USD GBP = (New 80 (-2), None) /\
   getExchangeRate Div EUR USD = (New 108 (-2), None) /\
   getExchangeRate Div EUR GBP = (New 87 (-2), None) /\
   getExchangeRate Div GBP USD = (New 125 (-2), None) /\
   getExchangeRate Div GBP EUR = (New 115 (-2), None)) /\
  (from <> to ->
   from ∉ [USD; EUR; GBP] \/ to ∉ [USD; EUR; GBP] ->
   getExchangeRate Div from to = (Zero, Some (Errorf "exchange rate not found for %s -> %s"))) /\
  (forall rate, getExchangeRate Div from to = (rate, None) -> (0 < toQ rate)%Q) /\
  (exists product,
     Mul (fst (getExchangeRate Div EUR GBP)) (fst (getExchangeRate Div GBP EUR))
       = Returns product /\
     (toQ product == 10005 # 10000)%Q) /\
  (exists product,
     Mul (fst (getExchangeRate Div USD EUR)) (fst (getExchangeRate Div EUR USD))
       = Returns product /\
     (toQ product == 9936 # 10000)%Q).
Proof.
  assert (Hsix : getExchangeRate Div USD EUR = (New 92 (-2), None) /\
                 getExchangeRate Div USD GBP = (New 80 (-2), None) /\
                 getExchangeRate Div EUR USD = (New 108 (-2), None) /\
                 getExchangeRate Div EUR GBP = (New 87 (-2), None) /\
                 getExchangeRate Div GBP USD = (New 125 (-2), None) /\
                 getExchangeRate Div GBP EUR = (New 115 (-2), None)).
  { destruct parse_rates as (P1 & P2 & P3 & P4 & P5 & P6).
    rewrite !getExchangeRate_direct, !rates_lookup. cbn [String.eqb Ascii.eqb Bool.eqb USD EUR GBP].
    rewrite P1, P2, P3, P4, P5, P6. split; [reflexivity|]. split; [reflexivity|].
    split; [reflexivity|]. split; [reflexivity|]. split; reflexivity. }
  split; [|split; [exact Hsix|split; [|split; [|split]]]].
  - intros ->. unfold getExchangeRate. rewrite String.eqb_refl. reflexivity.
  - intros Hne Hout. rewrite getExchangeRate_direct, rates_lookup.
    destruct (String.eqb_spec from to); [contradiction|].
    assert (Hin : forall c : Currency, c ∉ [USD; EUR; GBP] ->
              String.eqb c USD = false /\ String.eqb c EUR = false /\ String.eqb c GBP = false).
    { intros c Hc. repeat split; apply String.eqb_neq; intros ->; apply Hc;
        repeat constructor. }
    destruct Hout as [Hout|Hout]; apply Hin in Hout as (-> & -> & ->); [reflexivity|].
    destruct (String.eqb from USD), (String.eqb from EUR), (String.eqb from GBP); reflexivity.
  - intros rate H. apply IsPositive_toQ. exact (getExchangeRate_positive _ _ _ H).
  - destruct Hsix as (_ & _ & _ & -> & _ & ->). cbn [fst].
    eexists. split; [reflexivity|]. vm_compute. reflexivity.
  - destruct Hsix as (-> & _ & -> & _). cbn [fst].
    eexists. split; [reflexivity|]. vm_compute. reflexivity.
Qed.

End Rates.

(** ** The service keeps its stores consistent *)

(** *** Currencies that are valid UTF-8 *)

Lemma toQ_Zero : (toQ Zero == 0)%Q.
Proof. reflexivity. Qed.

(** An amount greater than zero is covered only by a balance held. *)
Lemma held_of_funds a currency amount :
  IsPositive amount = true ->
  GreaterThanOrEqual (getBalance a currency) amount = true ->
  exists balance, Balances a !! currency = Some balance.
Proof.
  intros Hpos Hge. unfold getBalance in Hge.
  destruct (Balances a !! currency) as [balance|]; [eauto|].
  apply GreaterThanOrEqual_toQ in Hge. apply IsPositive_toQ in Hpos.
  rewrite toQ_Zero in Hge. exfalso. revert Hpos. apply Qle_not_lt. exact Hge.
Qed.

Lemma NewAccount_currencies_valid id : currencies_valid (NewAccount id).
Proof. intros c d. cbn. rewrite lookup_empty. discriminate. Qed.

Lemma store_balance_currencies_valid a currency amount :
  currencies_valid a -> utf8.ValidString currency = true ->
  currencies_valid (store_balance a currency amount).
Proof.
  intros Ha Hc c d. unfold store_balance; cbn.
  destruct (decide (currency = c)) as [<-|Hne].
  - intros _. exact Hc.
  - rewrite lookup_insert_ne by assumption. apply Ha.
Qed.

Lemma ApplyEvent_currencies_valid a event a' :
  currencies_valid a -> event_currencies_valid event ->
  ApplyEvent a event = (None, a') -> currencies_valid a'.
Proof.
  intros Ha He. unfold ApplyEvent.
  destruct (events.Version (GetBase event) =? GoInt.add (Version a) 1); cbn [negb];
    [|intros [=]].
  destruct event; cbn [event_currencies_valid] in He.
  - intros [= <-]. intros c d; cbn. intros H.
    apply install_balances_elem in H. exact (He _ H).
  - intros [= <-]. apply (store_balance_currencies_valid a); assumption.
  - destruct (IsNegative _); intros [= <-].
    apply (store_balance_currencies_valid a); assumption.
  - destruct (IsNegative _); intros [= <-].
    apply (store_balance_currencies_valid a); assumption.
  - destruct He as [Hfrom Hto]. destruct (IsNegative _); intros [= <-].
    apply (store_balance_currencies_valid (store_balance a FromCurrency _)); [|exact Hto].
    apply store_balance_currencies_valid; assumption.
  - intros [=].
  - intros [=].
Qed.

Lemma ApplyEvents_currencies_valid history : forall a a',
  currencies_valid a -> Forall event_currencies_valid history ->
  ApplyEvents a history = (None, a') -> currencies_valid a'.
Proof.
  induction history as [|e rest IH]; intros a a' Ha Hh; cbn [ApplyEvents].
  - intros [= <-]. exact Ha.
  - apply Forall_cons in Hh as [He Hrest].
    destruct (ApplyEvent a e) as [[err|] a1] eqn:E; [intros [=]|].
    apply IH; [|exact Hrest]. exact (ApplyEvent_currencies_valid _ _ _ Ha He E).
Qed.

Lemma same_state_currencies_valid a b :
  same_state a b -> currencies_valid b -> currencies_valid a.
Proof.
  intros (_ & _ & Hb) Hvalid c d Hl. specialize (Hb c). rewrite Hl in Hb.
  unfold same_amount in Hb. destruct (Balances b !! c) as [d'|] eqn:E; [|contradiction].
  exact (Hvalid c d' E).
Qed.

(** *** What a handled command emits *)

Ltac currency_held Hvalid :=
  match goal with
  | Hp : negb (IsPositive ?amount) = false,
    Hf : negb (GreaterThanOrEqual (getBalance ?a ?c) ?amount) = false |- utf8.ValidString ?c = true =>
      let balance := fresh "balance" in
      let Hb := fresh "Hb" in
      apply negb_false_iff in Hp; apply negb_false_iff in Hf;
      destruct (held_of_funds a c amount Hp Hf) as [balance Hb];
      exact (Hvalid c balance Hb)
  end.

Lemma Handle_emits_id uuid_New time_Now a c a' :
  Handle uuid_New time_Now a c = Returns (None, a') ->
  exists event a0,
    ApplyEvent a event = (None, a0) /\
    a' = set_changes a0 (changes a ++ [event]) /\
    credit_nonneg event /\
    AggregateID (GetBase event) =
      match c with CreateAccount id _ => id | _ => ID a end /\
    (currencies_valid a -> command_currencies_valid c -> event_currencies_valid event).
Proof.
  destruct c; cbn [Handle];
    unfold HandleCreateAccount, HandleDeposit, HandleWithdraw, HandleConvertCurrency,
      HandleTransferMoney;
    rewrite ?Money_compare_same;
    repeat case_match; try (intros [=]; fail);
    intros [= Hh]; apply handleChange_success in Hh as (applied & Happ & ->);
    eexists _, applied; (split; [exact Happ|]); (split; [reflexivity|]);
    (split; [|split; [reflexivity|]]);
    cbn [credit_nonneg event_currencies_valid command_currencies_valid]; try exact I.
  - intros bal Hin. eapply existsb_negative_false; eassumption.
  - intros _ Hvalid bal Hin. unfold balanceEntries in Hin.
    apply list_elem_of_fmap in Hin as ([k d] & -> & Hin). cbn [Currency_ fst].
    apply elem_of_map_to_list in Hin. exact (Hvalid k d Hin).
  - apply IsPositive_not_negative. apply negb_false_iff. assumption.
  - intros _ Hvalid. exact Hvalid.
  - intros Hvalid _. currency_held Hvalid.
  - eapply IsPositive_not_negative, Mul_positive; [eassumption|..]; apply negb_false_iff; assumption.
  - intros Hvalid Hto. split; [currency_held Hvalid|exact Hto].
  - intros Hvalid _. currency_held Hvalid.
  - intros Hvalid _. currency_held Hvalid.
  - intros Hvalid _. currency_held Hvalid.
Qed.

(** *** What holds whatever the currencies are called *)

Lemma applied_ID a event a0 :
  ApplyEvent a event = (None, a0) ->
  AggregateID (GetBase event) = ID a -> ID a0 = ID a.
Proof.
  intros Happ Hagg. destruct (ApplyEvent_success _ _ _ Happ) as (_ & _ & _ & ->).
  destruct event; cbn in Hagg; (exact Hagg || reflexivity).
Qed.

Lemma AccountService_eta s : mkAccountService (eventStore s) (snapshotStore s) = s.
Proof. destruct s; reflexivity. Qed.

Lemma stream_of_within n s accountID :
  streams_within n s -> 0 <= n -> GoInt.len (stream_of s accountID) <= n.
Proof.
  intros H Hn. unfold stream_of.
  destruct (streams (eventStore s) !! accountID) as [stream|] eqn:E; cbn.
  - apply (H accountID stream E).
  - exact Hn.
Qed.

Lemma GetEventsAfterVersion_stored s id version :
  snd (GetEventsAfterVersion s id version) = None /\
  forall e, e ∈ fst (GetEventsAfterVersion s id version) -> e ∈ default [] (streams s !! id).
Proof.
  unfold GetEventsAfterVersion. destruct (streams s !! id) as [stream|]; cbn [default].
  - destruct (first_after stream version 0) as [i|]; cbn [fst snd]; (split; [reflexivity|]).
    + intros e He. exact (elem_of_sublist _ _ _ He (sublist_drop stream i)).
    + intros e He. apply elem_of_nil in He. contradiction.
  - cbn [fst snd]. split; [reflexivity|]. intros e He. apply elem_of_nil in He. contradiction.
Qed.

(** [loadAccount] starts from a new aggregate or from the account of an
    applied snapshot, and replays on it events of the stored stream. *)
Lemma loadAccount_start s accountID :
  exists account0 version,
    changes account0 = [] /\
    (account0 = NewAccount accountID \/
     exists snapshot,
       snapshots (snapshotStore s) !! accountID = Some snapshot /\
       ApplySnapshot snapshot = (Some account0, None)) /\
    loadAccount s accountID =
      loaded (ApplyEvents account0
                (fst (GetEventsAfterVersion (eventStore s) accountID version))).
Proof.
  assert (Hreplay : forall account0 version,
            (let '(eventsToApply, err) :=
               GetEventsAfterVersion (eventStore s) accountID version in
             let replay :=
               let applied :=
                 if 0 <? GoInt.len eventsToApply
                 then ApplyEvents account0 eventsToApply
                 else (None, account0) in
               match applied with
               | (Some err, _) =>
                   Failed (Errorf_w "critical error applying events to account %s after snapshot/initial load: %w" err)
               | (None, account) =>
                   if domain.Version account =? 0
                   then Failed (Errorf_w "%w: %s" ErrAccountNotFound)
                   else Returned account
               end in
             match err with
             | Some err =>
                 if version =? 0
                 then Failed (Errorf_w "failed to load initial events for account %s: %w" err)
                 else replay
             | None => replay
             end) =
            loaded (ApplyEvents account0
                      (fst (GetEventsAfterVersion (eventStore s) accountID version)))).
  { intros account0 version.
    destruct (GetEventsAfterVersion_stored (eventStore s) accountID version) as [Hnone _].
    destruct (GetEventsAfterVersion (eventStore s) accountID version) as [events err].
    cbn [fst snd] in *. subst err. rewrite replay_if_any. reflexivity. }
  unfold loadAccount, GetLatestSnapshot.
  destruct (snapshots (snapshotStore s) !! accountID) as [snapshot|] eqn:Es.
  - destruct (ApplySnapshot snapshot) as [[account0|] [err|]] eqn:Ea.
    + exists (NewAccount accountID), 0. split; [reflexivity|]. split; [left; reflexivity|].
      apply Hreplay.
    + exists account0, (Version account0).
      destruct (ApplySnapshot_envelope _ _ Ea) as (_ & _ & Hc). split; [exact Hc|].
      split; [right; exists snapshot; split; [reflexivity|exact Ea]|]. apply Hreplay.
    + exists (NewAccount accountID), 0. split; [reflexivity|]. split; [left; reflexivity|].
      apply Hreplay.
    + exists (NewAccount accountID), 0. split; [reflexivity|]. split; [left; reflexivity|].
      apply Hreplay.
  - exists (NewAccount accountID), 0. split; [reflexivity|]. split; [left; reflexivity|].
    apply Hreplay.
Qed.

(** An account that loads has the id asked for, nothing pending and a
    version other than 0. *)
Lemma loadAccount_sound s accountID account :
  store_wf (eventStore s) -> snapshots_filed s ->
  loadAccount s accountID = Returned account ->
  ID account = accountID /\ changes account = [] /\ Version account <> 0.
Proof.
  intros Hwf Hfiled.
  destruct (loadAccount_start s accountID) as (account0 & version & Hc0 & Hstart & ->).
  destruct (GetEventsAfterVersion_stored (eventStore s) accountID version) as [_ Hsub].
  unfold loaded.
  destruct (ApplyEvents account0 (fst (GetEventsAfterVersion (eventStore s) accountID version)))
    as [[err|] a] eqn:E; [discriminate|].
  destruct (Z.eqb_spec (Version a) 0) as [Hz|Hz]; [discriminate|]. intros [= ->].
  assert (Hid0 : ID account0 = accountID).
  { destruct Hstart as [->|(snapshot & Hs & Happ)]; [reflexivity|].
    destruct (ApplySnapshot_envelope _ _ Happ) as (-> & _). apply (Hfiled _ _ Hs). }
  split; [|split; [|exact Hz]].
  - rewrite <- Hid0. apply (ApplyEvents_ID _ account0 account) in E; [exact E|].
    intros e He. rewrite Hid0. apply Hsub in He.
    pose proof (stream_wf_default (eventStore s) accountID Hwf) as Hs.
    apply list_elem_of_lookup in He as [i Hi]. apply (Hs i e Hi).
  - destruct (ApplyEvents_success _ _ _ E) as (_ & _ & ->). exact Hc0.
Qed.

Lemma stores_consistent_weaken n m s :
  stores_consistent n s -> n <= m -> stores_consistent m s.
Proof.
  intros (Hwf & Hfiled & Hlen) Hnm. split; [exact Hwf|]. split; [exact Hfiled|].
  intros id stream Hs. specialize (Hlen id stream Hs). lia.
Qed.

(** Saving one event for an aggregate, and then the snapshot of an account
    of that id when one is due, keeps the stores consistent. *)
Lemma saved_consistent n s accountID version event es account created_Now saved_Now :
  stores_consistent n s -> 0 <= n -> n + 1 <= GoInt.MaxInt ->
  SaveEvents (eventStore s) accountID version [event] = (None, es) ->
  ID account = accountID ->
  stores_consistent (n + 1)
    (saveSnapshotIfNeeded created_Now saved_Now (mkAccountService es (snapshotStore s)) account).
Proof.
  intros (Hwf & Hfiled & Hlen) Hn Hmax Hsave Hid.
  apply SaveEvents_success in Hsave as (Hv & Hcheck & ->); [|discriminate].
  pose proof (stream_of_within n s accountID Hlen Hn) as Hbound. unfold stream_of in Hbound.
  assert (Hfits : GoInt.len (default [] (streams (eventStore s) !! accountID) ++ [event])
                  <= GoInt.MaxInt).
  { rewrite len_app. change (GoInt.len [event]) with 1. lia. }
  destruct (SaveEvents_stream_wf _ _ _ _ Hwf Hfits Hv Hcheck) as [Hstream _].
  set (es := mkEventStore (<[accountID := default [] (streams (eventStore s) !! accountID)
                                            ++ [event]]> (streams (eventStore s)))).
  assert (Hgrown : forall id, stream_of s id <> [] ->
            stream_of (mkAccountService es (snapshotStore s)) id <> []).
  { intros id Hne. unfold stream_of in *. cbn [eventStore es streams].
    destruct (decide (accountID = id)) as [<-|Hd].
    - rewrite lookup_insert_eq. cbn [default]. intros H. apply app_eq_nil in H as [_ H].
      discriminate.
    - rewrite lookup_insert_ne by assumption. exact Hne. }
  assert (Hsaved : stream_of (mkAccountService es (snapshotStore s)) accountID <> []).
  { unfold stream_of. cbn [eventStore es streams]. rewrite lookup_insert_eq. cbn [default].
    intros H. apply app_eq_nil in H as [_ H]. discriminate. }
  assert (Hes : stores_consistent (n + 1) (mkAccountService es (snapshotStore s))).
  { split; [|split].
    - intros id stream. cbn [eventStore es streams].
      destruct (decide (accountID = id)) as [<-|Hne].
      + rewrite lookup_insert_eq. intros [= <-]. split; [exact Hstream|exact Hfits].
      + rewrite lookup_insert_ne by assumption. apply Hwf.
    - intros id snapshot Hs. cbn [snapshotStore] in Hs.
      destruct (Hfiled id snapshot Hs) as [Hi Hne]. split; [exact Hi|]. apply Hgrown, Hne.
    - intros id stream. cbn [eventStore es streams].
      destruct (decide (accountID = id)) as [<-|Hne].
      + rewrite lookup_insert_eq. intros [= <-].
        rewrite len_app. change (GoInt.len [event]) with 1. lia.
      + rewrite lookup_insert_ne by assumption. intros Hs. specialize (Hlen id stream Hs). lia. }
  unfold saveSnapshotIfNeeded.
  destruct ((Z.rem (Version account) SnapshotFrequency =? 0) && (0 <? Version account));
    [|exact Hes].
  unfold CreateSnapshot. cbn [json_Marshal SaveSnapshot SnapshotAggregateID SnapshotVersion State].
  destruct Hes as (Hwf' & Hfiled' & Hlen'). split; [exact Hwf'|]. split; [|exact Hlen'].
  intros id snapshot Hl. cbn [snapshotStore snapshots] in Hl.
  change (stream_of (mkAccountService ?e ?x) id) with (stream_of (mkAccountService e (snapshotStore s)) id).
  destruct (decide (ID account = id)) as [<-|Hne].
  - rewrite lookup_insert_eq in Hl. injection Hl as <-. split; [reflexivity|].
    rewrite Hid. exact Hsaved.
  - rewrite lookup_insert_ne in Hl by assumption. apply (Hfiled' id snapshot Hl).
Qed.

(** *** With currencies that are valid UTF-8 *)

Lemma service_wf_weaken n m s : service_wf n s -> n <= m -> service_wf m s.
Proof.
  intros (Hwf & Hsnap & Hcred & Hlen) Hnm.
  split; [exact Hwf|]. split; [exact Hsnap|]. split; [exact Hcred|].
  intros id stream Hs. specialize (Hlen id stream Hs). lia.
Qed.

(** Appending to the stream of an aggregate one event that continues it
    keeps the stores consistent. *)
Lemma append_service_wf n s accountID event :
  service_wf n s -> 0 <= n -> n + 1 <= GoInt.MaxInt ->
  events.Version (GetBase event) = GoInt.len (stream_of s accountID) + 1 ->
  AggregateID (GetBase event) = accountID ->
  credit_nonneg event ->
  service_wf (n + 1)
    (mkAccountService
       (mkEventStore (<[accountID := stream_of s accountID ++ [event]]> (streams (eventStore s))))
       (snapshotStore s)).
Proof.
  intros (Hwf & Hsnap & Hcred & Hlen) Hn Hmax Hv Hid Hc.
  pose proof (stream_of_within n s accountID Hlen Hn) as Hbound.
  destruct (stream_of_wf s accountID Hwf) as [Hswf _].
  assert (Hlookup : forall id,
            stream_of (mkAccountService
                         (mkEventStore (<[accountID := stream_of s accountID ++ [event]]>
                                          (streams (eventStore s))))
                         (snapshotStore s)) id =
            if decide (accountID = id) then stream_of s accountID ++ [event] else stream_of s id).
  { intros id. unfold stream_of at 1. cbn [eventStore streams].
    destruct (decide (accountID = id)) as [<-|Hne].
    - rewrite lookup_insert_eq. reflexivity.
    - rewrite lookup_insert_ne by assumption. reflexivity. }
  split; [|split; [|split]].
  - intros id stream. cbn [eventStore streams].
    destruct (decide (accountID = id)) as [<-|Hne].
    + rewrite lookup_insert_eq. intros [= <-]. split.
      * intros i e Hi. apply lookup_app_Some in Hi as [Hi|[Hge Hi]]; [apply Hswf; exact Hi|].
        destruct (i - length (stream_of s accountID))%nat as [|k] eqn:Ek; [|destruct k; discriminate].
        injection Hi as <-. split; [|exact Hid]. rewrite Hv. unfold GoInt.len. lia.
      * rewrite len_app. change (GoInt.len [event]) with 1. lia.
    + rewrite lookup_insert_ne by assumption. apply Hwf.
  - intros id snapshot account Hs Happ. cbn [snapshotStore] in Hs.
    destruct (Hsnap id snapshot account Hs Happ) as ([Hlo Hhi] & replayed & Hrep & Hsame).
    rewrite Hlookup. destruct (decide (accountID = id)) as [<-|Hne].
    + split; [rewrite len_app; change (GoInt.len [event]) with 1; lia|].
      exists replayed. split; [|exact Hsame].
      rewrite take_app_le by (unfold GoInt.len in Hhi; lia). exact Hrep.
    + split; [split; assumption|]. exists replayed. split; assumption.
  - intros id stream. cbn [eventStore streams].
    destruct (decide (accountID = id)) as [<-|Hne].
    + rewrite lookup_insert_eq. intros [= <-]. apply Forall_app. split.
      * unfold stream_of. destruct (streams (eventStore s) !! accountID) as [old|] eqn:E; cbn.
        -- apply (Hcred accountID old E).
        -- constructor.
      * repeat constructor. exact Hc.
    + rewrite lookup_insert_ne by assumption. apply Hcred.
  - intros id stream. cbn [eventStore streams].
    destruct (decide (accountID = id)) as [<-|Hne].
    + rewrite lookup_insert_eq. intros [= <-].
      rewrite len_app. change (GoInt.len [event]) with 1. lia.
    + rewrite lookup_insert_ne by assumption. intros Hs. specialize (Hlen id stream Hs). lia.
Qed.

(** Snapshotting an account that is in the state its stream replays to,
    and whose currencies are valid UTF-8, keeps the stores consistent. *)
Lemma snapshot_service_wf n s account created_Now saved_Now :
  service_wf n s ->
  currencies_valid account ->
  Version account = GoInt.len (stream_of s (ID account)) ->
  (exists replayed,
     ApplyEvents (NewAccount (ID account)) (stream_of s (ID account)) = (None, replayed) /\
     same_state account replayed) ->
  service_wf n (saveSnapshotIfNeeded created_Now saved_Now s account) /\
  eventStore (saveSnapshotIfNeeded created_Now saved_Now s account) = eventStore s.
Proof.
  intros Hs Hvalid Hv (replayed & Hrep & Hsame). unfold saveSnapshotIfNeeded.
  destruct ((Z.rem (Version account) SnapshotFrequency =? 0) && (0 <? Version account));
    [|split; [exact Hs|reflexivity]].
  destruct (CreateSnapshot created_Now account) as [snapshot err] eqn:Ec.
  unfold CreateSnapshot in Ec. cbn [json_Marshal] in Ec. injection Ec as <- <-.
  cbn [SaveSnapshot SnapshotAggregateID SnapshotVersion State].
  split; [|reflexivity].
  destruct Hs as (Hwf & Hsnap & Hcred & Hlen).
  split; [exact Hwf|]. split; [|split; [exact Hcred|exact Hlen]].
  intros id snapshot loadedAccount Hl Happ. cbn [snapshotStore snapshots] in Hl.
  change (stream_of (mkAccountService (eventStore s) ?x) id) with (stream_of s id).
  destruct (decide (ID account = id)) as [<-|Hne].
  - rewrite lookup_insert_eq in Hl. injection Hl as <-.
    destruct (ApplySnapshot_CreateSnapshot created_Now saved_Now account loadedAccount
                _ Hvalid eq_refl Happ) as [Hback _].
    pose proof Hback as (_ & Hbv & _). rewrite Hbv, Hv.
    pose proof (len_nonneg (stream_of s (ID account))).
    split; [lia|]. exists replayed. split; [|eapply same_state_trans; eassumption].
    unfold GoInt.len. rewrite Nat2Z.id, firstn_all. exact Hrep.
  - rewrite lookup_insert_ne in Hl by assumption. apply (Hsnap id snapshot loadedAccount Hl Happ).
Qed.

(** What [loadAccount] returns in a consistent state. *)
Lemma loadAccount_Returned n s accountID account :
  service_wf n s ->
  loadAccount s accountID = Returned account ->
  changes account = [] /\
  ID account = accountID /\
  Version account = GoInt.len (stream_of s accountID) /\
  stream_of s accountID <> [] /\
  exists replayed,
    ApplyEvents (NewAccount accountID) (stream_of s accountID) = (None, replayed) /\
    same_state account replayed.
Proof.
  intros (Hwf & Hsnap & _) Hload.
  destruct (loadAccount_transparent s accountID Hwf Hsnap) as (r & Hf & Hs & Hc & Hl).
  rewrite Hl in Hload. destruct r as [[err|] a]; cbn [loaded fst snd] in *; [discriminate|].
  destruct (Z.eqb_spec (Version a) 0) as [E|E]; [discriminate|]. injection Hload as ->.
  destruct (ApplyEvents (NewAccount accountID) (stream_of s accountID)) as [[err|] replayed] eqn:Er;
    cbn [fst snd] in *; [discriminate|].
  destruct (replay_stream s accountID replayed Hwf Er) as (Hid & Hv & _).
  pose proof Hs as (Hi' & Hv' & _).
  split; [exact Hc|]. split; [congruence|]. split; [congruence|].
  split; [|exists replayed; split; [reflexivity|exact Hs]].
  intros Hnil. rewrite Hnil in Hv. change (GoInt.len (@nil Event)) with 0 in Hv. congruence.
Qed.

Lemma loadAccount_NotFound n s accountID err :
  service_wf n s ->
  loadAccount s accountID = Failed err ->
  Is err ErrAccountNotFound = true ->
  stream_of s accountID = [].
Proof.
  intros (Hwf & Hsnap & _) Hload His.
  destruct (loadAccount_transparent s accountID Hwf Hsnap) as (r & Hf & Hs & Hc & Hl).
  rewrite Hl in Hload. destruct r as [[cause|] a]; cbn [loaded fst snd] in *.
  - injection Hload as <-.
    destruct (ApplyEvents (NewAccount accountID) (stream_of s accountID)) as [[cause'|] a'] eqn:Er;
      cbn [fst] in Hf; [|discriminate]. injection Hf as ->.
    apply ApplyEvents_failure in Er as (applied & failing & rest & c0 & _ & _ & Hfail & ->).
    apply ApplyEvent_error_plain in Hfail as [format ->]. discriminate.
  - destruct (Z.eqb_spec (Version a) 0) as [E|E]; [|discriminate].
    destruct (ApplyEvents (NewAccount accountID) (stream_of s accountID)) as [[err'|] replayed] eqn:Er;
      cbn [fst snd] in *; [discriminate|].
    destruct (replay_stream s accountID replayed Hwf Er) as (_ & Hv & _).
    pose proof Hs as (_ & Hv' & _). apply len_0_nil. congruence.
Qed.

Lemma stream_of_currencies_valid s accountID :
  stored_currencies_valid s -> Forall event_currencies_valid (stream_of s accountID).
Proof.
  intros H. unfold stream_of.
  destruct (streams (eventStore s) !! accountID) as [stream|] eqn:E; cbn [default].
  - apply (H accountID stream E).
  - constructor.
Qed.

(** The currencies of an aggregate in the state its stream replays to. *)
Lemma replayed_currencies_valid s accountID account :
  stored_currencies_valid s ->
  (exists replayed,
     ApplyEvents (NewAccount accountID) (stream_of s accountID) = (None, replayed) /\
     same_state account replayed) ->
  currencies_valid account.
Proof.
  intros Hvalid (replayed & Hrep & Hsame).
  apply (same_state_currencies_valid account replayed Hsame).
  exact (ApplyEvents_currencies_valid _ _ _ (NewAccount_currencies_valid accountID)
           (stream_of_currencies_valid s accountID Hvalid) Hrep).
Qed.

(** The step every command of the service ends with. An aggregate that
    is in the state its stored stream replays to has accepted one event:
    [SaveEvents] takes the event for the version the aggregate had, the stores
    stay consistent through the save and the snapshot that may follow, and
    the account loaded afterwards is in the state the aggregate has reached. *)
Lemma commit n s accountID account event a0 created_Now saved_Now :
  service_wf n s -> stored_currencies_valid s -> 0 <= n -> n + 1 <= GoInt.MaxInt ->
  Version account = GoInt.len (stream_of s accountID) ->
  (exists replayed,
     ApplyEvents (NewAccount accountID) (stream_of s accountID) = (None, replayed) /\
     same_state account replayed) ->
  ApplyEvent account event = (None, a0) ->
  AggregateID (GetBase event) = accountID ->
  ID a0 = accountID ->
  credit_nonneg event ->
  event_currencies_valid event ->
  exists es,
    es = mkEventStore (<[accountID := stream_of s accountID ++ [event]]> (streams (eventStore s))) /\
    SaveEvents (eventStore s) accountID (Version account) [event] = (None, es) /\
    eventStore (saveSnapshotIfNeeded created_Now saved_Now
                  (mkAccountService es (snapshotStore s)) (set_changes a0 [])) = es /\
    service_wf (n + 1)
      (saveSnapshotIfNeeded created_Now saved_Now
         (mkAccountService es (snapshotStore s)) (set_changes a0 [])) /\
    stored_currencies_valid
      (saveSnapshotIfNeeded created_Now saved_Now
         (mkAccountService es (snapshotStore s)) (set_changes a0 [])) /\
    exists account',
      loadAccount (saveSnapshotIfNeeded created_Now saved_Now
                     (mkAccountService es (snapshotStore s)) (set_changes a0 [])) accountID
        = Returned account' /\
      same_state account' a0 /\ changes account' = [].
Proof.
  intros Hs Hvalid Hn Hmax Hv Hreplay Happ Hagg Hid Hcred Hevent.
  pose proof (replayed_currencies_valid s accountID account Hvalid Hreplay) as Haccount.
  pose proof (ApplyEvent_currencies_valid _ _ _ Haccount Hevent Happ) as Ha0.
  destruct Hreplay as (replayed & Hrep & Hsame).
  pose proof Hs as (Hwf & Hsnap & Hcreds & Hlen).
  pose proof (stream_of_within n s accountID Hlen Hn) as Hbound.
  pose proof (len_nonneg (stream_of s accountID)) as Hpos.
  destruct (ApplyEvent_success _ _ _ Happ) as (Hev & Hv0 & _ & _).
  assert (Hnext : events.Version (GetBase event) = GoInt.len (stream_of s accountID) + 1).
  { rewrite Hev, Hv. apply add_1_in_range; unfold GoInt.MinInt; lia. }
  eexists. split; [reflexivity|].
  set (es := mkEventStore (<[accountID := stream_of s accountID ++ [event]]>
                             (streams (eventStore s)))).
  set (s1 := mkAccountService es (snapshotStore s)).
  assert (Hs1 : service_wf (n + 1) s1)
    by (apply append_service_wf; assumption).
  assert (Hstream1 : stream_of s1 accountID = stream_of s accountID ++ [event]).
  { unfold stream_of at 1, s1, es. cbn [eventStore streams]. rewrite lookup_insert_eq. reflexivity. }
  destruct (ApplyEvent_same_state account replayed event Hsame) as [Hf1 Hs1'].
  rewrite Happ in Hf1, Hs1'. cbn [fst snd] in Hf1, Hs1'.
  destruct (ApplyEvent replayed event) as [r1err replayed1] eqn:Er1. cbn [fst snd] in *. subst r1err.
  assert (Hrep1 : ApplyEvents (NewAccount accountID) (stream_of s1 accountID) = (None, replayed1)).
  { rewrite Hstream1, ApplyEvents_app, Hrep. cbn [ApplyEvents]. rewrite Er1. reflexivity. }
  assert (Hvalid1 : stored_currencies_valid s1).
  { intros id stream. unfold s1, es. cbn [eventStore streams].
    destruct (decide (accountID = id)) as [<-|Hne].
    - rewrite lookup_insert_eq. intros [= <-]. apply Forall_app. split.
      + apply stream_of_currencies_valid. exact Hvalid.
      + repeat constructor. exact Hevent.
    - rewrite lookup_insert_ne by assumption. apply Hvalid. }
  destruct (snapshot_service_wf (n + 1) s1 (set_changes a0 []) created_Now saved_Now Hs1)
    as [Hs2 Hes2].
  { exact Ha0. }
  { cbn [set_changes Version ID]. rewrite Hid, Hstream1, len_app, Hv0, Hnext. reflexivity. }
  { cbn [set_changes ID]. rewrite Hid. exists replayed1. split; [exact Hrep1|].
    destruct Hs1' as (Ha & Hb & Hc). repeat split; assumption. }
  split; [|split; [exact Hes2|split; [exact Hs2|split]]].
  - unfold SaveEvents. change (GoInt.len [event] =? 0) with false. cbv iota.
    destruct (currentVersion_stored (eventStore s) accountID Hwf) as [_ Hcur].
    fold (stream_of s accountID) in Hcur. rewrite Hcur, Hv, Z.eqb_refl. cbn [negb check_batch].
    rewrite <- Hv, <- Hev, Z.eqb_refl, Hagg, String.eqb_refl. cbn [negb]. reflexivity.
  - intros id stream. rewrite Hes2. apply Hvalid1.
  - set (s2 := saveSnapshotIfNeeded created_Now saved_Now s1 (set_changes a0 [])) in *.
    pose proof Hs2 as (Hwf2 & Hsnap2 & _).
    destruct (loadAccount_transparent s2 accountID Hwf2 Hsnap2) as (r & Hf & Hst & Hc & Hl).
    assert (Hstream2 : stream_of s2 accountID = stream_of s1 accountID)
      by (unfold stream_of; rewrite Hes2; reflexivity).
    rewrite Hstream2, Hrep1 in Hf, Hst. cbn [fst snd] in Hf, Hst.
    destruct r as [rerr a']. cbn [fst snd] in *. subst rerr.
    exists a'. split; [|split; [|exact Hc]].
    + rewrite Hl. cbn [loaded]. pose proof Hst as (_ & Hva & _).
      pose proof Hs1' as (_ & Hvb & _). rewrite Hva, <- Hvb, Hv0, Hnext.
      destruct (Z.eqb_spec (GoInt.len (stream_of s accountID) + 1) 0); [lia|reflexivity].
    + eapply same_state_trans; [exact Hst|]. apply same_state_sym. exact Hs1'.
Qed.

(** A command of the aggregate that the service runs on a loaded account
    and commits. *)
Lemma commit_handled n s accountID account uuid_New time_Now created_Now saved_Now c account1 :
  service_wf n s -> stored_currencies_valid s -> 0 <= n -> n + 1 <= GoInt.MaxInt ->
  loadAccount s accountID = Returned account ->
  match c with CreateAccount _ _ => False | _ => True end ->
  command_currencies_valid c ->
  Handle uuid_New time_Now account c = Returns (None, account1) ->
  exists event a0 es,
    ApplyEvent account event = (None, a0) /\
    GetUncommitedChanges account1 = ([event], set_changes a0 []) /\
    es = mkEventStore (<[accountID := stream_of s accountID ++ [event]]> (streams (eventStore s))) /\
    SaveEvents (eventStore s) accountID (Version account) [event] = (None, es) /\
    eventStore (saveSnapshotIfNeeded created_Now saved_Now
                  (mkAccountService es (snapshotStore s)) (set_changes a0 [])) = es /\
    service_wf (n + 1)
      (saveSnapshotIfNeeded created_Now saved_Now
         (mkAccountService es (snapshotStore s)) (set_changes a0 [])) /\
    stored_currencies_valid
      (saveSnapshotIfNeeded created_Now saved_Now
         (mkAccountService es (snapshotStore s)) (set_changes a0 [])) /\
    exists account',
      loadAccount (saveSnapshotIfNeeded created_Now saved_Now
                     (mkAccountService es (snapshotStore s)) (set_changes a0 [])) accountID
        = Returned account' /\
      same_state account' a0 /\ changes account' = [].
Proof.
  intros Hs Hvalid Hn Hmax Hload Hc Hcommand Hh.
  destruct (loadAccount_Returned n s accountID account Hs Hload) as (Hch & Hid & Hv & _ & Hrep).
  pose proof (replayed_currencies_valid s accountID account Hvalid Hrep) as Haccount.
  apply Handle_emits_id in Hh as (event & a0 & Happ & -> & Hcred & Hagg & Hevent).
  assert (Hagg' : AggregateID (GetBase event) = ID account) by (destruct c; tauto).
  pose proof (applied_ID _ _ _ Happ Hagg') as Hid0.
  destruct (commit n s accountID account event a0 created_Now saved_Now Hs Hvalid Hn Hmax Hv Hrep
              Happ)
    as (es & Hes & Hrest); [congruence|congruence|exact Hcred|exact (Hevent Haccount Hcommand)|].
  exists event, a0, es. split; [exact Happ|]. split; [|split; [exact Hes|exact Hrest]].
  unfold GetUncommitedChanges. cbn [set_changes changes]. rewrite Hch. reflexivity.
Qed.

Lemma new_service_wf : service_wf 0 new_service.
Proof.
  split; [exact NewInMemoryEventStore_wf|]. split; [|split].
  - intros id snapshot account H. cbn in H. rewrite lookup_empty in H. discriminate.
  - intros id stream H. cbn in H. rewrite lookup_empty in H. discriminate.
  - intros id stream H. cbn in H. rewrite lookup_empty in H. discriminate.
Qed.

Lemma new_service_consistent : stores_consistent 0 new_service.
Proof.
  split; [exact NewInMemoryEventStore_wf|]. split.
  - intros id snapshot H. cbn in H. rewrite lookup_empty in H. discriminate.
  - intros id stream H. cbn in H. rewrite lookup_empty in H. discriminate.
Qed.

Lemma new_service_currencies_valid : stored_currencies_valid new_service.
Proof. intros id stream H. cbn in H. rewrite lookup_empty in H. discriminate. Qed.

Lemma initial_currencies_valid (m : gmap Currency Decimal) :
  forallb (fun kv => utf8.ValidString (fst kv)) (map_to_list m) = true ->
  forall currency amount, m !! currency = Some amount -> utf8.ValidString currency = true.
Proof.
  intros H currency amount Hl. rewrite forallb_forall in H.
  apply (H (currency, amount)). apply list_elem_of_In, elem_of_map_to_list. exact Hl.
Qed.

(** A conversion that is handled is between two different currencies. *)
Lemma HandleConvertCurrency_distinct uuid_New time_Now a fromAmount fromCurrency toCurrency rate a' :
  HandleConvertCurrency uuid_New time_Now a fromAmount fromCurrency toCurrency rate
    = Returns (None, a') ->
  fromCurrency <> toCurrency.
Proof.
  unfold HandleConvertCurrency.
  destruct (String.eqb (ID a) "" || (Version a =? 0)); [intros [=]|].
  destruct (negb (IsPositive fromAmount)); [intros [=]|].
  destruct (String.eqb_spec fromCurrency toCurrency); [intros [=]|]. intros _. assumption.
Qed.

Section Reachable.
Variable Div : Decimal -> Decimal -> Decimal.

(** Whatever a call of the service is given and whatever it returns, the
    stores stay consistent. *)
Lemma serve_consistent n s r :
  stores_consistent n s -> 0 <= n -> n + 1 <= GoInt.MaxInt ->
  stores_consistent (n + 1) (serve Div s r).
Proof.
  intros Hs Hn Hmax.
  assert (Hsame : stores_consistent (n + 1) s)
    by (apply (stores_consistent_weaken n); [exact Hs|lia]).
  pose proof Hs as (Hwf & Hfiled & _).
  assert (Hcommit : forall accountID account c u t cn sn account1,
            ID account = accountID -> changes account = [] ->
            match c with CreateAccount id _ => id = accountID | _ => True end ->
            Handle u t account c = Returns (None, account1) ->
            stores_consistent (n + 1)
              (let '(changes, account') := GetUncommitedChanges account1 in
               if GoInt.len changes =? 0 then s
               else
                 let '(err, es) :=
                   SaveEvents (eventStore s) accountID (Version account) changes in
                 match err with
                 | Some _ => mkAccountService es (snapshotStore s)
                 | None =>
                     saveSnapshotIfNeeded cn sn (mkAccountService es (snapshotStore s)) account'
                 end)).
  { intros accountID account c u t cn sn account1 Hid Hch Hc Hh.
    apply Handle_emits_id in Hh as (event & a0 & Happ & -> & _ & Hagg & _).
    assert (Hagg' : AggregateID (GetBase event) = ID account)
      by (destruct c; congruence).
    unfold GetUncommitedChanges. cbn [set_changes changes]. rewrite Hch. cbn [app].
    change (GoInt.len [event] =? 0) with false. cbv iota.
    destruct (SaveEvents (eventStore s) accountID (Version account) [event])
      as [[serr|] es] eqn:Hsave.
    - apply SaveEvents_failure in Hsave as ->. rewrite AccountService_eta. exact Hsame.
    - apply (saved_consistent n s accountID (Version account) event es); try assumption.
      change (ID a0 = accountID). rewrite (applied_ID _ _ _ Happ Hagg'). exact Hid. }
  destruct r as [uuid_NewString u t cn sn cmd|u t cn sn cmd|u t cn sn cmd|u t cn sn cmd];
    cbn [serve].
  - unfold app.CreateAccount.
    set (accountID := if String.eqb (CreateAccountID cmd) "" then uuid_NewString
                      else CreateAccountID cmd).
    destruct (loadAccount s accountID) as [existing|err|reason] eqn:Hload; cbn [snd];
      try exact Hsame.
    destruct (Is err ErrAccountNotFound) eqn:Hnf; cbn [negb snd]; [|exact Hsame].
    destruct (HandleCreateAccount u t (NewAccount accountID) accountID (CreateInitialBalances cmd))
      as [[herr|] account1] eqn:Hh; cbn [snd]; [exact Hsame|].
    apply (f_equal Returns) in Hh.
    specialize (Hcommit accountID (NewAccount accountID)
                  (CreateAccount accountID (CreateInitialBalances cmd)) u t cn sn account1
                  eq_refl eq_refl eq_refl Hh).
    cbn [NewAccount Version] in Hcommit.
    destruct (GetUncommitedChanges account1) as [changes account'].
    destruct (GoInt.len changes =? 0); [exact Hsame|]. cbn [snd].
    destruct (SaveEvents (eventStore s) accountID 0 changes) as [[serr|] es];
      exact Hcommit.
  - unfold app.Deposit.
    destruct (loadAccount s (DepositAccountID cmd)) as [account|err|reason] eqn:Hload; cbn [snd];
      try exact Hsame.
    destruct (loadAccount_sound s _ account Hwf Hfiled Hload) as (Hid & Hch & _).
    destruct (HandleDeposit u t account (DepositAmount cmd) (DepositCurrency cmd))
      as [[herr|] account1] eqn:Hh; cbn [snd]; [exact Hsame|].
    apply (f_equal Returns) in Hh.
    specialize (Hcommit (DepositAccountID cmd) account
                  (Deposit (DepositAmount cmd) (DepositCurrency cmd)) u t cn sn account1
                  Hid Hch I Hh).
    destruct (GetUncommitedChanges account1) as [changes account'].
    destruct (GoInt.len changes =? 0); [exact Hsame|]. cbn [snd].
    destruct (SaveEvents (eventStore s) (DepositAccountID cmd) (Version account) changes)
      as [[serr|] es]; exact Hcommit.
  - unfold app.Withdraw.
    destruct (loadAccount s (WithdrawAccountID cmd)) as [account|err|reason] eqn:Hload; cbn [snd];
      try exact Hsame.
    destruct (loadAccount_sound s _ account Hwf Hfiled Hload) as (Hid & Hch & _).
    destruct (HandleWithdraw u t account (WithdrawAmount cmd) (WithdrawCurrency cmd))
      as [[herr|] account1] eqn:Hh; cbn [snd]; [destruct (Is herr _); exact Hsame|].
    apply (f_equal Returns) in Hh.
    specialize (Hcommit (WithdrawAccountID cmd) account
                  (Withdraw (WithdrawAmount cmd) (WithdrawCurrency cmd)) u t cn sn account1
                  Hid Hch I Hh).
    destruct (GetUncommitedChanges account1) as [changes account'].
    destruct (GoInt.len changes =? 0); [exact Hsame|]. cbn [snd].
    destruct (SaveEvents (eventStore s) (WithdrawAccountID cmd) (Version account) changes)
      as [[serr|] es]; exact Hcommit.
  - unfold app.ConvertCurrency.
    destruct (loadAccount s (ConvertAccountID cmd)) as [account|err|reason] eqn:Hload; cbn [snd];
      try exact Hsame.
    destruct (loadAccount_sound s _ account Hwf Hfiled Hload) as (Hid & Hch & _).
    destruct (getExchangeRate Div (ConvertFromCurrency cmd) (ConvertToCurrency cmd))
      as [rate [rerr|]]; cbn [snd]; [exact Hsame|].
    destruct (HandleConvertCurrency u t account (ConvertFromAmount cmd)
                (ConvertFromCurrency cmd) (ConvertToCurrency cmd) rate)
      as [[[herr|] account1]|reason] eqn:Hh; cbn [snd];
      [destruct (Is herr _); exact Hsame| |exact Hsame].
    specialize (Hcommit (ConvertAccountID cmd) account
                  (ConvertCurrency (ConvertFromAmount cmd) (ConvertFromCurrency cmd)
                     (ConvertToCurrency cmd) rate) u t cn sn account1
                  Hid Hch I Hh).
    destruct (GetUncommitedChanges account1) as [changes account'].
    destruct (GoInt.len changes =? 0); [exact Hsame|]. cbn [snd].
    destruct (SaveEvents (eventStore s) (ConvertAccountID cmd) (Version account) changes)
      as [[serr|] es]; exact Hcommit.
Qed.

(** After any sequence of calls on new stores, fewer than the largest
    [int], the stores are consistent. *)
Lemma serve_all_consistent rs :
  GoInt.len rs <= GoInt.MaxInt -> stores_consistent (GoInt.len rs) (serve_all Div rs).
Proof.
  induction rs as [|r rs IH] using rev_ind; intros Hlen.
  - exact new_service_consistent.
  - unfold serve_all. rewrite foldl_app. cbn [foldl]. fold (serve_all Div rs).
    rewrite len_app in *. change (GoInt.len [r]) with 1 in *.
    pose proof (len_nonneg rs).
    apply serve_consistent; [apply IH| |]; lia.
Qed.

(** When the currencies a call names are valid UTF-8, the snapshots stay
    faithful as well. *)
Lemma serve_service_wf n s r :
  service_wf n s -> stored_currencies_valid s -> request_currencies_valid r = true ->
  0 <= n -> n + 1 <= GoInt.MaxInt ->
  service_wf (n + 1) (serve Div s r) /\ stored_currencies_valid (serve Div s r).
Proof.
  intros Hs Hvalid Hr Hn Hmax.
  assert (Hsame : service_wf (n + 1) s /\ stored_currencies_valid s).
  { split; [|exact Hvalid]. apply (service_wf_weaken n); [exact Hs|lia]. }
  destruct r as [uuid_NewString u t cn sn cmd|u t cn sn cmd|u t cn sn cmd|u t cn sn cmd];
    cbn [serve request_currencies_valid] in *.
  - unfold app.CreateAccount.
    set (accountID := if String.eqb (CreateAccountID cmd) "" then uuid_NewString
                      else CreateAccountID cmd).
    destruct (loadAccount s accountID) as [existing|err|reason] eqn:Hload; cbn [snd];
      try exact Hsame.
    destruct (Is err ErrAccountNotFound) eqn:Hnf; cbn [negb snd]; [|exact Hsame].
    destruct (HandleCreateAccount u t (NewAccount accountID) accountID (CreateInitialBalances cmd))
      as [[herr|] account1] eqn:Hh; cbn [snd]; [exact Hsame|].
    apply (f_equal Returns) in Hh.
    change (Returns (HandleCreateAccount u t (NewAccount accountID) accountID
                       (CreateInitialBalances cmd)))
      with (Handle u t (NewAccount accountID)
              (CreateAccount accountID (CreateInitialBalances cmd))) in Hh.
    apply Handle_emits_id in Hh as (event & a0 & Happ & -> & Hcred & Hagg & Hevent).
    pose proof (loadAccount_NotFound n s accountID err Hs Hload Hnf) as Hnil.
    destruct (commit n s accountID (NewAccount accountID) event a0 cn sn Hs Hvalid Hn Hmax)
      as (es & -> & Hsave & _ & Hwf' & Hvalid' & _);
      [rewrite Hnil; reflexivity
      |exists (NewAccount accountID); rewrite Hnil; split; [reflexivity|apply same_state_refl]
      |exact Happ|exact Hagg|exact (applied_ID _ _ _ Happ Hagg)|exact Hcred
      |exact (Hevent (NewAccount_currencies_valid accountID)
                (initial_currencies_valid _ Hr))|].
    unfold GetUncommitedChanges. cbn [set_changes changes NewAccount app].
    change (GoInt.len [event] =? 0) with false. cbv iota.
    cbn [NewAccount Version] in Hsave. rewrite Hsave. cbn [snd]. split; assumption.
  - unfold app.Deposit.
    destruct (loadAccount s (DepositAccountID cmd)) as [account|err|reason] eqn:Hload; cbn [snd];
      try exact Hsame.
    destruct (HandleDeposit u t account (DepositAmount cmd) (DepositCurrency cmd))
      as [[herr|] account1] eqn:Hh; cbn [snd]; [exact Hsame|].
    destruct (commit_handled n s _ account u t cn sn
                (Deposit (DepositAmount cmd) (DepositCurrency cmd)) account1 Hs Hvalid Hn Hmax
                Hload I Hr (f_equal Returns Hh))
      as (event & a0 & es & _ & -> & _ & Hsave & _ & Hwf' & Hvalid' & _).
    change (GoInt.len [event] =? 0) with false. cbv iota.
    rewrite Hsave. cbn [snd]. split; assumption.
  - unfold app.Withdraw.
    destruct (loadAccount s (WithdrawAccountID cmd)) as [account|err|reason] eqn:Hload; cbn [snd];
      try exact Hsame.
    destruct (HandleWithdraw u t account (WithdrawAmount cmd) (WithdrawCurrency cmd))
      as [[herr|] account1] eqn:Hh; cbn [snd]; [destruct (Is herr _); exact Hsame|].
    destruct (commit_handled n s _ account u t cn sn
                (Withdraw (WithdrawAmount cmd) (WithdrawCurrency cmd)) account1 Hs Hvalid Hn Hmax
                Hload I I (f_equal Returns Hh))
      as (event & a0 & es & _ & -> & _ & Hsave & _ & Hwf' & Hvalid' & _).
    change (GoInt.len [event] =? 0) with false. cbv iota.
    rewrite Hsave. cbn [snd]. split; assumption.
  - unfold app.ConvertCurrency.
    destruct (loadAccount s (ConvertAccountID cmd)) as [account|err|reason] eqn:Hload; cbn [snd];
      try exact Hsame.
    destruct (getExchangeRate Div (ConvertFromCurrency cmd) (ConvertToCurrency cmd))
      as [rate [rerr|]] eqn:Hrate; cbn [snd]; [exact Hsame|].
    destruct (HandleConvertCurrency u t account (ConvertFromAmount cmd)
                (ConvertFromCurrency cmd) (ConvertToCurrency cmd) rate)
      as [[[herr|] account1]|reason] eqn:Hh; cbn [snd];
      [destruct (Is herr _); exact Hsame| |exact Hsame].
    pose proof (HandleConvertCurrency_distinct _ _ _ _ _ _ _ _ Hh) as Hdistinct.
    destruct (getExchangeRate_target Div _ _ _ Hrate Hdistinct) as [_ Hto].
    destruct (commit_handled n s _ account u t cn sn
                (ConvertCurrency (ConvertFromAmount cmd) (ConvertFromCurrency cmd)
                   (ConvertToCurrency cmd) rate) account1 Hs Hvalid Hn Hmax Hload I Hto Hh)
      as (event & a0 & es & _ & -> & _ & Hsave & _ & Hwf' & Hvalid' & _).
    change (GoInt.len [event] =? 0) with false. cbv iota.
    rewrite Hsave. cbn [snd]. split; assumption.
Qed.

(** After any sequence of calls on new stores, fewer than the largest
    [int], that bring in only currencies that are valid UTF-8, the stores are
    consistent and the snapshots faithful. *)
Lemma serve_all_wf rs :
  forallb request_currencies_valid rs = true ->
  GoInt.len rs <= GoInt.MaxInt ->
  service_wf (GoInt.len rs) (serve_all Div rs) /\ stored_currencies_valid (serve_all Div rs).
Proof.
  induction rs as [|r rs IH] using rev_ind; intros Hvalid Hlen.
  - split; [exact new_service_wf|exact new_service_currencies_valid].
  - unfold serve_all. rewrite foldl_app. cbn [foldl]. fold (serve_all Div rs).
    rewrite forallb_app in Hvalid. apply andb_true_iff in Hvalid as [Hrs Hr].
    cbn [forallb] in Hr. rewrite andb_true_r in Hr.
    rewrite len_app in *. change (GoInt.len [r]) with 1 in *.
    pose proof (len_nonneg rs).
    destruct IH as [IHwf IHvalid]; [exact Hrs|lia|].
    apply serve_service_wf; [exact IHwf|exact IHvalid|exact Hr| |]; lia.
Qed.

End Reachable.

(** ** The commands of the service *)

Section Commands.
Variable Div : Decimal -> Decimal -> Decimal.

Lemma stream_of_saved s accountID es event (s' : AccountService) :
  es = mkEventStore (<[accountID := stream_of s accountID ++ [event]]> (streams (eventStore s))) ->
  eventStore s' = es ->
  stream_of s' accountID = stream_of s accountID ++ [event] /\
  forall id, id <> accountID -> stream_of s' id = stream_of s id.
Proof.
  intros -> Hes. unfold stream_of at 1 3. rewrite Hes. cbn [streams]. split.
  - rewrite lookup_insert_eq. reflexivity.
  - intros id Hne. rewrite lookup_insert_ne by congruence. reflexivity.
Qed.

Lemma loaded_version n s accountID account :
  service_wf n s -> 0 <= n -> n + 1 <= GoInt.MaxInt ->
  loadAccount s accountID = Returned account ->
  Version account <> 0 /\ GoInt.add (Version account) 1 = Version account + 1 /\
  ID account = accountID /\ changes account = [].
Proof.
  intros Hs Hn Hmax Hload.
  destruct (loadAccount_Returned n s accountID account Hs Hload) as (Hch & Hid & Hv & Hne & _).
  destruct Hs as (_ & _ & _ & Hlen).
  pose proof (stream_of_within n s accountID Hlen Hn). pose proof (len_nonneg (stream_of s accountID)).
  repeat split; try assumption.
  - rewrite Hv. intros E. apply len_0_nil in E. contradiction.
  - apply add_1_in_range; unfold GoInt.MinInt; lia.
Qed.

(** X21. A deposit through the service, in any state the service reaches
    from new stores by calls of its commands (fewer than the largest [int])
    whose creations and deposits name only currencies that are valid UTF-8,
    and for a currency that is valid UTF-8: when the account loads, its id is
    not empty and the amount is greater than zero, [Deposit] returns no error;
    the stream of the account has grown by exactly one [DepositMadeEvent], of
    the next version, the other streams are untouched; and the account loaded
    afterwards is one version further, its balance of the currency is the old
    balance plus the amount and its other balances are as before. *)
Theorem Deposit_appends_and_credits (rs : list request) (uuid_New : UUID)
    (time_Now created_Now saved_Now : Time) (cmd : DepositMoneyCommand) (account : Account)
    (Hcalls : GoInt.len rs < GoInt.MaxInt)
    (Hcurrencies : forallb request_currencies_valid rs = true)
    (Hcurrency : utf8.ValidString (DepositCurrency cmd) = true)
    (Hid : DepositAccountID cmd <> "")
    (Hload : loadAccount (serve_all Div rs) (DepositAccountID cmd) = Returned account)
    (Hpos : (0 < toQ (DepositAmount cmd))%Q) :
  exists s' account',
    app.Deposit uuid_New time_Now created_Now saved_Now (serve_all Div rs) cmd
      = (Returned tt, s') /\
    stream_of s' (DepositAccountID cmd) =
      stream_of (serve_all Div rs) (DepositAccountID cmd) ++
        [DepositMadeEvent
           (NewBaseEvent uuid_New time_Now (DepositAccountID cmd) (Version account + 1)
              DepositMadeType)
           (DepositAmount cmd) (DepositCurrency cmd)] /\
    (forall id, id <> DepositAccountID cmd -> stream_of s' id = stream_of (serve_all Div rs) id) /\
    loadAccount s' (DepositAccountID cmd) = Returned account' /\
    Version account' = Version account + 1 /\
    (toQ (getBalance account' (DepositCurrency cmd)) ==
       toQ (getBalance account (DepositCurrency cmd)) + toQ (DepositAmount cmd))%Q /\
    (forall currency, currency <> DepositCurrency cmd ->
       same_amount (Balances account' !! currency) (Balances account !! currency)).
Proof.
  set (s := serve_all Div rs) in *.
  destruct (serve_all_wf Div rs Hcurrencies ltac:(lia)) as [Hs Hvalid].
  fold s in Hs, Hvalid.
  pose proof (len_nonneg rs) as Hn.
  destruct (loaded_version _ s _ account Hs Hn ltac:(lia) Hload) as (Hv0 & Hadd & Hida & Hch).
  apply IsPositive_toQ in Hpos.
  pose proof (HandleDeposit_applied uuid_New time_Now account (DepositAmount cmd)
                (DepositCurrency cmd) ltac:(congruence) Hv0 Hpos) as Hh.
  destruct (commit_handled (GoInt.len rs) s (DepositAccountID cmd) account uuid_New time_Now
              created_Now saved_Now (Deposit (DepositAmount cmd) (DepositCurrency cmd)) _
              Hs Hvalid Hn ltac:(lia) Hload I Hcurrency (f_equal Returns Hh))
    as (event & a0 & es & _ & Hget & Hes & Hsave & Hstore & _ & _ & account' & Hload' & Hsame & _).
  unfold GetUncommitedChanges in Hget. cbn [changes] in Hget.
  rewrite Hch in Hget. cbn [app] in Hget.
  pose proof (f_equal snd Hget) as Hacc. cbn [snd] in Hacc.
  apply (f_equal fst) in Hget. cbn [fst] in Hget. injection Hget as Hevent. subst event.
  rewrite <- Hacc in Hstore, Hload'.
  assert (Hb0 : Balances a0 =
                <[DepositCurrency cmd := Add (getBalance account (DepositCurrency cmd))
                                           (DepositAmount cmd)]> (Balances account))
    by (apply (f_equal Balances) in Hacc; symmetry; exact Hacc).
  assert (Hver0 : Version a0 = GoInt.add (Version account) 1)
    by (apply (f_equal Version) in Hacc; symmetry; exact Hacc).
  destruct (stream_of_saved s (DepositAccountID cmd) es _ _ Hes Hstore) as [Hstream Hothers].
  eexists _, account'. split; [|split; [|split; [|split; [|split; [|split]]]]].
  - unfold app.Deposit. fold s. rewrite Hload, Hh.
    unfold GetUncommitedChanges. cbn [changes].
    rewrite Hch. cbn [app].
    change (GoInt.len [?e] =? 0) with false. cbv iota. rewrite Hsave. reflexivity.
  - rewrite Hstream, Hadd, Hida. reflexivity.
  - exact Hothers.
  - exact Hload'.
  - destruct Hsame as (_ & -> & _). rewrite Hver0. exact Hadd.
  - pose proof (same_state_getBalance _ _ (DepositCurrency cmd) Hsame) as He.
    apply Equal_toQ in He. rewrite He. unfold getBalance at 1. rewrite Hb0.
    rewrite lookup_insert_eq. apply toQ_Add.
  - intros currency Hne. destruct Hsame as (_ & _ & Hb). specialize (Hb currency).
    rewrite Hb0, lookup_insert_ne in Hb by congruence. exact Hb.
Qed.

(** X22. A withdrawal through the service, in any state the service
    reaches from new stores by calls of its commands (fewer than the largest
    [int]) whose creations and deposits name only currencies that are valid
    UTF-8, for an account that loads, has an id that is not empty, and an
    amount greater than zero. When the balance of the currency is at least the
    amount, [Withdraw] returns no error, the stream of the account has grown
    by exactly one [WithdrawalMadeEvent] of the next version, the other
    streams are untouched, and the account loaded afterwards is one version
    further with the balance of the currency reduced by the amount and its
    other balances as before. When the balance is smaller, [Withdraw] returns
    the error of the aggregate itself, which is [ErrInsufficientFunds], and
    both stores are as they were. *)
Theorem Withdraw_debits_or_refuses (rs : list request) (uuid_New : UUID)
    (time_Now created_Now saved_Now : Time) (cmd : WithdrawMoneyCommand) (account : Account)
    (Hcalls : GoInt.len rs < GoInt.MaxInt)
    (Hcurrencies : forallb request_currencies_valid rs = true)
    (Hid : WithdrawAccountID cmd <> "")
    (Hload : loadAccount (serve_all Div rs) (WithdrawAccountID cmd) = Returned account)
    (Hpos : (0 < toQ (WithdrawAmount cmd))%Q) :
  ((toQ (WithdrawAmount cmd) <= toQ (getBalance account (WithdrawCurrency cmd)))%Q ->
   exists s' account',
     app.Withdraw uuid_New time_Now created_Now saved_Now (serve_all Div rs) cmd
       = (Returned tt, s') /\
     stream_of s' (WithdrawAccountID cmd) =
       stream_of (serve_all Div rs) (WithdrawAccountID cmd) ++
         [WithdrawalMadeEvent
            (NewBaseEvent uuid_New time_Now (WithdrawAccountID cmd) (Version account + 1)
               WithdrawalMadeType)
            (WithdrawAmount cmd) (WithdrawCurrency cmd)] /\
     (forall id, id <> WithdrawAccountID cmd ->
        stream_of s' id = stream_of (serve_all Div rs) id) /\
     loadAccount s' (WithdrawAccountID cmd) = Returned account' /\
     Version account' = Version account + 1 /\
     (toQ (getBalance account' (WithdrawCurrency cmd)) ==
        toQ (getBalance account (WithdrawCurrency cmd)) - toQ (WithdrawAmount cmd))%Q /\
     (forall currency, currency <> WithdrawCurrency cmd ->
        same_amount (Balances account' !! currency) (Balances account !! currency))) /\
  ((toQ (getBalance account (WithdrawCurrency cmd)) < toQ (WithdrawAmount cmd))%Q ->
   app.Withdraw uuid_New time_Now created_Now saved_Now (serve_all Div rs) cmd =
     (Failed (Errorf_w "%w: requested %s %s, available %s %s" ErrInsufficientFunds),
      serve_all Div rs)).
Proof.
  set (s := serve_all Div rs) in *.
  destruct (serve_all_wf Div rs Hcurrencies ltac:(lia)) as [Hs Hvalid].
  fold s in Hs, Hvalid.
  pose proof (len_nonneg rs) as Hn.
  destruct (loaded_version _ s _ account Hs Hn ltac:(lia) Hload) as (Hv0 & Hadd & Hida & Hch).
  apply IsPositive_toQ in Hpos. split.
  - intros Hfunds. apply GreaterThanOrEqual_toQ in Hfunds.
    pose proof (HandleWithdraw_applied uuid_New time_Now account (WithdrawAmount cmd)
                  (WithdrawCurrency cmd) ltac:(congruence) Hv0 Hpos Hfunds) as Hh.
    destruct (commit_handled (GoInt.len rs) s (WithdrawAccountID cmd) account uuid_New time_Now
                created_Now saved_Now (Withdraw (WithdrawAmount cmd) (WithdrawCurrency cmd)) _
                Hs Hvalid Hn ltac:(lia) Hload I I (f_equal Returns Hh))
      as (event & a0 & es & _ & Hget & Hes & Hsave & Hstore & _ & _ & account' & Hload' & Hsame
          & _).
    unfold GetUncommitedChanges in Hget. cbn [changes] in Hget.
    rewrite Hch in Hget. cbn [app] in Hget.
    pose proof (f_equal snd Hget) as Hacc. cbn [snd] in Hacc.
    apply (f_equal fst) in Hget. cbn [fst] in Hget. injection Hget as Hevent. subst event.
    rewrite <- Hacc in Hstore, Hload'.
    assert (Hb0 : Balances a0 =
                  <[WithdrawCurrency cmd := Sub (getBalance account (WithdrawCurrency cmd))
                                              (WithdrawAmount cmd)]> (Balances account))
      by (apply (f_equal Balances) in Hacc; symmetry; exact Hacc).
    assert (Hver0 : Version a0 = GoInt.add (Version account) 1)
      by (apply (f_equal Version) in Hacc; symmetry; exact Hacc).
    destruct (stream_of_saved s (WithdrawAccountID cmd) es _ _ Hes Hstore) as [Hstream Hothers].
    eexists _, account'. split; [|split; [|split; [|split; [|split; [|split]]]]].
    + unfold app.Withdraw. fold s. rewrite Hload, Hh.
      unfold GetUncommitedChanges. cbn [changes].
      rewrite Hch. cbn [app].
      change (GoInt.len [?e] =? 0) with false. cbv iota. rewrite Hsave. reflexivity.
    + rewrite Hstream, Hadd, Hida. reflexivity.
    + exact Hothers.
    + exact Hload'.
    + destruct Hsame as (_ & -> & _). rewrite Hver0. exact Hadd.
    + pose proof (same_state_getBalance _ _ (WithdrawCurrency cmd) Hsame) as He.
      apply Equal_toQ in He. rewrite He. unfold getBalance at 1. rewrite Hb0.
      rewrite lookup_insert_eq. apply toQ_Sub.
    + intros currency Hne. destruct Hsame as (_ & _ & Hb). specialize (Hb currency).
      rewrite Hb0, lookup_insert_ne in Hb by congruence. exact Hb.
  - intros Hfunds.
    assert (Hge : GreaterThanOrEqual (getBalance account (WithdrawCurrency cmd))
                    (WithdrawAmount cmd) = false).
    { destruct (GreaterThanOrEqual _ _) eqn:Hge; [|reflexivity].
      apply GreaterThanOrEqual_toQ in Hge. exfalso. revert Hfunds. apply Qle_not_lt, Hge. }
    unfold app.Withdraw. fold s. rewrite Hload.
    rewrite (HandleWithdraw_insufficient uuid_New time_Now account _ _
               ltac:(congruence) Hv0 Hpos Hge).
    reflexivity.
Qed.

(** X23. Creating an account through the service, in any state the
    service reaches from new stores by calls of its commands (fewer than the
    largest [int]). The id is the one of the command, or the one drawn from
    [uuid] when the command carries none. When it is not empty, nothing is
    stored for it and no initial balance is negative, [CreateAccount] returns
    the id; the stream of the account is the single [AccountCreatedEvent] of
    version 1 carrying the initial balances, the other streams are untouched,
    and the account then loads at version 1 with exactly the currencies and
    amounts given. When an account of that id loads, [CreateAccount] returns
    [ErrAccountExists] and both stores are as they were. *)
Theorem CreateAccount_creates_or_refuses (rs : list request) (uuid_NewString : string)
    (uuid_New : UUID) (time_Now created_Now saved_Now : Time) (cmd : CreateAccountCommand)
    (accountID : string)
    (Hcalls : GoInt.len rs < GoInt.MaxInt)
    (HaccountID : accountID =
       if String.eqb (CreateAccountID cmd) "" then uuid_NewString else CreateAccountID cmd) :
  (accountID <> "" ->
   stream_of (serve_all Div rs) accountID = [] ->
   (forall currency amount,
      CreateInitialBalances cmd !! currency = Some amount -> (0 <= toQ amount)%Q) ->
   exists s' account',
     app.CreateAccount uuid_NewString uuid_New time_Now created_Now saved_Now
       (serve_all Div rs) cmd = (Returned accountID, s') /\
     stream_of s' accountID =
       [AccountCreatedEvent
          (NewBaseEvent uuid_New time_Now accountID 1 AccountCreatedType)
          (balanceEntries (CreateInitialBalances cmd))] /\
     (forall id, id <> accountID -> stream_of s' id = stream_of (serve_all Div rs) id) /\
     loadAccount s' accountID = Returned account' /\
     ID account' = accountID /\ Version account' = 1 /\
     (forall currency,
        same_amount (Balances account' !! currency) (CreateInitialBalances cmd !! currency))) /\
  (forall existing,
     loadAccount (serve_all Div rs) accountID = Returned existing ->
     app.CreateAccount uuid_NewString uuid_New time_Now created_Now saved_Now
       (serve_all Div rs) cmd =
       (Failed (Errorf_w "%w: %s" ErrAccountExists), serve_all Div rs)).
Proof.
  set (s := serve_all Div rs) in *.
  pose proof (len_nonneg rs) as Hn.
  pose proof (serve_all_consistent Div rs ltac:(lia)) as Hs. fold s in Hs.
  split.
  - intros Hid Hnil Hbal.
    assert (Hbal' : forall currency amount,
              CreateInitialBalances cmd !! currency = Some amount -> IsNegative amount = false)
      by (intros c d H; apply not_IsNegative_toQ; exact (Hbal c d H)).
    pose proof (HandleCreateAccount_applied uuid_New time_Now (NewAccount accountID) accountID
                  (CreateInitialBalances cmd) ltac:(cbn; lia) Hid Hbal') as Hh.
    cbn [NewAccount ID Version changes app] in Hh.
    change (GoInt.add 0 1) with 1 in Hh.
    set (event := AccountCreatedEvent
                    (NewBaseEvent uuid_New time_Now accountID 1 AccountCreatedType)
                    (balanceEntries (CreateInitialBalances cmd))) in *.
    set (created := {| ID := accountID; Balances := CreateInitialBalances cmd; Version := 1;
                       changes := [] |}).
    pose proof Hs as (Hwf & Hfiled & _).
    assert (Hnone : snapshots (snapshotStore s) !! accountID = None).
    { destruct (snapshots (snapshotStore s) !! accountID) as [snapshot|] eqn:E; [|reflexivity].
      destruct (Hfiled _ _ E) as [_ Hne]. contradiction. }
    assert (Hload : loadAccount s accountID = Failed (Errorf_w "%w: %s" ErrAccountNotFound)).
    { rewrite (loadAccount_replay s accountID Hwf) by (rewrite Hnone; exact I).
      rewrite Hnil. reflexivity. }
    set (es := mkEventStore (<[accountID := [event]]> (streams (eventStore s)))).
    assert (Hsave : SaveEvents (eventStore s) accountID 0 [event] = (None, es)).
    { unfold SaveEvents, currentVersion, es. unfold stream_of in Hnil.
      change (GoInt.len [event] =? 0) with false. cbv iota.
      destruct (streams (eventStore s) !! accountID) as [stream|];
        cbn in Hnil; [subst stream|];
        cbn [last check_batch GetBase NewBaseEvent events.Version AggregateID];
        change (GoInt.add 0 1) with 1; cbn [Z.eqb Pos.eqb negb];
        rewrite String.eqb_refl; reflexivity. }
    assert (Hs' : stores_consistent (GoInt.len rs + 1) (mkAccountService es (snapshotStore s))).
    { exact (saved_consistent (GoInt.len rs) s accountID 0 event es created created_Now saved_Now
               Hs Hn ltac:(lia) Hsave eq_refl). }
    destruct Hs' as (Hwf' & _ & _).
    assert (Hstream : stream_of (mkAccountService es (snapshotStore s)) accountID = [event]).
    { unfold stream_of, es. cbn [eventStore streams]. rewrite lookup_insert_eq. reflexivity. }
    exists (mkAccountService es (snapshotStore s)), created.
    split; [|split; [|split; [|split; [|split; [|split]]]]].
    + unfold app.CreateAccount. rewrite <- HaccountID. fold s.
      rewrite Hload. cbn [Is sentinel_eqb orb negb].
      rewrite Hh. unfold GetUncommitedChanges. cbn [changes set_changes ID Balances Version].
      change (GoInt.len [event] =? 0) with false. cbv iota.
      rewrite Hsave. reflexivity.
    + exact Hstream.
    + intros id Hne. unfold stream_of, es. cbn [eventStore streams].
      rewrite lookup_insert_ne by congruence. reflexivity.
    + rewrite (loadAccount_replay _ accountID Hwf') by (cbn [snapshotStore]; rewrite Hnone; exact I).
      rewrite Hstream. cbn [ApplyEvents]. unfold ApplyEvent, event.
      cbn [GetBase NewBaseEvent events.Version NewAccount Version AggregateID].
      change (GoInt.add 0 1) with 1. cbn [Z.eqb Pos.eqb negb].
      rewrite install_balances_balanceEntries. reflexivity.
    + reflexivity.
    + reflexivity.
    + intros currency. apply same_amount_refl.
  - intros existing Hload. unfold app.CreateAccount. rewrite <- HaccountID. fold s.
    rewrite Hload. reflexivity.
Qed.

End Commands.

(** ** Conversions through the service *)

Section Conversions.
Variable Div : Decimal -> Decimal -> Decimal.

(** X24. A conversion through the service, in any state the service
    reaches from new stores by calls of its commands (fewer than the largest
    [int]) whose creations and deposits name only currencies that are valid
    UTF-8, for an account that loads, has an id that is not empty, and an
    amount greater than zero whose exponent is an [int32]. Between two
    different currencies for which [getExchangeRate] returns a rate, and when
    the balance of the source currency is at least the amount: if the exponent
    of the amount is at least the least [int32] plus 2, [ConvertCurrency]
    returns no error; the stream of the account has grown by exactly one
    [CurrencyConvertedEvent] of the next version, recording the amount times
    the rate as converted amount; and the account loaded afterwards is one
    version further, with the source balance reduced by the amount, the target
    balance increased by the amount times the rate, exactly, and its other
    balances as before. If the exponent is smaller, the multiplication of the
    decimal library panics, and so does [ConvertCurrency], with both stores as
    they were. From a currency to itself the conversion is always refused, and
    both stores are as they were. *)
Theorem ConvertCurrency_converts_at_table_rate (rs : list request) (uuid_New : UUID)
    (time_Now created_Now saved_Now : Time) (cmd : ConvertCurrencyCommand) (account : Account)
    (Hcalls : GoInt.len rs < GoInt.MaxInt)
    (Hcurrencies : forallb request_currencies_valid rs = true)
    (Hid : ConvertAccountID cmd <> "")
    (Hload : loadAccount (serve_all Div rs) (ConvertAccountID cmd) = Returned account)
    (Hpos : (0 < toQ (ConvertFromAmount cmd))%Q)
    (Hexp : exp_int32 (ConvertFromAmount cmd)) :
  (forall rate,
     ConvertFromCurrency cmd <> ConvertToCurrency cmd ->
     getExchangeRate Div (ConvertFromCurrency cmd) (ConvertToCurrency cmd) = (rate, None) ->
     (toQ (ConvertFromAmount cmd) <= toQ (getBalance account (ConvertFromCurrency cmd)))%Q ->
     (- 2 ^ 31 + 2 <= exp (ConvertFromAmount cmd) ->
      exists toAmount s' account',
        Mul (ConvertFromAmount cmd) rate = Returns toAmount /\
        (toQ toAmount == toQ (ConvertFromAmount cmd) * toQ rate)%Q /\
        app.ConvertCurrency Div uuid_New time_Now created_Now saved_Now (serve_all Div rs) cmd
          = (Returned tt, s') /\
        stream_of s' (ConvertAccountID cmd) =
          stream_of (serve_all Div rs) (ConvertAccountID cmd) ++
            [CurrencyConvertedEvent
               (NewBaseEvent uuid_New time_Now (ConvertAccountID cmd) (Version account + 1)
                  CurrencyConvertedType)
               (ConvertFromAmount cmd) (ConvertFromCurrency cmd)
               toAmount (ConvertToCurrency cmd) rate] /\
        (forall id, id <> ConvertAccountID cmd ->
           stream_of s' id = stream_of (serve_all Div rs) id) /\
        loadAccount s' (ConvertAccountID cmd) = Returned account' /\
        Version account' = Version account + 1 /\
        (toQ (getBalance account' (ConvertFromCurrency cmd)) ==
           toQ (getBalance account (ConvertFromCurrency cmd)) - toQ (ConvertFromAmount cmd))%Q /\
        (toQ (getBalance account' (ConvertToCurrency cmd)) ==
           toQ (getBalance account (ConvertToCurrency cmd)) +
           toQ (ConvertFromAmount cmd) * toQ rate)%Q /\
        (forall currency,
           currency <> ConvertFromCurrency cmd -> currency <> ConvertToCurrency cmd ->
           same_amount (Balances account' !! currency) (Balances account !! currency))) /\
     (exp (ConvertFromAmount cmd) < - 2 ^ 31 + 2 ->
      exists reason,
        app.ConvertCurrency Div uuid_New time_Now created_Now saved_Now (serve_all Div rs) cmd
          = (Panicked reason, serve_all Div rs))) /\
  (ConvertFromCurrency cmd = ConvertToCurrency cmd ->
   exists err,
     app.ConvertCurrency Div uuid_New time_Now created_Now saved_Now (serve_all Div rs) cmd
       = (Failed err, serve_all Div rs) /\
     Is err ErrInsufficientFunds = false).
Proof.
  set (s := serve_all Div rs) in *.
  destruct (serve_all_wf Div rs Hcurrencies ltac:(lia)) as [Hs Hvalid].
  fold s in Hs, Hvalid.
  pose proof (len_nonneg rs) as Hn.
  destruct (loaded_version _ s _ account Hs Hn ltac:(lia) Hload) as (Hv0 & Hadd & Hida & Hch).
  apply IsPositive_toQ in Hpos. split.
  - intros rate Hcur Hrate Hfunds. apply GreaterThanOrEqual_toQ in Hfunds.
    pose proof (getExchangeRate_positive Div _ _ _ Hrate) as Hrpos.
    destruct (getExchangeRate_target Div _ _ _ Hrate Hcur) as [Hrexp Hto].
    unfold exp_int32 in Hexp. split.
    + intros Hlow.
      assert (Hsum : - 2 ^ 31 <= exp (ConvertFromAmount cmd) + exp rate <= 2 ^ 31 - 1)
        by (rewrite Hrexp; lia).
      pose proof (Mul_Returns _ _ Hsum) as Hmul.
      set (toAmount := mkDecimal (value (ConvertFromAmount cmd) * value rate)
                         (exp (ConvertFromAmount cmd) + exp rate)) in *.
      pose proof (HandleConvertCurrency_applied uuid_New time_Now account (ConvertFromAmount cmd)
                    (ConvertFromCurrency cmd) (ConvertToCurrency cmd) rate toAmount
                    ltac:(congruence) Hv0 Hpos Hcur Hrpos Hfunds Hmul) as Hh.
      destruct (commit_handled (GoInt.len rs) s (ConvertAccountID cmd) account uuid_New time_Now
                  created_Now saved_Now
                  (ConvertCurrency (ConvertFromAmount cmd) (ConvertFromCurrency cmd)
                     (ConvertToCurrency cmd) rate) _
                  Hs Hvalid Hn ltac:(lia) Hload I Hto Hh)
        as (event & a0 & es & _ & Hget & Hes & Hsave & Hstore & _ & _ & account' & Hload' & Hsame
            & _).
      unfold GetUncommitedChanges in Hget. cbn [changes] in Hget.
      rewrite Hch in Hget. cbn [app] in Hget.
      pose proof (f_equal snd Hget) as Hacc. cbn [snd] in Hacc.
      apply (f_equal fst) in Hget. cbn [fst] in Hget. injection Hget as Hevent. subst event.
      rewrite <- Hacc in Hstore, Hload'.
      assert (Hb0 : Balances a0 =
                    <[ConvertToCurrency cmd :=
                        Add (getBalance account (ConvertToCurrency cmd)) toAmount]>
                      (<[ConvertFromCurrency cmd :=
                           Sub (getBalance account (ConvertFromCurrency cmd))
                             (ConvertFromAmount cmd)]> (Balances account)))
        by (apply (f_equal Balances) in Hacc; symmetry; exact Hacc).
      assert (Hver0 : Version a0 = GoInt.add (Version account) 1)
        by (apply (f_equal Version) in Hacc; symmetry; exact Hacc).
      destruct (stream_of_saved s (ConvertAccountID cmd) es _ _ Hes Hstore) as [Hstream Hothers].
      exists toAmount. eexists _, account'.
      split; [exact Hmul|]. split; [exact (toQ_Mul _ _ _ Hmul)|].
      split; [|split; [|split; [|split; [|split; [|split; [|split]]]]]].
      * unfold app.ConvertCurrency. fold s. rewrite Hload, Hrate, Hh.
        unfold GetUncommitedChanges. cbn [changes].
        rewrite Hch. cbn [app].
        change (GoInt.len [?e] =? 0) with false. cbv iota. rewrite Hsave. reflexivity.
      * rewrite Hstream, Hadd, Hida. reflexivity.
      * exact Hothers.
      * exact Hload'.
      * destruct Hsame as (_ & -> & _). rewrite Hver0. exact Hadd.
      * pose proof (same_state_getBalance _ _ (ConvertFromCurrency cmd) Hsame) as He.
        apply Equal_toQ in He. rewrite He. unfold getBalance at 1. rewrite Hb0.
        rewrite lookup_insert_ne by congruence. rewrite lookup_insert_eq. apply toQ_Sub.
      * pose proof (same_state_getBalance _ _ (ConvertToCurrency cmd) Hsame) as He.
        apply Equal_toQ in He. rewrite He. unfold getBalance at 1. rewrite Hb0.
        rewrite lookup_insert_eq. rewrite toQ_Add, (toQ_Mul _ _ _ Hmul). reflexivity.
      * intros currency Hne1 Hne2. destruct Hsame as (_ & _ & Hb). specialize (Hb currency).
        rewrite Hb0, !lookup_insert_ne in Hb by congruence. exact Hb.
    + intros Hlow.
      destruct (Mul_Panics (ConvertFromAmount cmd) rate) as [reason Hmul];
        [left; rewrite Hrexp; lia|].
      exists reason. unfold app.ConvertCurrency. fold s. rewrite Hload, Hrate.
      rewrite HandleConvertCurrency_checked by (congruence || assumption).
      rewrite Hmul. reflexivity.
  - intros Hcur. unfold app.ConvertCurrency. fold s. rewrite Hload.
    unfold getExchangeRate. rewrite Hcur, String.eqb_refl.
    unfold HandleConvertCurrency.
    rewrite (initialized_false account ltac:(congruence) Hv0), Hpos, String.eqb_refl.
    cbn [negb]. eexists. split; reflexivity.
Qed.

End Conversions.


(** ** Failed commands of the service *)

(** X25. A command of the service that returns an error has changed
    nothing: whatever the state of the two stores, when [CreateAccount],
    [Deposit], [Withdraw] or [ConvertCurrency] returns an error, the event
    store and the snapshot store are exactly as before the call. *)
Theorem failed_service_command_changes_nothing (Div : Decimal -> Decimal -> Decimal)
    (s : AccountService) (uuid_NewString : string) (uuid_New : UUID)
    (time_Now created_Now saved_Now : Time) :
  (forall cmd err s',
     app.CreateAccount uuid_NewString uuid_New time_Now created_Now saved_Now s cmd
       = (Failed err, s') -> s' = s) /\
  (forall cmd err s',
     app.Deposit uuid_New time_Now created_Now saved_Now s cmd = (Failed err, s') -> s' = s) /\
  (forall cmd err s',
     app.Withdraw uuid_New time_Now created_Now saved_Now s cmd = (Failed err, s') -> s' = s) /\
  (forall cmd err s',
     app.ConvertCurrency Div uuid_New time_Now created_Now saved_Now s cmd = (Failed err, s') ->
     s' = s).
Proof.
  assert (Hsave : forall id v batch err es,
            SaveEvents (eventStore s) id v batch = (Some err, es) ->
            mkAccountService es (snapshotStore s) = s).
  { intros id v batch err es H. apply SaveEvents_failure in H as ->. apply AccountService_eta. }
  repeat split; intros cmd err s';
    unfold app.CreateAccount, app.Deposit, app.Withdraw, app.ConvertCurrency, GetUncommitedChanges;
    repeat match goal with
    | |- context [loadAccount ?s ?id] => destruct (loadAccount s id)
    | |- context [HandleCreateAccount ?u ?t ?a ?id ?b] =>
        destruct (HandleCreateAccount u t a id b) as [[?|] ?]
    | |- context [HandleDeposit ?u ?t ?a ?x ?c] => destruct (HandleDeposit u t a x c) as [[?|] ?]
    | |- context [HandleWithdraw ?u ?t ?a ?x ?c] => destruct (HandleWithdraw u t a x c) as [[?|] ?]
    | |- context [HandleConvertCurrency ?u ?t ?a ?x ?c ?d ?r] =>
        destruct (HandleConvertCurrency u t a x c d r) as [[[?|] ?]|?]
    | |- context [getExchangeRate ?D ?f ?t] => destruct (getExchangeRate D f t) as [? [?|]]
    | |- context [SaveEvents ?es ?id ?v ?b] =>
        let E := fresh "E" in destruct (SaveEvents es id v b) as [[?|] ?] eqn:E
    | |- context [if ?b then _ else _] => destruct b
    end;
    intros [= <- <-] || intros [=]; try reflexivity; eapply Hsave; eassumption.
Qed.

(** ** What the service reports *)

Lemma Equal_IsNegative_false x y : Equal x y = true -> IsNegative y = false -> IsNegative x = false.
Proof. intros He Hy. rewrite (Equal_IsNegative _ _ He). exact Hy. Qed.

(** X26. In any state the service reaches from new stores by calls of its
    commands (not more than the largest [int]) whose creations and deposits
    name only currencies that are valid UTF-8, an account that loads is the
    replay of its stored stream: it has the id asked for, nothing pending, and
    as version the number of stored events, which is at least 1; the replay of
    the whole stream on a new aggregate succeeds, is what [loadAccount]
    returns when all snapshots are set aside, and is in the same state,
    amount for amount; and no balance of the account is negative. *)
Theorem loaded_account_is_the_replay (Div : Decimal -> Decimal -> Decimal)
    (rs : list request) (accountID : string) (account : Account)
    (Hcalls : GoInt.len rs <= GoInt.MaxInt)
    (Hcurrencies : forallb request_currencies_valid rs = true)
    (Hload : loadAccount (serve_all Div rs) accountID = Returned account) :
  ID account = accountID /\
  Version account = GoInt.len (stream_of (serve_all Div rs) accountID) /\
  1 <= Version account /\
  changes account = [] /\
  (exists replayed,
     ApplyEvents (NewAccount accountID) (stream_of (serve_all Div rs) accountID)
       = (None, replayed) /\
     loadAccount (without_snapshots (serve_all Div rs)) accountID = Returned replayed /\
     same_state account replayed) /\
  (forall currency amount,
     Balances account !! currency = Some amount -> (0 <= toQ amount)%Q).
Proof.
  set (s := serve_all Div rs) in *.
  destruct (serve_all_wf Div rs Hcurrencies Hcalls) as [Hs _]. fold s in Hs.
  destruct (loadAccount_Returned _ s accountID account Hs Hload)
    as (Hch & Hid & Hv & Hne & replayed & Hrep & Hsame).
  pose proof Hs as (Hwf & _ & Hcred & _).
  assert (Hpos : 1 <= Version account).
  { rewrite Hv. destruct (stream_of s accountID); [contradiction|].
    unfold GoInt.len; cbn [length]. lia. }
  split; [exact Hid|]. split; [exact Hv|]. split; [exact Hpos|]. split; [exact Hch|].
  split.
  - exists replayed. split; [exact Hrep|]. split; [|exact Hsame].
    rewrite (loadAccount_replay (without_snapshots s) accountID Hwf) by exact I.
    change (stream_of (without_snapshots s) accountID) with (stream_of s accountID).
    rewrite Hrep. cbn [loaded]. destruct Hsame as (_ & <- & _).
    destruct (Z.eqb_spec (Version account) 0); [lia|reflexivity].
  - intros currency amount Hb. apply not_IsNegative_toQ.
    assert (Hnn : balances_nonneg replayed).
    { apply (ApplyEvents_preserves_nonneg _ _ _ (NewAccount_nonneg accountID)) in Hrep;
        [exact Hrep|].
      unfold stream_of. destruct (streams (eventStore s) !! accountID) as [stream|] eqn:E; cbn.
      - apply (Hcred accountID stream E).
      - constructor. }
    destruct Hsame as (_ & _ & Hbal). specialize (Hbal currency). rewrite Hb in Hbal.
    unfold same_amount in Hbal. destruct (Balances replayed !! currency) as [amount'|] eqn:E';
      [|contradiction].
    exact (Equal_IsNegative_false _ _ Hbal (Hnn currency amount' E')).
Qed.

Lemma copy_lookup (l : list (Currency * Decimal)) : forall (m0 : gmap Currency Decimal) c,
  NoDup (fst <$> l) ->
  foldl (fun balancesCopy kv => <[fst kv := snd kv]> balancesCopy) m0 l !! c =
    match (list_to_map l : gmap Currency Decimal) !! c with
    | Some d => Some d
    | None => m0 !! c
    end.
Proof.
  induction l as [|[k d] l IH]; intros m0 c Hnd; cbn [foldl fst snd].
  - change (list_to_map [] : gmap Currency Decimal) with (∅ : gmap Currency Decimal).
    rewrite lookup_empty. reflexivity.
  - cbn [fmap list_fmap fst] in Hnd. apply NoDup_cons in Hnd as [Hk Hnd].
    rewrite IH by exact Hnd.
    change (list_to_map ((k, d) :: l) : gmap Currency Decimal)
      with (<[k := d]> (list_to_map l : gmap Currency Decimal)).
    destruct (decide (k = c)) as [<-|Hne].
    + rewrite !lookup_insert_eq.
      rewrite (not_elem_of_list_to_map_1 l k Hk). reflexivity.
    + rewrite !lookup_insert_ne by exact Hne. reflexivity.
Qed.

Lemma copy_balances_id (balances : gmap Currency Decimal) : copy_balances balances = balances.
Proof.
  apply map_eq. intros c. unfold copy_balances.
  rewrite copy_lookup by apply NoDup_fst_map_to_list.
  rewrite list_to_map_to_list. destruct (balances !! c); [reflexivity|apply lookup_empty].
Qed.

(** X27. [GetCurrentBalance] reports the balances of the account that
    [loadAccount] returns. Asked for all currencies, it returns exactly the
    balances of the account. Asked for one currency, it returns a map with
    that currency alone, never an empty one: under it the balance held, or the
    zero decimal when the account does not hold the currency. When the
    account does not load, it returns an error, which is
    [ErrAccountNotFound] exactly when the error of [loadAccount] is. *)
Theorem GetCurrentBalance_reports_balances (s : AccountService) (accountID : string) :
  (forall account,
     loadAccount s accountID = Returned account ->
     GetCurrentBalance s (mkGetBalanceQuery accountID None) = Returned (Balances account) /\
     forall currency,
       exists balance,
         GetCurrentBalance s (mkGetBalanceQuery accountID (Some currency))
           = Returned {[ currency := balance ]} /\
         Equal balance (getBalance account currency) = true /\
         (forall held, Balances account !! currency = Some held -> balance = held) /\
         (Balances account !! currency = None -> balance = mkDecimal 0 0)) /\
  (forall err currency,
     loadAccount s accountID = Failed err ->
     exists err',
       GetCurrentBalance s (mkGetBalanceQuery accountID currency) = Failed err' /\
       Is err' ErrAccountNotFound = Is err ErrAccountNotFound).
Proof.
  unfold GetCurrentBalance; cbn [BalanceAccountID BalanceCurrency]. split.
  - intros account ->. split; [rewrite copy_balances_id; reflexivity|].
    intros currency. eexists. split; [reflexivity|]. unfold getBalance.
    destruct (Balances account !! currency) as [held|]; cbn [default].
    + split; [apply Equal_refl|]. split; [intros held' [= ->]; reflexivity|discriminate].
    + split; [reflexivity|]. split; [discriminate|reflexivity].
  - intros err currency ->. destruct (Is err ErrAccountNotFound) eqn:E.
    + eexists. split; [reflexivity|]. cbn [Is sentinel_eqb orb]. exact E.
    + eexists. split; [reflexivity|]. cbn [Is sentinel_eqb orb]. exact E.
Qed.

(** X27 (witness). The service holding the two events of "acc-1": 3 USD,
    and the zero decimal for EUR, which the account does not hold. *)
Lemma GetCurrentBalance_reports_balances_witness :
  GetCurrentBalance service_two_events (mkGetBalanceQuery "acc-1" None)
    = Returned {[ USD := New 3 0 ]} /\
  GetCurrentBalance service_two_events (mkGetBalanceQuery "acc-1" (Some EUR))
    = Returned {[ EUR := mkDecimal 0 0 ]}.
Proof.
  destruct (GetCurrentBalance_reports_balances service_two_events "acc-1") as [H _].
  destruct (loadAccount service_two_events "acc-1") as [account| |] eqn:E;
    [|vm_compute in E; discriminate..].
  destruct (H account eq_refl) as [Hall Hone].
  destruct (Hone EUR) as (balance & Hget & _ & _ & Hzero).
  vm_compute in E. injection E as <-.
  split; [exact Hall|]. rewrite Hget, Hzero; reflexivity.
Defined.

(** X29. [saveSnapshotIfNeeded] never touches the event store, and saves
    a snapshot exactly at the versions that are positive multiples of 100.
    At such a version the snapshot store afterwards holds, under the id of the
    account, a snapshot with that id and version, the JSON text of the account
    as state and the time of the save as timestamp, replacing any earlier
    snapshot of the account; and that snapshot, if it can be applied, gives
    back an account with the id and the version of the account and nothing
    pending, which is in the same state, balance for balance, when the
    currencies of the account are valid UTF-8. At any other version both
    stores are as they were. *)
Theorem saveSnapshotIfNeeded_every_hundredth (created_Now saved_Now : Time)
    (s : AccountService) (account : Account) :
  eventStore (saveSnapshotIfNeeded created_Now saved_Now s account) = eventStore s /\
  (0 < Version account -> (100 | Version account) ->
   snapshots (snapshotStore (saveSnapshotIfNeeded created_Now saved_Now s account)) =
     <[ID account :=
         {| SnapshotAggregateID := ID account;
            SnapshotVersion := Version account;
            State := fst (json_Marshal account);
            SnapshotTimestamp := saved_Now |}]> (snapshots (snapshotStore s)) /\
   forall account',
     ApplySnapshot {| SnapshotAggregateID := ID account;
                      SnapshotVersion := Version account;
                      State := fst (json_Marshal account);
                      SnapshotTimestamp := saved_Now |} = (Some account', None) ->
     ID account' = ID account /\ Version account' = Version account /\
     changes account' = [] /\
     (currencies_valid account -> same_state account' account)) /\
  (Version account <= 0 \/ ~ (100 | Version account) ->
   saveSnapshotIfNeeded created_Now saved_Now s account = s).
Proof.
  assert (Hrem : (Z.rem (Version account) SnapshotFrequency =? 0) = true <->
                 (100 | Version account)).
  { rewrite Z.eqb_eq. apply Z.rem_divide. discriminate. }
  unfold saveSnapshotIfNeeded. split; [|split].
  - repeat case_match; reflexivity.
  - intros Hpos Hdiv. apply Hrem in Hdiv. rewrite Hdiv.
    destruct (Z.ltb_spec 0 (Version account)); [|lia]. cbn [andb].
    split; [reflexivity|].
    intros account' Happ.
    destruct (ApplySnapshot_envelope _ _ Happ) as (Hid & Hv & Hch).
    split; [exact Hid|]. split; [exact Hv|]. split; [exact Hch|].
    intros Hvalid.
    exact (proj1 (ApplySnapshot_CreateSnapshot created_Now saved_Now account account' _
                    Hvalid eq_refl Happ)).
  - intros [Hle|Hnd].
    + destruct (Z.ltb_spec 0 (Version account)); [lia|]. rewrite andb_false_r. reflexivity.
    + destruct (Z.rem (Version account) SnapshotFrequency =? 0) eqn:E; [|reflexivity].
      exfalso. apply Hnd, Hrem. reflexivity.
Qed.

(** ** The theorems at work *)

Lemma service_with_snapshot_wf : store_wf (eventStore service_with_snapshot).
Proof.
  intros id stream Hs. cbn in Hs. apply lookup_singleton_Some in Hs as [<- <-]. split.
  - intros [|[|i]] e Hi; try discriminate; injection Hi as <-; split; reflexivity.
  - vm_compute. discriminate.
Defined.

Lemma service_with_snapshot_faithful : snapshots_faithful service_with_snapshot.
Proof.
  intros id snapshot account Hs Happ. cbn in Hs.
  apply lookup_singleton_Some in Hs as [<- <-].
  vm_compute in Happ. injection Happ as <-.
  split; [vm_compute; split; discriminate|].
  eexists. split; [vm_compute; reflexivity|]. apply same_state_refl.
Defined.


(** X20 (witness). With the snapshot taken after the first of the two
    events of "acc-1", the account loads at version 2 with 3 USD, as it does
    without the snapshot. *)
Lemma loadAccount_snapshot_transparent_witness :
  exists a b,
    loadAccount service_with_snapshot "acc-1" = Returned a /\
    loadAccount (without_snapshots service_with_snapshot) "acc-1" = Returned b /\
    same_state a b /\ Version a = 2 /\ Balances a = {[ USD := New 3 0 ]}.
Proof.
  pose proof (loadAccount_snapshot_transparent service_with_snapshot "acc-1"
                service_with_snapshot_wf service_with_snapshot_faithful) as H.
  destruct (loadAccount service_with_snapshot "acc-1") as [a|e|r] eqn:Ea;
    [|vm_compute in Ea; discriminate..].
  destruct (loadAccount (without_snapshots service_with_snapshot) "acc-1") as [b|e|r] eqn:Eb;
    [|contradiction..].
  destruct H as (Hsame & _ & _).
  exists a, b. split; [reflexivity|]. split; [reflexivity|]. split; [exact Hsame|].
  vm_compute in Ea. injection Ea as <-. split; reflexivity.
Defined.


(** X21 (witness). After account "A" is created with 1000.50 USD and 500
    EUR and 200 USD are deposited, a deposit of 50 EUR brings the account to
    version 3. *)
Lemma Deposit_appends_and_credits_witness :
  exists account s' account',
    loadAccount (serve_all Div_unused seed_requests) "A" = Returned account /\
    app.Deposit 3 30 31 32 (serve_all Div_unused seed_requests)
      (mkDepositMoneyCommand "A" (New 50 0) EUR) = (Returned tt, s') /\
    loadAccount s' "A" = Returned account' /\
    Version account' = Version account + 1 /\
    (toQ (getBalance account' EUR) == toQ (getBalance account EUR) + toQ (New 50 0))%Q.
Proof.
  destruct (loadAccount (serve_all Div_unused seed_requests) "A") as [account|e|r] eqn:E;
    [|vm_compute in E; discriminate..].
  destruct (Deposit_appends_and_credits Div_unused seed_requests 3 30 31 32
              (mkDepositMoneyCommand "A" (New 50 0) EUR) account)
    as (s' & account' & Hd & _ & _ & Hl & Hv & Hb & _).
  - vm_compute. reflexivity.
  - vm_compute. reflexivity.
  - vm_compute. reflexivity.
  - discriminate.
  - exact E.
  - reflexivity.
  - exists account, s', account'. repeat split; assumption.
Defined.


(** X22 (witness). In the same state, withdrawing 2000 USD from the
    1200.50 USD of "A" is refused with [ErrInsufficientFunds]. *)
Lemma Withdraw_debits_or_refuses_witness :
  app.Withdraw 3 30 31 32 (serve_all Div_unused seed_requests)
    (mkWithdrawMoneyCommand "A" (New 2000 0) USD) =
    (Failed (Errorf_w "%w: requested %s %s, available %s %s" ErrInsufficientFunds),
     serve_all Div_unused seed_requests).
Proof.
  destruct (loadAccount (serve_all Div_unused seed_requests) "A") as [account|e|r] eqn:E;
    [|vm_compute in E; discriminate..].
  destruct (Withdraw_debits_or_refuses Div_unused seed_requests 3 30 31 32
              (mkWithdrawMoneyCommand "A" (New 2000 0) USD) account) as [_ H].
  - vm_compute. reflexivity.
  - vm_compute. reflexivity.
  - discriminate.
  - exact E.
  - reflexivity.
  - apply H. vm_compute in E. injection E as <-. vm_compute. reflexivity.
Defined.


(** X23 (witness). On new stores, creating "A" with 1000.50 USD and 500
    EUR. *)
Lemma CreateAccount_creates_or_refuses_witness :
  exists s' account',
    app.CreateAccount "generated-id" 1 10 11 12 (serve_all Div_unused [])
      (mkCreateAccountCommand "A" {[ USD := New 100050 (-2); EUR := New 500 0 ]})
      = (Returned "A"%string, s') /\
    loadAccount s' "A" = Returned account' /\
    Version account' = 1 /\
    same_amount (Balances account' !! USD) (Some (New 100050 (-2))).
Proof.
  destruct (CreateAccount_creates_or_refuses Div_unused [] "generated-id" 1 10 11 12
              (mkCreateAccountCommand "A" {[ USD := New 100050 (-2); EUR := New 500 0 ]}) "A")
    as [H _].
  - vm_compute. reflexivity.
  - reflexivity.
  - destruct H as (s' & account' & Hc & _ & _ & Hl & _ & Hv & Hb).
    + discriminate.
    + reflexivity.
    + intros currency amount Hl. cbn [CreateInitialBalances] in Hl.
      apply lookup_insert_Some in Hl as [[_ <-]|[_ Hl]]; [vm_compute; discriminate|].
      apply lookup_singleton_Some in Hl as [_ <-]. vm_compute; discriminate.
    + exists s', account'. split; [exact Hc|]. split; [exact Hl|]. split; [exact Hv|].
      exact (Hb USD).
Defined.


(** X24 (witness). In the state after the seed calls, 100 USD of "A" are
    converted to euros at 0.92: 100 times 0.92 EUR are credited. *)
Lemma ConvertCurrency_converts_at_table_rate_witness :
  exists account s' account',
    loadAccount (serve_all Div_unused seed_requests) "A" = Returned account /\
    Mul (New 100 0) (New 92 (-2)) = Returns (New 9200 (-2)) /\
    app.ConvertCurrency Div_unused 3 30 31 32 (serve_all Div_unused seed_requests)
      (mkConvertCurrencyCommand "A" (New 100 0) USD EUR) = (Returned tt, s') /\
    loadAccount s' "A" = Returned account' /\
    (toQ (getBalance account' EUR) ==
       toQ (getBalance account EUR) + toQ (New 100 0) * toQ (New 92 (-2)))%Q /\
    (toQ (getBalance account' USD) == toQ (getBalance account USD) - toQ (New 100 0))%Q.
Proof.
  destruct (loadAccount (serve_all Div_unused seed_requests) "A") as [account|e|r] eqn:E;
    [|vm_compute in E; discriminate..].
  destruct (ConvertCurrency_converts_at_table_rate Div_unused seed_requests 3 30 31 32
              (mkConvertCurrencyCommand "A" (New 100 0) USD EUR) account) as [H _].
  - vm_compute. reflexivity.
  - vm_compute. reflexivity.
  - discriminate.
  - exact E.
  - reflexivity.
  - unfold exp_int32. cbn. lia.
  - destruct (H (New 92 (-2))) as [Hin _].
    + discriminate.
    + vm_compute. reflexivity.
    + pose proof E as E'. vm_compute in E'. injection E' as <-. vm_compute. discriminate.
    + destruct Hin as (toAmount & s' & account' & Hm & _ & Hc & _ & _ & Hl & _ & Hfrom & Hto & _).
      * cbn. lia.
      * exists account, s', account'. split; [reflexivity|]. split; [reflexivity|].
        split; [exact Hc|]. split; [exact Hl|]. split; [exact Hto|exact Hfrom].
Defined.


(** X26 (witness). After the seed calls, "A" loads at version 2, the
    number of its stored events, and none of its balances is negative. *)
Lemma loaded_account_is_the_replay_witness :
  exists account,
    loadAccount (serve_all Div_unused seed_requests) "A" = Returned account /\
    Version account = 2 /\
    GoInt.len (stream_of (serve_all Div_unused seed_requests) "A") = 2 /\
    forall currency amount,
      Balances account !! currency = Some amount -> (0 <= toQ amount)%Q.
Proof.
  destruct (loadAccount (serve_all Div_unused seed_requests) "A") as [account|e|r] eqn:E;
    [|vm_compute in E; discriminate..].
  destruct (loaded_account_is_the_replay Div_unused seed_requests "A" account)
    as (_ & Hv & _ & _ & _ & Hnn).
  - vm_compute. discriminate.
  - vm_compute. reflexivity.
  - exact E.
  - exists account. split; [reflexivity|]. split; [|split; [|exact Hnn]].
    + rewrite Hv. vm_compute. reflexivity.
    + vm_compute. reflexivity.
Defined.


(** X29 (witness). At version 100 the snapshot of "acc-1" is saved under
    its id; at version 1 nothing is saved. *)
Lemma saveSnapshotIfNeeded_every_hundredth_witness :
  snapshots (snapshotStore (saveSnapshotIfNeeded 7 8 service_two_events acc1_v100)) !! "acc-1"
    = Some {| SnapshotAggregateID := "acc-1";
              SnapshotVersion := 100;
              State := fst (json_Marshal acc1_v100);
              SnapshotTimestamp := 8 |} /\
  saveSnapshotIfNeeded 7 8 service_two_events acc1_v1 = service_two_events.
Proof.
  split.
  - destruct (saveSnapshotIfNeeded_every_hundredth 7 8 service_two_events acc1_v100)
      as (_ & H & _).
    destruct H as [Hs _].
    + reflexivity.
    + exists 1. reflexivity.
    + rewrite Hs. change (ID acc1_v100) with "acc-1"%string.
      change (Version acc1_v100) with 100. apply lookup_insert_eq.
  - destruct (saveSnapshotIfNeeded_every_hundredth 7 8 service_two_events acc1_v1)
      as (_ & _ & H).
    apply H. right. intros [k Hk]. change (Version acc1_v1) with 1 in Hk. lia.
Defined.
